(** * Sync-Player: the coordination core of [res/server.js], embedded in Rocq

    The development follows the server source top to bottom: JavaScript
    values and the few coercions the handlers rely on, the clock
    ([consolidateTime] and the 5 s ticker), the room registry, the socket
    authorisation middleware, the [control] handler, the playlist handlers,
    the HTTP pipeline with the CSRF helpers, and the BSL handlers.

    Conventions.
    - [Date.now()] is an integer number of milliseconds ([Z]); every handler
      takes the instant it runs at as an argument [now].
    - JavaScript numbers are idealised: a finite number is an exact rational
      ([Qc]), next to [NaN] and the two infinities.  Rounding of IEEE doubles
      and the sign of zero are not modelled.
    - A payload field that a handler only stores, compares with [===], tests
      for truthiness or type-checks is an untyped JavaScript value ([jsval]).
      A field on which the handler does arithmetic without checking its type
      first carries the type the wire protocol gives it (a number, or absent).
    - Socket.io emissions are collected in a list, oldest first.

    A second part adds the listeners for playlist navigation, for room
    membership and for admin registration, the CSRF token table, the
    text helpers and two configuration constants, with their properties
    after those of the first part.  There a listener that can throw
    yields an [outcome], and a file name is a list of UTF-16 code
    units. *)

From Stdlib Require Import Ascii String QArith Qcanon Qround Qabs.
From stdpp Require Import gmap strings list fin_maps pretty.

Local Open Scope Z_scope.

(** ** JavaScript values *)

Module JS.

(** Numbers: exact rationals plus the three special values. *)
Inductive num : Type :=
| NaN
| PInf
| NInf
| Fin (q : Qc).

Definition Qc_eqb (a b : Qc) : bool := Qeq_bool (this a) (this b).
Definition Qc_leb (a b : Qc) : bool := Qle_bool (this a) (this b).
Definition Qc_ltb (a b : Qc) : bool := negb (Qle_bool (this b) (this a)).

Definition ofZ (z : Z) : num := Fin (Qc_of_Z z).

(** Sign of a number, as needed by the multiplication table. *)
Inductive sign : Type := Neg | Zero | Pos.

Definition Qc_sign (q : Qc) : sign :=
  if Qc_eqb q 0%Qc then Zero else if Qc_ltb q 0%Qc then Neg else Pos.

Definition inf_of (s : sign) : num :=
  match s with Neg => NInf | Zero => NaN | Pos => PInf end.

Definition sign_mul (a b : sign) : sign :=
  match a, b with
  | Zero, _ | _, Zero => Zero
  | Pos, s | s, Pos => s
  | Neg, Neg => Pos
  end.

Definition num_sign (n : num) : option sign :=
  match n with
  | NaN => None
  | PInf => Some Pos
  | NInf => Some Neg
  | Fin q => Some (Qc_sign q)
  end.

(** [a + b] on numbers. *)
Definition add (a b : num) : num :=
  match a, b with
  | NaN, _ | _, NaN => NaN
  | PInf, NInf | NInf, PInf => NaN
  | PInf, _ | _, PInf => PInf
  | NInf, _ | _, NInf => NInf
  | Fin x, Fin y => Fin (x + y)%Qc
  end.

(** [a * b] on numbers. *)
Definition mul (a b : num) : num :=
  match a, b with
  | Fin x, Fin y => Fin (x * y)%Qc
  | _, _ =>
      match num_sign a, num_sign b with
      | Some s, Some t => inf_of (sign_mul s t)
      | _, _ => NaN
      end
  end.

(** [-a], [a - b] and [Math.abs(a)]. *)
Definition opp (a : num) : num :=
  match a with
  | NaN => NaN
  | PInf => NInf
  | NInf => PInf
  | Fin x => Fin (- x)%Qc
  end.

Definition sub (a b : num) : num := add a (opp b).

Definition abs (a : num) : num :=
  match a with
  | NaN => NaN
  | PInf | NInf => PInf
  | Fin x => Fin (if Qc_leb 0%Qc x then x else (- x)%Qc)
  end.

(** [a <= b]; any comparison with [NaN] is false. *)
Definition leb (a b : num) : bool :=
  match a, b with
  | NaN, _ | _, NaN => false
  | NInf, _ | _, PInf => true
  | PInf, _ | _, NInf => false
  | Fin x, Fin y => Qc_leb x y
  end.

(** [a >= b]. *)
Definition geb (a b : num) : bool := leb b a.

(** [a < b]. *)
Definition ltb (a b : num) : bool :=
  match a, b with
  | NaN, _ | _, NaN => false
  | _, _ => negb (leb b a)
  end.

(** [Math.max(a, b)]: [NaN] as soon as one argument is. *)
Definition max (a b : num) : num :=
  match a, b with
  | NaN, _ | _, NaN => NaN
  | _, _ => if leb a b then b else a
  end.

(** [Math.min(a, b)]. *)
Definition min (a b : num) : num :=
  match a, b with
  | NaN, _ | _, NaN => NaN
  | _, _ => if leb a b then a else b
  end.

Definition isNaN (n : num) : bool :=
  match n with NaN => true | _ => false end.

Definition isFinite (n : num) : bool :=
  match n with Fin _ => true | _ => false end.

(** [Number.isInteger]. *)
Definition isInteger (n : num) : bool :=
  match n with
  | Fin q => Pos.eqb (Qden (this q)) 1
  | _ => false
  end.

(** Truthiness of a number: neither zero nor [NaN]. *)
Definition num_truthy (n : num) : bool :=
  match n with
  | NaN => false
  | Fin q => negb (Qc_eqb q 0%Qc)
  | _ => true
  end.

Definition num_eqb (a b : num) : bool :=
  match a, b with
  | PInf, PInf | NInf, NInf => true
  | Fin x, Fin y => Qc_eqb x y
  | _, _ => false
  end.

(** Untyped values as they arrive in a socket.io payload.  [JObject]
    stands for any object or array; its contents are never inspected
    through this constructor. *)
Inductive jsval : Type :=
| JUndefined
| JNull
| JBool (b : bool)
| JNum (n : num)
| JStr (s : string)
| JObject.

(** [!!v]. *)
Definition truthy (v : jsval) : bool :=
  match v with
  | JUndefined | JNull => false
  | JBool b => b
  | JNum n => num_truthy n
  | JStr s => negb (String.eqb s "")
  | JObject => true
  end.

(** [a === b] for the shapes above; two objects are never identified. *)
Definition strict_eq (a b : jsval) : bool :=
  match a, b with
  | JUndefined, JUndefined | JNull, JNull => true
  | JBool x, JBool y => Bool.eqb x y
  | JNum x, JNum y => num_eqb x y
  | JStr x, JStr y => String.eqb x y
  | _, _ => false
  end.

(** [x || d] where [x] is a number or absent and [d] a number. *)
Definition num_or (x : option num) (d : num) : num :=
  match x with
  | Some n => if num_truthy n then n else d
  | None => d
  end.

(** ToNumber of a value that is a number or [undefined]. *)
Definition to_number (x : option num) : num :=
  match x with Some n => n | None => NaN end.

End JS.

Import JS.

(** ** Clock: the authoritative playback state *)

(** [videoState] as the [Room] constructor and the legacy global declare it.
    [currentTime] and [playbackRate] are a number or [undefined] ([None]). *)
Record videoState : Type := mkVideoState {
  isPlaying : jsval;
  currentTime : option num;
  lastUpdate : Z;
  audioTrack : jsval;
  subtitleTrack : jsval;
  playbackRate : option num
}.

(** [(now - lastUpdate) / 1000]: elapsed seconds. *)
Definition elapsed_seconds (now last : Z) : Qc :=
  (Qc_of_Z (now - last) / Qc_of_Z 1000)%Qc.

(** [consolidateTime(state)], run at instant [now]. *)
Definition consolidateTime (now : Z) (state : videoState) : videoState :=
  if truthy (isPlaying state) then
    let last := if Z.ltb now (lastUpdate state) then now else lastUpdate state in
    let elapsed := elapsed_seconds now last in
    let time :=
      if Qc_ltb 0%Qc elapsed then
        Some (add (to_number (currentTime state))
                  (mul (Fin elapsed) (num_or (playbackRate state) (ofZ 1))))
      else currentTime state in
    mkVideoState (isPlaying state) time now
                 (audioTrack state) (subtitleTrack state) (playbackRate state)
  else
    mkVideoState (isPlaying state) (currentTime state) now
                 (audioTrack state) (subtitleTrack state) (playbackRate state).

(** The body the 5 s [syncInterval] runs on one state: the same lines for a
    room in server mode and for the global state in legacy mode. *)
Definition tickState (now : Z) (state : videoState) : videoState :=
  if truthy (isPlaying state) then
    let elapsed := elapsed_seconds now (lastUpdate state) in
    mkVideoState (isPlaying state)
                 (Some (add (to_number (currentTime state)) (Fin elapsed)))
                 now
                 (audioTrack state) (subtitleTrack state) (playbackRate state)
  else state.

(** The initial [videoState] of a room created at [now], which is also the
    legacy global's initial value when the process boots at [now]. *)
Definition initialVideoState (now : Z) : videoState :=
  mkVideoState (JBool true) (Some (ofZ 0)) now
               (JNum (ofZ 0)) (JNum (ofZ (-1))) (Some (ofZ 1)).

(** ** Data model of the server process *)

(** Configuration constants read once at start-up from [config.env]. *)
Record config : Type := mkConfig {
  SERVER_MODE : bool;
  VIDEO_AUTOPLAY : bool;
  ADMIN_FINGERPRINT_LOCK : bool;
  CLIENT_CONTROLS_DISABLED : bool;
  CLIENT_SYNC_DISABLED : bool;
  SKIP_SECONDS : Z;
  BSL_S2_MODE : string;
  BSL_ADVANCED_MATCH : bool;
  BSL_ADVANCED_MATCH_THRESHOLD : nat
}.

(** One audio or subtitle track as the metadata adapter reports it. *)
Record track : Type := mkTrack {
  t_index : Z;
  t_language : string;
  t_title : string;
  t_isExternal : bool
}.

Record trackList : Type := mkTrackList {
  audio : list track;
  subtitles : list track
}.

Definition noTracks : trackList := mkTrackList [] [].

(** A playlist item as the admin sends it.  Only the fields the server
    reads are kept; the others ride along in the spread copy untouched. *)
Record item : Type := mkItem {
  i_filename : string;
  i_isExternal : jsval;
  i_selectedAudioTrack : jsval;
  i_selectedSubtitleTrack : jsval
}.

(** A stored playlist entry ([videoInfo] in [set-playlist]). *)
Record video : Type := mkVideo {
  filename : string;
  isExternal : jsval;
  tracks : trackList;
  selectedAudioTrack : jsval;
  selectedSubtitleTrack : jsval;
  usesHEVC : bool
}.

(** [currentIndex] and [mainVideoIndex] are untyped: [playlist-next] and
    [set-playlist] store what the payload carries. *)
Record playlist : Type := mkPlaylist {
  videos : list video;
  currentIndex : jsval;
  mainVideoIndex : jsval;
  mainVideoStartTime : option num;
  preloadMainVideo : bool
}.

Definition emptyPlaylist : playlist :=
  mkPlaylist [] (JNum (ofZ (-1))) (JNum (ofZ (-1))) (Some (ofZ 0)) false.

(** A file a viewer reports from its local folder. *)
Record clientFile : Type := mkClientFile {
  cf_name : string;
  cf_size : option num;
  cf_type : option string
}.

(** Per-connection BSL status; [matchedVideos] is the object
    [{playlistIndex: clientFileName}]. *)
Record bslStatus : Type := mkBslStatus {
  clientId : string;
  clientName : string;
  folderSelected : bool;
  files : list clientFile;
  matchedVideos : gmap Z string
}.

(** An entry of [room.clients] ([{fingerprint, name, connectedAt}]) or of
    the legacy [connectedClients] ([{fingerprint, connectedAt}], where
    [name] is left empty). *)
Record clientInfo : Type := mkClientInfo {
  fingerprint : jsval;
  name : string;
  connectedAt : Z
}.

(** JavaScript [Map]s that the server iterates are association lists in
    insertion order; [Map.set] overwrites in place or appends. *)
Fixpoint map_set {V : Type} (k : string) (v : V) (m : list (string * V))
  : list (string * V) :=
  match m with
  | [] => [(k, v)]
  | (k', v') :: rest =>
      if String.eqb k' k then (k, v) :: rest else (k', v') :: map_set k v rest
  end.

Fixpoint map_get {V : Type} (k : string) (m : list (string * V)) : option V :=
  match m with
  | [] => None
  | (k', v) :: rest => if String.eqb k' k then Some v else map_get k rest
  end.

(** [class Room]. *)
Record Room : Type := mkRoom {
  code : string;
  roomName : string;
  isPrivate : bool;
  createdAt : Z;
  adminFingerprint : jsval;
  adminSocketId : option string;
  clients : list (string * clientInfo);
  r_playlist : playlist;
  r_videoState : videoState;
  r_clientBslStatus : list (string * bslStatus);
  r_clientDriftValues : gmap string (gmap string num)
}.

(** [new Room(code, name, isPrivate, adminFingerprint)] at instant [now]. *)
Definition newRoom (now : Z) (c n : string) (priv : bool) (fp : jsval) : Room :=
  mkRoom c n priv now fp None [] emptyPlaylist (initialVideoState now) [] ∅.

(** The module-level mutable state of the process. *)
Record server : Type := mkServer {
  rooms : gmap string Room;
  socketRoomMap : gmap string string;
  PLAYLIST : playlist;
  g_videoState : videoState;
  g_clientBslStatus : list (string * bslStatus);
  g_adminSocketId : option string;
  verifiedAdminSockets : gset string;
  connectedClients : list (string * clientInfo);
  g_clientDriftValues : gmap string (gmap string num);
  clientDisplayNames : gmap string string;
  persistentBslMatches : gmap string (gmap string string);
  registeredAdminFingerprint : option string
}.

(** The state right after the module has been loaded at [now], with an
    empty memory file. *)
Definition bootServer (now : Z) : server :=
  mkServer ∅ ∅ emptyPlaylist (initialVideoState now) [] None ∅ [] ∅ ∅ ∅ None.

(** ** String helpers

    JavaScript strings are modelled by byte strings; case mapping is the
    ASCII one. *)

Module Str.

Definition lower_ascii (c : ascii) : ascii :=
  let n := nat_of_ascii c in
  if (Nat.leb 65 n && Nat.leb n 90)%bool then ascii_of_nat (n + 32) else c.

Definition upper_ascii (c : ascii) : ascii :=
  let n := nat_of_ascii c in
  if (Nat.leb 97 n && Nat.leb n 122)%bool then ascii_of_nat (n - 32) else c.

Fixpoint map_chars (f : ascii -> ascii) (s : string) : string :=
  match s with
  | EmptyString => EmptyString
  | String c rest => String (f c) (map_chars f rest)
  end.

(** [s.toLowerCase()] and [s.toUpperCase()], as they act on ASCII
    characters: the letters [A-Z] and [a-z] are exchanged and every other
    character is kept.  Outside ASCII the JavaScript maps do more (the
    Kelvin sign lower-cases to [k], a final sigma depends on its
    position), so statements about letter case are made for ASCII
    strings. *)
Definition toLowerCase : string -> string := map_chars lower_ascii.
Definition toUpperCase : string -> string := map_chars upper_ascii.

(** [s.substring(s.lastIndexOf('.'))]: the suffix from the last dot on,
    or all of [s] when it has no dot ([substring(-1)] is [substring(0)]). *)
Fixpoint from_last_dot_aux (s : string) : option string :=
  match s with
  | EmptyString => None
  | String c rest =>
      match from_last_dot_aux rest with
      | Some suffix => Some suffix
      | None => if Ascii.eqb c "."%char then Some s else None
      end
  end.

Definition from_last_dot (s : string) : string :=
  match from_last_dot_aux s with Some suffix => suffix | None => s end.

(** [s.split('/')[0]]. *)
Fixpoint before_slash (s : string) : string :=
  match s with
  | EmptyString => EmptyString
  | String c rest =>
      if Ascii.eqb c "/"%char then EmptyString else String c (before_slash rest)
  end.

(** [s.startsWith(p)]. *)
Definition startsWith (s p : string) : bool := String.prefix p s.

(** [s.endsWith(p)]. *)
Definition endsWith (s p : string) : bool :=
  let ls := String.length s in
  let lp := String.length p in
  (Nat.leb lp ls && String.eqb (String.substring (ls - lp) lp s) p)%bool.

(** [s.slice(-n)]: the last [n] characters. *)
Definition slice_last (n : nat) (s : string) : string :=
  let ls := String.length s in
  String.substring (ls - n) (Nat.min n ls) s.

End Str.

(** ** Emissions *)

(** Who an emission goes to: [socket.emit] or an acknowledgement callback
    (the sender), [io.to(x).emit] (the socket.io room [x], which is a room
    code or the private room of the socket with id [x]), [io.emit]. *)
Inductive target : Type :=
| ToSender
| To (room : string)
| ToAll.

(** One row of [clients] in [bsl-status-update]. *)
Record clientStatusRow : Type := mkClientStatusRow {
  row_socketId : string;
  row_clientId : string;
  row_clientName : string;
  row_folderSelected : bool;
  row_files : list clientFile;
  row_matchedVideos : gmap Z string;
  row_driftValues : gmap string num
}.

(** One entry of [videoBslStatus] in [bsl-status-update]. *)
Record videoBslRow : Type := mkVideoBslRow {
  bslActive : bool;
  clientsWithMatch : nat;
  clientsWithoutMatch : nat;
  totalChecked : nat
}.

Record publicRoom : Type := mkPublicRoom {
  pr_code : string;
  pr_name : string;
  pr_viewers : nat;
  pr_createdAt : Z
}.

Inductive payload : Type :=
| PSync (state : videoState)
| PPlaylist (p : playlist)
| PAdminError (event : string) (message : string)
| PRateLimitError
| PControlRejected
| PPlaylistSet (success : bool) (message : string)
| PDriftUpdate (driftValues : gmap string num)
| PMatchResult (matched : gmap Z string) (totalMatched totalPlaylist : nat)
| PBslStatus (mode : string) (rows : list clientStatusRow)
             (videoBslStatus : list videoBslRow)
| PRoomCreated (roomCode : string) (name : string)
| PRoomsUpdated (rs : list publicRoom).

Record emission : Type := mkEmission {
  e_target : target;
  e_event : string;
  e_payload : payload
}.

(** ** Rooms manager *)

(** [getRoom(code)]: the lookup is by the upper-cased code. *)
Definition getRoom (st : server) (c : string) : option Room :=
  rooms st !! Str.toUpperCase c.

Definition set_rooms (st : server) (rs : gmap string Room) : server :=
  mkServer rs (socketRoomMap st) (PLAYLIST st) (g_videoState st)
           (g_clientBslStatus st) (g_adminSocketId st) (verifiedAdminSockets st)
           (connectedClients st) (g_clientDriftValues st) (clientDisplayNames st)
           (persistentBslMatches st) (registeredAdminFingerprint st).

Definition set_socketRoomMap (st : server) (m : gmap string string) : server :=
  mkServer (rooms st) m (PLAYLIST st) (g_videoState st)
           (g_clientBslStatus st) (g_adminSocketId st) (verifiedAdminSockets st)
           (connectedClients st) (g_clientDriftValues st) (clientDisplayNames st)
           (persistentBslMatches st) (registeredAdminFingerprint st).

Definition set_PLAYLIST (st : server) (p : playlist) : server :=
  mkServer (rooms st) (socketRoomMap st) p (g_videoState st)
           (g_clientBslStatus st) (g_adminSocketId st) (verifiedAdminSockets st)
           (connectedClients st) (g_clientDriftValues st) (clientDisplayNames st)
           (persistentBslMatches st) (registeredAdminFingerprint st).

Definition set_videoState (st : server) (v : videoState) : server :=
  mkServer (rooms st) (socketRoomMap st) (PLAYLIST st) v
           (g_clientBslStatus st) (g_adminSocketId st) (verifiedAdminSockets st)
           (connectedClients st) (g_clientDriftValues st) (clientDisplayNames st)
           (persistentBslMatches st) (registeredAdminFingerprint st).

Definition set_clientBslStatus (st : server) (m : list (string * bslStatus)) : server :=
  mkServer (rooms st) (socketRoomMap st) (PLAYLIST st) (g_videoState st)
           m (g_adminSocketId st) (verifiedAdminSockets st)
           (connectedClients st) (g_clientDriftValues st) (clientDisplayNames st)
           (persistentBslMatches st) (registeredAdminFingerprint st).

Definition set_clientDriftValues (st : server) (d : gmap string (gmap string num)) : server :=
  mkServer (rooms st) (socketRoomMap st) (PLAYLIST st) (g_videoState st)
           (g_clientBslStatus st) (g_adminSocketId st) (verifiedAdminSockets st)
           (connectedClients st) d (clientDisplayNames st)
           (persistentBslMatches st) (registeredAdminFingerprint st).

Definition set_persistentBslMatches (st : server) (m : gmap string (gmap string string)) : server :=
  mkServer (rooms st) (socketRoomMap st) (PLAYLIST st) (g_videoState st)
           (g_clientBslStatus st) (g_adminSocketId st) (verifiedAdminSockets st)
           (connectedClients st) (g_clientDriftValues st) (clientDisplayNames st)
           m (registeredAdminFingerprint st).

Definition room_set_videoState (r : Room) (v : videoState) : Room :=
  mkRoom (code r) (roomName r) (isPrivate r) (createdAt r) (adminFingerprint r)
         (adminSocketId r) (clients r) (r_playlist r) v
         (r_clientBslStatus r) (r_clientDriftValues r).

Definition room_set_playlist (r : Room) (p : playlist) : Room :=
  mkRoom (code r) (roomName r) (isPrivate r) (createdAt r) (adminFingerprint r)
         (adminSocketId r) (clients r) p (r_videoState r)
         (r_clientBslStatus r) (r_clientDriftValues r).

Definition room_set_clientBslStatus (r : Room) (m : list (string * bslStatus)) : Room :=
  mkRoom (code r) (roomName r) (isPrivate r) (createdAt r) (adminFingerprint r)
         (adminSocketId r) (clients r) (r_playlist r) (r_videoState r)
         m (r_clientDriftValues r).

Definition room_set_clientDriftValues (r : Room) (d : gmap string (gmap string num)) : Room :=
  mkRoom (code r) (roomName r) (isPrivate r) (createdAt r) (adminFingerprint r)
         (adminSocketId r) (clients r) (r_playlist r) (r_videoState r)
         (r_clientBslStatus r) d.

Definition room_set_admin (r : Room) (sid : string) (cs : list (string * clientInfo)) : Room :=
  mkRoom (code r) (roomName r) (isPrivate r) (createdAt r) (adminFingerprint r)
         (Some sid) cs (r_playlist r) (r_videoState r)
         (r_clientBslStatus r) (r_clientDriftValues r).

(** A room is mutated in place: [r] replaces the object that
    [getRoom(roomCode)] returned. *)
Definition update_room (st : server) (roomCode : string) (r : Room) : server :=
  set_rooms st (<[Str.toUpperCase roomCode := r]> (rooms st)).

(** [getPublicRooms()]. *)
Definition getPublicRooms (st : server) : list publicRoom :=
  omap (fun kr : string * Room =>
          let r := snd kr in
          if isPrivate r then None
          else Some (mkPublicRoom (code r) (roomName r) (length (clients r)) (createdAt r)))
       (map_to_list (rooms st)).

(** [createRoom(name, isPrivate, adminFingerprint)], where [c] is the code
    [generateRoomCode()] drew: six characters, not yet in [rooms]. *)
Definition createRoom (now : Z) (c n : string) (priv : bool) (fp : jsval)
    (st : server) : Room * server :=
  let r := newRoom now c n priv fp in
  (r, set_rooms st (<[c := r]> (rooms st))).

(** ** Input validation helpers *)

Module Validate.

Definition is_digit (c : ascii) : bool :=
  let n := nat_of_ascii c in (Nat.leb 48 n && Nat.leb n 57)%bool.

Definition digit_val (c : ascii) : Z := Z.of_nat (nat_of_ascii c) - 48.

(** Value of the longest prefix of decimal digits read after [acc], and
    whether at least one digit was read. *)
Fixpoint digits (s : string) (acc : Z) (seen : bool) : Z * bool :=
  match s with
  | String c rest =>
      if is_digit c then digits rest (acc * 10 + digit_val c) true
      else (acc, seen)
  | EmptyString => (acc, seen)
  end.

Fixpoint all_digits (s : string) : bool :=
  match s with
  | EmptyString => true
  | String c rest => (is_digit c && all_digits rest)%bool
  end.

(** The regular expression [/^-?\d+$/]. *)
Definition integer_literal (s : string) : bool :=
  match s with
  | String "-"%char rest => (negb (String.eqb rest "") && all_digits rest)%bool
  | _ => (negb (String.eqb s "") && all_digits s)%bool
  end.

(** Leading white space that [parseInt] skips (the ASCII part of it). *)
Definition is_space (c : ascii) : bool :=
  let n := nat_of_ascii c in
  ((Nat.leb 9 n && Nat.leb n 13) || Nat.eqb n 32)%bool.

Fixpoint skip_spaces (s : string) : string :=
  match s with
  | String c rest => if is_space c then skip_spaces rest else s
  | EmptyString => EmptyString
  end.

Definition hex_val (c : ascii) : option Z :=
  let n := nat_of_ascii c in
  if (Nat.leb 48 n && Nat.leb n 57)%bool then Some (Z.of_nat n - 48)
  else if (Nat.leb 97 n && Nat.leb n 102)%bool then Some (Z.of_nat n - 87)
  else if (Nat.leb 65 n && Nat.leb n 70)%bool then Some (Z.of_nat n - 55)
  else None.

Fixpoint hex_digits (s : string) (acc : Z) (seen : bool) : Z * bool :=
  match s with
  | String c rest =>
      match hex_val c with
      | Some d => hex_digits rest (acc * 16 + d) true
      | None => (acc, seen)
      end
  | EmptyString => (acc, seen)
  end.

(** Split an optional sign off the front. *)
Definition split_sign (s : string) : bool * string :=
  match s with
  | String "-"%char rest => (true, rest)
  | String "+"%char rest => (false, rest)
  | _ => (false, s)
  end.

Definition signed (negative : bool) (r : Z * bool) : num :=
  if snd r then ofZ (if negative then - fst r else fst r) else NaN.

(** [parseInt(s, 10)] on a string. *)
Definition parseInt10 (s : string) : num :=
  let '(negative, body) := split_sign (skip_spaces s) in
  signed negative (digits body 0 false).

(** What follows a leading [0x] or [0X], if there is one. *)
Definition hex_prefix (s : string) : option string :=
  match s with
  | String a (String b rest) =>
      if (Ascii.eqb a "0" && (Ascii.eqb b "x" || Ascii.eqb b "X"))%bool
      then Some rest else None
  | _ => None
  end.

(** [parseInt(s)] on a string: radix 16 after a [0x] or [0X] prefix,
    radix 10 otherwise. *)
Definition parseIntAuto (s : string) : num :=
  let '(negative, body) := split_sign (skip_spaces s) in
  match hex_prefix body with
  | Some rest => signed negative (hex_digits rest 0 false)
  | None => signed negative (digits body 0 false)
  end.

(** First significant decimal digit of a positive rational below one. *)
Fixpoint lead_digit (fuel : nat) (q : Q) : Z :=
  match fuel with
  | O => 0
  | S fuel' =>
      if Qle_bool 1 q then Qfloor q else lead_digit fuel' (q * 10)%Q
  end.

(** First decimal digit of a positive integer. *)
Fixpoint first_digit (fuel : nat) (z : Z) : Z :=
  match fuel with
  | O => z
  | S fuel' => if Z.ltb z 10 then z else first_digit fuel' (z / 10)
  end.

(** [parseInt(n)] on a finite number: the number is printed first.
    From [1e-6] up to [1e21] (in absolute value) the print is plain
    decimal and the result is the integer part; outside, the print is in
    exponent notation and [parseInt] stops after its first digit. *)
Definition parseIntNum (n : num) : num :=
  match n with
  | Fin q =>
      let a := Qabs (this q) in
      let negative := negb (Qle_bool 0 (this q)) in
      let d :=
        if Qeq_bool a 0 then 0
        else if Qle_bool (inject_Z (10 ^ 21)) a then
          first_digit (Z.to_nat (Z.log2 (Qfloor a))) (Qfloor a)
        else if Qle_bool (1 # 1000000) a then Qfloor a
        else lead_digit (S (Pos.size_nat (Qden a))) (a * 10)%Q in
      ofZ (if negative then - d else d)
  | _ => NaN
  end.

(** [parseInt(v)] on a value: [undefined], [null], a boolean and a plain
    object print as text without a leading digit and parse to [NaN]. *)
Definition parseIntVal (v : jsval) : num :=
  match v with
  | JNum n => parseIntNum n
  | JStr s => parseIntAuto s
  | _ => NaN
  end.

Fixpoint strip_zeros (rev_digits : list ascii) : list ascii :=
  match rev_digits with
  | c :: rest => if Ascii.eqb c "0"%char then strip_zeros rest else rev_digits
  | [] => []
  end.

(** The property key a non-negative integer number turns into: plain
    decimal below [1e21], exponent notation from there on. *)
Definition printIndex (z : Z) : string :=
  let s := pretty z in
  if Z.ltb z (10 ^ 21) then s
  else
    match s with
    | String d rest =>
        let frac := string_of_list_ascii
                      (rev (strip_zeros (rev (list_ascii_of_string rest)))) in
        String d (if String.eqb frac "" then "" else "." ++ frac)
        ++ "e+" ++ pretty (Z.of_nat (String.length rest))
    | EmptyString => s
    end.

(** [isValidInteger(val)]. *)
Definition isValidInteger (v : jsval) : bool :=
  match v with
  | JNum n => isInteger n
  | JStr s => integer_literal s
  | _ => false
  end.

(** [isValidNumber(val)]. *)
Definition isValidNumber (v : jsval) : bool :=
  match v with
  | JNum n => (negb (isNaN n) && isFinite n)%bool
  | _ => false
  end.

(** [typeof val === 'string' ? parseInt(val, 10) : val]. *)
Definition parsed (v : jsval) : jsval :=
  match v with
  | JStr s => JNum (parseInt10 s)
  | _ => v
  end.

(** [isInRange(val, min, max)]. *)
Definition isInRange (v : jsval) (lo hi : Z) : bool :=
  match parsed v with
  | JNum n as p => (isValidNumber p && geb n (ofZ lo) && leb n (ofZ hi))%bool
  | _ => false
  end.

(** [validateTrackIndex(index)]. *)
Definition validateTrackIndex (v : jsval) : bool :=
  if isValidInteger v then
    match parsed v with
    | JNum n => geb n (ofZ (-1))
    | _ => false
    end
  else false.

(** [validateCurrentTime(time)]. *)
Definition validateCurrentTime (v : jsval) : bool :=
  match v with
  | JNum n => (isValidNumber v && geb n (ofZ 0))%bool
  | _ => false
  end.

(** [validateDriftSeconds(drift)]. *)
Definition validateDriftSeconds (v : jsval) : bool := isInRange v (-60) 60.

End Validate.

(** ** Socket middleware *)

(** [ADMIN_ONLY_EVENTS]. *)
Definition ADMIN_ONLY_EVENTS : list string :=
  [ "set-playlist"; "playlist-reorder"; "playlist-jump"; "track-change";
    "skip-to-next-video"; "bsl-admin-register"; "bsl-check-request";
    "bsl-get-status"; "bsl-manual-match"; "bsl-set-drift"; "set-client-name";
    "get-client-list"; "set-client-display-name"; "delete-room";
    "create-room" ]%string.

(** [list.includes(name)]. *)
Definition includes (l : list string) (x : string) : bool :=
  existsb (String.eqb x) l.

(** [a === b] on an optional socket id and a socket id. *)
Definition is_socket (a : option string) (sid : string) : bool :=
  match a with Some x => String.eqb x sid | None => false end.

(** [socketRoomMap.get(id)] followed by the [if (!roomCode) return] guard:
    an empty code counts as absent. *)
Definition roomCodeOf (st : server) (sid : string) : option string :=
  match socketRoomMap st !! sid with
  | Some c => if String.eqb c "" then None else Some c
  | None => None
  end.

(** [isSocketAdmin(socketId)]. *)
Definition isSocketAdmin (cfg : config) (st : server) (sid : string) : bool :=
  if SERVER_MODE cfg then
    match roomCodeOf st sid with
    | None => false
    | Some c =>
        match getRoom st c with
        | None => false
        | Some room => is_socket (adminSocketId room) sid
        end
    end
  else if negb (ADMIN_FINGERPRINT_LOCK cfg) then true
  else bool_decide (sid ∈ verifiedAdminSockets st).

(** A middleware either lets the packet through or blocks it, emitting
    something to the sender. *)
Inductive verdict : Type :=
| Next
| Block (out : list emission).

(** The rate-limiting middleware.  [exhausted] tells whether
    [socketRateLimiter.consume(clientIp)] rejects; the limiter's own
    counters belong to the library and are not part of [server]. *)
Definition rateLimitMiddleware (isLocalhostSocket exhausted : bool) : verdict :=
  if isLocalhostSocket then Next
  else if exhausted then
    Block [mkEmission ToSender "rate-limit-error" PRateLimitError]
  else Next.

(** The admin authorisation middleware. *)
Definition authMiddleware (cfg : config) (st : server) (sid eventName : string)
  : verdict :=
  if includes ADMIN_ONLY_EVENTS eventName then
    if (String.eqb eventName "create-room"
        || String.eqb eventName "bsl-admin-register")%bool then Next
    else if negb (isSocketAdmin cfg st sid) then
      Block [mkEmission ToSender "admin-error"
               (PAdminError eventName "Unauthorized: Admin access required")]
    else Next
  else Next.

(** What a registered listener does with the state. *)
Definition handler : Type := server -> server * list emission.

(** An inbound packet runs through the two middlewares in registration
    order and reaches its listener only if both call [next()]. *)
Definition receive (cfg : config) (isLocalhostSocket exhausted : bool)
    (sid eventName : string) (h : handler) (st : server)
  : server * list emission :=
  match rateLimitMiddleware isLocalhostSocket exhausted with
  | Block out => (st, out)
  | Next =>
      match authMiddleware cfg st sid eventName with
      | Block out => (st, out)
      | Next => h st
      end
  end.

(** ** The [control] listener *)

(** The fields of a [control] payload the server reads. *)
Record controlData : Type := mkControlData {
  action : jsval;
  c_state : jsval;
  c_direction : jsval;
  c_seconds : option num;
  c_time : jsval;
  c_type : jsval;
  c_trackIndex : jsval;
  c_rate : option num;
  c_isPlaying : jsval;
  c_currentTime : jsval
}.

(** The number a validated time field holds; [undefined] stays absent. *)
Definition as_num (v : jsval) : option num :=
  match v with JNum n => Some n | _ => None end.

Definition is_action (d : controlData) (a : string) : bool :=
  strict_eq (action d) (JStr a).

(** The branch on [data.action] that both modes share line for line: the
    new state when something is broadcast, [None] when the action is a
    truthy value the handler does not know. *)
Definition applyControl (cfg : config) (now : Z) (d : controlData)
    (vs : videoState) : option videoState :=
  if truthy (action d) then
    if is_action d "playpause" then
      let s := consolidateTime now vs in
      Some (mkVideoState (c_state d) (currentTime s) (lastUpdate s)
                         (audioTrack s) (subtitleTrack s) (playbackRate s))
    else if is_action d "skip" then
      let s := consolidateTime now vs in
      let direction :=
        if strict_eq (c_direction d) (JStr "forward") then ofZ 1 else ofZ (-1) in
      let t := max (ofZ 0)
                   (add (to_number (currentTime s))
                        (mul direction (num_or (c_seconds d) (ofZ (SKIP_SECONDS cfg))))) in
      Some (mkVideoState (isPlaying s) (Some t) (lastUpdate s)
                         (audioTrack s) (subtitleTrack s) (playbackRate s))
    else if is_action d "seek" then
      Some (mkVideoState (isPlaying vs) (as_num (c_time d)) now
                         (audioTrack vs) (subtitleTrack vs) (playbackRate vs))
    else if is_action d "selectTrack" then
      let s := consolidateTime now vs in
      if strict_eq (c_type d) (JStr "audio") then
        Some (mkVideoState (isPlaying s) (currentTime s) (lastUpdate s)
                           (c_trackIndex d) (subtitleTrack s) (playbackRate s))
      else if strict_eq (c_type d) (JStr "subtitle") then
        Some (mkVideoState (isPlaying s) (currentTime s) (lastUpdate s)
                           (audioTrack s) (c_trackIndex d) (playbackRate s))
      else Some s
    else if is_action d "rate" then
      let s := consolidateTime now vs in
      Some (mkVideoState (isPlaying s) (currentTime s) (lastUpdate s)
                         (audioTrack s) (subtitleTrack s) (c_rate d))
    else None
  else
    Some (mkVideoState (c_isPlaying d) (as_num (c_currentTime d)) now
                       (audioTrack vs) (subtitleTrack vs) (playbackRate vs)).

(** The three validation guards at the top of the listener. *)
Definition controlValid (d : controlData) : bool :=
  if (negb (strict_eq (c_currentTime d) JUndefined)
      && negb (Validate.validateCurrentTime (c_currentTime d)))%bool then false
  else if (is_action d "seek"
           && negb (Validate.validateCurrentTime (c_time d)))%bool then false
  else if (is_action d "selectTrack"
           && negb (Validate.validateTrackIndex (c_trackIndex d)))%bool then false
  else true.

(** [socket.on('control', data)]: [None] stands for a payload that is falsy
    or not an object. *)
Definition control (cfg : config) (now : Z) (sid : string)
    (data : option controlData) : handler := fun st =>
  match data with
  | None => (st, [])
  | Some d =>
      if negb (controlValid d) then (st, [])
      else if SERVER_MODE cfg then
        match roomCodeOf st sid with
        | None => (st, [])
        | Some roomCode =>
            match getRoom st roomCode with
            | None => (st, [])
            | Some room =>
                let isAdmin := is_socket (adminSocketId room) sid in
                if (CLIENT_CONTROLS_DISABLED cfg && negb isAdmin)%bool then (st, [])
                else
                  match applyControl cfg now d (r_videoState room) with
                  | None => (st, [])
                  | Some vs =>
                      (update_room st roomCode (room_set_videoState room vs),
                       [mkEmission (To roomCode) "sync" (PSync vs)])
                  end
            end
        end
      else
        let isLegacyAdmin := bool_decide (sid ∈ verifiedAdminSockets st) in
        if (CLIENT_CONTROLS_DISABLED cfg && negb isLegacyAdmin)%bool then
          (st, [mkEmission ToSender "control-rejected" PControlRejected])
        else if (CLIENT_SYNC_DISABLED cfg && negb (truthy (action d)))%bool then
          (st, [])
        else
          match applyControl cfg now d (g_videoState st) with
          | None => (st, [])
          | Some vs =>
              (set_videoState st vs, [mkEmission ToAll "sync" (PSync vs)])
          end
  end.

(** ** The background ticker *)

(** One firing of [syncInterval] at instant [now]; nothing is emitted. *)
Definition syncInterval (cfg : config) (now : Z) (st : server) : server * list emission :=
  if SERVER_MODE cfg then
    (set_rooms st ((fun r => room_set_videoState r (tickState now (r_videoState r)))
                     <$> rooms st), [])
  else
    (set_videoState st (tickState now (g_videoState st)), []).

(** ** Playlist listeners *)

Section Playlist.

Variable cfg : config.

(** [getTracksForFile(filename)]: the metadata adapter; [None] when the
    promise rejects. *)
Variable getTracksForFile : string -> option trackList.

Record playlistData : Type := mkPlaylistData {
  pd_playlist : list item;
  pd_mainVideoIndex : jsval;
  pd_startTime : option num
}.

(** One turn of the [for (const item of data.playlist)] loop. *)
Definition processItem (it : item) : video :=
  let ts :=
    if negb (truthy (i_isExternal it)) then
      match getTracksForFile (i_filename it) with
      | Some ts => ts
      | None => noTracks
      end
    else noTracks in
  mkVideo (i_filename it) (i_isExternal it) ts
          (i_selectedAudioTrack it) (i_selectedSubtitleTrack it)
          (Str.endsWith (i_filename it) ".mkv").

(** [v !== undefined ? v : d]. *)
Definition defined_or (v d : jsval) : jsval :=
  match v with JUndefined => d | _ => v end.

(** The assignments [set-playlist] makes to the target playlist and the
    target state. *)
Definition launch (now : Z) (data : playlistData) (vs : videoState)
  : playlist * videoState :=
  let processed := processItem <$> pd_playlist data in
  let p := mkPlaylist processed (JNum (ofZ 0)) (pd_mainVideoIndex data)
                      (pd_startTime data) true in
  let a := match processed with
           | first :: _ => defined_or (selectedAudioTrack first) (JNum (ofZ 0))
           | [] => audioTrack vs
           end in
  let s := match processed with
           | first :: _ => defined_or (selectedSubtitleTrack first) (JNum (ofZ (-1)))
           | [] => subtitleTrack vs
           end in
  (p, mkVideoState (JBool (VIDEO_AUTOPLAY cfg))
                   (Some (num_or (pd_startTime data) (ofZ 0))) now
                   a s (playbackRate vs)).

(** The two broadcasts of [set-playlist], to the room or to everyone. *)
Definition launchBroadcast (t : target) (p : playlist) (vs : videoState)
  : list emission :=
  [mkEmission t "playlist-update" (PPlaylist p);
   mkEmission t "sync" (PSync vs)].

Definition playlistSetOk : emission :=
  mkEmission ToSender "playlist-set"
    (PPlaylistSet true
       (if VIDEO_AUTOPLAY cfg then "Playlist launched - playing!"
        else "Playlist launched - paused (autoplay disabled)")).

(** [socket.on('set-playlist', data)].  The listener awaits the metadata
    adapter between items; it is modelled as one uninterrupted step. *)
Definition setPlaylist (now : Z) (sid : string) (data : playlistData)
  : handler := fun st =>
  if SERVER_MODE cfg then
    match roomCodeOf st sid with
    | None => (st, [])
    | Some roomCode =>
        match getRoom st roomCode with
        | None => (st, [])
        | Some room =>
            if negb (is_socket (adminSocketId room) sid) then
              (st, [mkEmission ToSender "playlist-set"
                      (PPlaylistSet false "Only admins can set the playlist")])
            else
              let '(p, vs) := launch now data (r_videoState room) in
              (update_room st roomCode
                 (room_set_videoState (room_set_playlist room p) vs),
               launchBroadcast (To roomCode) p vs ++ [playlistSetOk])
        end
    end
  else
    let '(p, vs) := launch now data (g_videoState st) in
    (set_videoState (set_PLAYLIST st p) vs,
     launchBroadcast ToAll p vs ++ [playlistSetOk]).

(** The [setTimeout(..., 500)] callback [set-playlist] arms when autoplay
    is off; [roomCode] is the room the listener ran for, if any. *)
Definition autoplayOffTimer (roomCode : option string) (st : server)
  : server * list emission :=
  if VIDEO_AUTOPLAY cfg then (st, [])
  else
    let pause vs := mkVideoState (JBool false) (currentTime vs) (lastUpdate vs)
                                 (audioTrack vs) (subtitleTrack vs) (playbackRate vs) in
    if SERVER_MODE cfg then
      match roomCode with
      | None => (st, [])
      | Some c =>
          match getRoom st c with
          | None => (st, [])
          | Some room =>
              let vs := pause (r_videoState room) in
              (update_room st c (room_set_videoState room vs),
               [mkEmission (To c) "sync" (PSync vs)])
          end
      end
    else
      let vs := pause (g_videoState st) in
      (set_videoState st vs, [mkEmission ToAll "sync" (PSync vs)]).

End Playlist.

(** ** Room listeners (server mode) *)

Record createRoomData : Type := mkCreateRoomData {
  cr_name : option string;
  cr_isPrivate : jsval;
  cr_fingerprint : jsval
}.

(** [name || 'Watch Party']. *)
Definition string_or (s : option string) (d : string) : string :=
  match s with
  | Some x => if String.eqb x "" then d else x
  | None => d
  end.

(** [socket.on('create-room', data, callback)], registered in server mode
    only; [c] is the code [generateRoomCode()] drew. *)
Definition createRoomListener (now : Z) (sid c : string) (data : createRoomData)
  : handler := fun st =>
  let '(room, st1) := createRoom now c (string_or (cr_name data) "Watch Party")
                                 (strict_eq (cr_isPrivate data) (JBool true))
                                 (cr_fingerprint data) st in
  let room' := room_set_admin room sid
                 (map_set sid (mkClientInfo (cr_fingerprint data) "Admin" now)
                          (clients room)) in
  let st2 := set_socketRoomMap (set_rooms st1 (<[c := room']> (rooms st1)))
                               (<[sid := code room']> (socketRoomMap st1)) in
  (st2, [mkEmission ToSender "create-room" (PRoomCreated (code room') (roomName room'));
         mkEmission ToAll "rooms-updated" (PRoomsUpdated (getPublicRooms st2))]).

(** ** HTTP: the CSRF helpers and the FFmpeg tool routes *)

Module Http.

(** [csrfTokens]: session id to token and expiry instant. *)
Record csrfEntry : Type := mkCsrfEntry {
  token : string;
  expires : Z
}.

Record job : Type := mkJob {
  id : Z;
  j_type : jsval;
  j_filename : jsval;
  status : string;
  progress : Z;
  startTime : Z;
  preset : jsval
}.

(** The state the HTTP routes below read and write. *)
Record state : Type := mkState {
  csrfTokens : gmap string csrfEntry;
  ffmpegJobCounter : Z;
  ffmpegJobs : list job
}.

(** What the routes read from a request: the method, the [sync_session]
    cookie, the [X-CSRF-Token] header and the fields of the JSON body. *)
Record request : Type := mkRequest {
  method : string;
  cookie_sync_session : option string;
  header_x_csrf_token : option string;
  body_csrf : option string;
  body_password : option string;
  body_type : jsval;
  body_filename : jsval;
  body_preset : jsval;
  body_jobId : jsval
}.

Inductive body : Type :=
| BError (message : string)
| BJobStarted (jobId : Z)
| BSuccess.

Record response : Type := mkResponse {
  code : nat;
  content : body
}.

(** A middleware answers or calls [next()]. *)
Inductive step : Type :=
| Continue
| Answer (r : response).

(** [x || y] on optional strings: the empty string is falsy. *)
Definition str_or (x y : option string) : option string :=
  match x with
  | Some s => if String.eqb s "" then y else x
  | None => y
  end.

Definition str_truthy (x : option string) : bool :=
  match x with
  | Some s => negb (String.eqb s "")
  | None => false
  end.

(** [validateCsrfToken(sessionId, token)] at instant [now]. *)
Definition validateCsrfToken (now : Z) (tokens : gmap string csrfEntry)
    (sessionId tok : string) : bool :=
  match tokens !! sessionId with
  | None => false
  | Some stored =>
      if Z.ltb (expires stored) now then false
      else String.eqb (token stored) tok
  end.

(** [csrfProtection(req, res, next)]. *)
Definition csrfProtection (now : Z) (tokens : gmap string csrfEntry)
    (req : request) : step :=
  if includes ["GET"; "HEAD"; "OPTIONS"]%string (method req) then Continue
  else
    let sessionId := cookie_sync_session req in
    let tok := str_or (header_x_csrf_token req) (body_csrf req) in
    match sessionId, tok with
    | Some sid, Some t =>
        if (str_truthy sessionId && str_truthy tok
            && validateCsrfToken now tokens sid t)%bool
        then Continue
        else Answer (mkResponse 403 (BError "CSRF token validation failed"))
    | _, _ => Answer (mkResponse 403 (BError "CSRF token validation failed"))
    end.

Section Routes.

(** [FFMPEG_TOOLS_PASSWORD_HASH]; the empty string when no password is
    configured. *)
Variable FFMPEG_TOOLS_PASSWORD_HASH : string.

(** [crypto.createHash('sha256').update(s).digest('hex')]. *)
Variable sha256 : string -> string.

(** [verifyFfmpegAuth(req, res, next)]. *)
Definition verifyFfmpegAuth (req : request) : step :=
  if String.eqb FFMPEG_TOOLS_PASSWORD_HASH "" then
    Answer (mkResponse 403 (BError "FFmpeg tools are disabled (no password set)"))
  else
    match body_password req with
    | None => Answer (mkResponse 401 (BError "Password required"))
    | Some password =>
        if String.eqb password "" then
          Answer (mkResponse 401 (BError "Password required"))
        else if negb (String.eqb (sha256 password) FFMPEG_TOOLS_PASSWORD_HASH) then
          Answer (mkResponse 401 (BError "Invalid password"))
        else Continue
    end.

(** The final callback of [app.post('/api/ffmpeg/run-preset', ...)]; the
    job itself starts asynchronously afterwards. *)
Definition runPresetHandler (now : Z) (req : request) (st : state)
  : state * response :=
  if negb (truthy (body_filename req)) then
    (st, mkResponse 400 (BError "Filename required"))
  else
    let n := ffmpegJobCounter st + 1 in
    let j := mkJob n (body_type req) (body_filename req) "pending" 0 now
                   (body_preset req) in
    (mkState (csrfTokens st) n (ffmpegJobs st ++ [j]),
     mkResponse 200 (BJobStarted n)).

(** [ffmpegJobs.find(j => j.id === parseInt(jobId))] followed by the
    update of the job found. *)
Fixpoint cancelFirst (n : num) (jobs : list job) : option (list job) :=
  match jobs with
  | [] => None
  | j :: rest =>
      if num_eqb (ofZ (id j)) n then
        if String.eqb (status j) "running" then
          Some (mkJob (id j) (j_type j) (j_filename j) "cancelled"
                      (progress j) (startTime j) (preset j) :: rest)
        else None
      else option_map (cons j) (cancelFirst n rest)
  end.

(** The final callback of [app.post('/api/ffmpeg/cancel', ...)]. *)
Definition cancelHandler (req : request) (st : state) : state * response :=
  match cancelFirst (Validate.parseIntVal (body_jobId req)) (ffmpegJobs st) with
  | Some jobs =>
      (mkState (csrfTokens st) (ffmpegJobCounter st) jobs,
       mkResponse 200 BSuccess)
  | None => (st, mkResponse 404 (BError "Job not found or not running"))
  end.

(** The middleware stack of the two routes as registered:
    [express.json(), verifyFfmpegAuth, callback].  No application-level
    middleware is mounted before them, and [csrfProtection] is not in
    the stack. *)
Definition postRunPreset (now : Z) (req : request) (st : state)
  : state * response :=
  match verifyFfmpegAuth req with
  | Answer r => (st, r)
  | Continue => runPresetHandler now req st
  end.

Definition postCancel (req : request) (st : state) : state * response :=
  match verifyFfmpegAuth req with
  | Answer r => (st, r)
  | Continue => cancelHandler req st
  end.

End Routes.

End Http.

(** ** BSL listeners *)

Section Bsl.

Variable cfg : config.

(** [fs.statSync(path.join(ROOT_DIR, 'media', filename)).size]; [None]
    when the call throws. *)
Variable serverFileSize : string -> option Z.

(** [1.5 * 1024 * 1024]. *)
Definition SIZE_TOLERANCE : Z := 1572864.

(** The own keys of [mimeMap]. *)
Definition mimeMap : list (string * string) :=
  [ (".mp4", "video/mp4"); (".mkv", "video/x-matroska"); (".webm", "video/webm");
    (".avi", "video/x-msvideo"); (".mov", "video/quicktime");
    (".wmv", "video/x-ms-wmv"); (".mp3", "audio/mpeg"); (".png", "image/png");
    (".jpg", "image/jpeg"); (".jpeg", "image/jpeg"); (".webp", "image/webp")
  ]%string.

(** [mimeMap[serverExt] || '']: a string, or [None] when the key names a
    member inherited from [Object.prototype], whose value is not a
    string.  [serverExt] is lower case, which leaves two such names. *)
Definition expectedMime (serverExt : string) : option string :=
  match map_get serverExt mimeMap with
  | Some m => Some m
  | None =>
      if (String.eqb serverExt "constructor"
          || String.eqb serverExt "__proto__")%bool then None
      else Some ""%string
  end.

(** Criterion 4; [None] when [expectedMime.split] is not a function and
    the listener throws. *)
Definition mimeCriterion (cf : clientFile) (serverExt : string) : option bool :=
  match cf_type cf with
  | Some t =>
      if negb (String.eqb t "") then
        match expectedMime serverExt with
        | Some m =>
            Some (String.eqb t m || Str.startsWith t (Str.before_slash m))%bool
        | None => None
        end
      else Some false
  | None => Some false
  end.

(** Criterion 3. *)
Definition sizeCriterion (cf : clientFile) (v : video) : bool :=
  match cf_size cf with
  | Some sz =>
      match serverFileSize (filename v) with
      | Some srv => leb (abs (sub sz (ofZ srv))) (ofZ SIZE_TOLERANCE)
      | None => false
      end
  | None => false
  end.

Definition nameCriterion (cf : clientFile) (v : video) : bool :=
  String.eqb (Str.toLowerCase (cf_name cf)) (Str.toLowerCase (filename v)).

Definition extCriterion (cf : clientFile) (v : video) : bool :=
  String.eqb (Str.toLowerCase (Str.from_last_dot (cf_name cf)))
             (Str.toLowerCase (Str.from_last_dot (filename v))).

Definition b2n (b : bool) : nat := if b then 1%nat else 0%nat.

(** [matchScore] after the four criteria. *)
Definition matchScore (cf : clientFile) (v : video) : option nat :=
  match mimeCriterion cf (Str.toLowerCase (Str.from_last_dot (filename v))) with
  | Some m =>
      Some (b2n (nameCriterion cf v) + b2n (extCriterion cf v)
            + b2n (sizeCriterion cf v) + b2n m)%nat
  | None => None
  end.

(** The persisted-match test at the top of the inner callback.  The
    lookup is by own key; the object also reads inherited members, none
    of which is a string unless [setBslMatch] has written to
    [Object.prototype]. *)
Definition persistedMatch (clientMatches : gmap string string)
    (cf : clientFile) (v : video) : bool :=
  match clientMatches !! Str.toLowerCase (cf_name cf) with
  | Some target => String.eqb target (Str.toLowerCase (filename v))
  | None => false
  end.

(** The body of the inner [forEach] callback for one client file and one
    playlist entry: whether [matchedVideos[index]] is assigned. *)
Definition matches (clientMatches : gmap string string)
    (cf : clientFile) (v : video) : option bool :=
  if persistedMatch clientMatches cf v then Some true
  else if BSL_ADVANCED_MATCH cfg then
    match matchScore cf v with
    | Some score => Some (Nat.leb (BSL_ADVANCED_MATCH_THRESHOLD cfg) score)
    | None => None
    end
  else Some (nameCriterion cf v).

(** [targetPlaylist.videos.forEach((playlistVideo, index) => ...)] for one
    client file, starting at [index]. *)
Fixpoint matchVideos (clientMatches : gmap string string) (cf : clientFile)
    (vs : list video) (index : Z) (acc : gmap Z string)
  : option (gmap Z string) :=
  match vs with
  | [] => Some acc
  | v :: rest =>
      match matches clientMatches cf v with
      | None => None
      | Some hit =>
          matchVideos clientMatches cf rest (index + 1)
                      (if hit then <[index := cf_name cf]> acc else acc)
      end
  end.

(** [data.files.forEach(clientFile => ...)]. *)
Fixpoint matchFiles (clientMatches : gmap string string)
    (fs : list clientFile) (vs : list video) (acc : gmap Z string)
  : option (gmap Z string) :=
  match fs with
  | [] => Some acc
  | cf :: rest =>
      match matchVideos clientMatches cf vs 0 acc with
      | None => None
      | Some acc' => matchFiles clientMatches rest vs acc'
      end
  end.

(** [clientDisplayNames[fingerprint] || fingerprint.slice(-4)]. *)
Definition displayNameOf (st : server) (fp : string) : string :=
  match clientDisplayNames st !! fp with
  | Some n => if String.eqb n "" then Str.slice_last 4 fp else n
  | None => Str.slice_last 4 fp
  end.

Definition statusRow (st : server) (drifts : gmap string (gmap string num))
    (entry : string * bslStatus) : clientStatusRow :=
  let status := snd entry in
  mkClientStatusRow (fst entry) (clientId status)
                    (displayNameOf st (clientId status))
                    (folderSelected status) (files status) (matchedVideos status)
                    (default ∅ (drifts !! clientId status)).

(** [status.matchedVideos[index]] is truthy. *)
Definition hasMatch (status : bslStatus) (index : Z) : bool :=
  match matchedVideos status !! index with
  | Some f => negb (String.eqb f "")
  | None => false
  end.

Definition videoRow (statuses : list (string * bslStatus)) (index : Z)
  : videoBslRow :=
  let withMatch :=
    length (List.filter (fun e => hasMatch (snd e) index) statuses) in
  let withoutMatch :=
    length (List.filter (fun e => (negb (hasMatch (snd e) index)
                                   && folderSelected (snd e))%bool) statuses) in
  let active :=
    if String.eqb (BSL_S2_MODE cfg) "all" then
      (Nat.ltb 0 (length statuses) && Nat.eqb withMatch (length statuses))%bool
    else Nat.ltb 0 withMatch in
  mkVideoBslRow active withMatch withoutMatch (withMatch + withoutMatch).

(** [sendBslStatusToAdmin(roomCode)]. *)
Definition sendBslStatusToAdmin (roomCode : option string) (st : server)
  : list emission :=
  let report admin statuses drifts (p : playlist) :=
    match admin with
    | None => []
    | Some a =>
        if String.eqb a "" then []
        else
          [mkEmission (To a) "bsl-status-update"
             (PBslStatus (BSL_S2_MODE cfg)
                (statusRow st drifts <$> statuses)
                (videoRow statuses <$> (Z.of_nat <$> seq 0 (length (videos p)))))]
    end in
  let legacy := report (g_adminSocketId st) (g_clientBslStatus st)
                       (g_clientDriftValues st) (PLAYLIST st) in
  if SERVER_MODE cfg then
    match roomCode with
    | Some c =>
        if String.eqb c "" then legacy
        else
          match getRoom st c with
          | None => []
          | Some room =>
              report (adminSocketId room) (r_clientBslStatus room)
                     (r_clientDriftValues room) (r_playlist room)
          end
    | None => legacy
    end
  else legacy.

(** The room-or-legacy target of a BSL listener. *)
Inductive scope : Type :=
| InRoom (roomCode : string) (room : Room)
| Legacy.

(** The target selection the BSL listeners open with; [adminOnly] is the
    extra [room.adminSocketId !== socket.id] guard some of them have. *)
Definition resolve (adminOnly : bool) (sid : string) (st : server)
  : option scope :=
  if SERVER_MODE cfg then
    match roomCodeOf st sid with
    | None => None
    | Some roomCode =>
        match getRoom st roomCode with
        | None => None
        | Some room =>
            if (adminOnly && negb (is_socket (adminSocketId room) sid))%bool
            then None
            else Some (InRoom roomCode room)
        end
    end
  else Some Legacy.

Definition scopePlaylist (st : server) (s : scope) : playlist :=
  match s with InRoom _ room => r_playlist room | Legacy => PLAYLIST st end.

Definition scopeBslStatus (st : server) (s : scope) : list (string * bslStatus) :=
  match s with
  | InRoom _ room => r_clientBslStatus room
  | Legacy => g_clientBslStatus st
  end.

Definition scopeDrifts (st : server) (s : scope) : gmap string (gmap string num) :=
  match s with
  | InRoom _ room => r_clientDriftValues room
  | Legacy => g_clientDriftValues st
  end.

Definition scopeCode (s : scope) : option string :=
  match s with InRoom c _ => Some c | Legacy => None end.

Definition putBslStatus (st : server) (s : scope)
    (m : list (string * bslStatus)) : server :=
  match s with
  | InRoom c room => update_room st c (room_set_clientBslStatus room m)
  | Legacy => set_clientBslStatus st m
  end.

Definition putDrifts (st : server) (s : scope)
    (d : gmap string (gmap string num)) : server :=
  match s with
  | InRoom c room => update_room st c (room_set_clientDriftValues room d)
  | Legacy => set_clientDriftValues st d
  end.

Record folderData : Type := mkFolderData {
  fd_clientId : option string;
  fd_clientName : option string;
  fd_files : list clientFile
}.

(** [socket.on('bsl-folder-selected', data)]; [None] when a [TypeError]
    escapes the listener. *)
Definition bslFolderSelected (sid : string) (data : folderData) (st : server)
  : option (server * list emission) :=
  match resolve false sid st with
  | None => Some (st, [])
  | Some s =>
      let cid := string_or (fd_clientId data) sid in
      let clientMatches := default ∅ (persistentBslMatches st !! cid) in
      let vs := videos (scopePlaylist st s) in
      match matchFiles clientMatches (fd_files data) vs ∅ with
      | None => None
      | Some matched =>
          let status :=
            mkBslStatus cid (string_or (fd_clientName data) (Str.slice_last 6 cid))
                        true (fd_files data) matched in
          let st' := putBslStatus st s (map_set sid status (scopeBslStatus st s)) in
          Some (st',
                sendBslStatusToAdmin (scopeCode s) st'
                ++ [mkEmission ToSender "bsl-match-result"
                      (PMatchResult matched (size matched) (length vs))])
      end
  end.

Record manualMatchData : Type := mkManualMatchData {
  mm_clientSocketId : string;
  mm_clientFileName : string;
  mm_playlistIndex : Z
}.

(** [targetPlaylist.videos[playlistIndex]] for an integer index. *)
Definition videoAt (p : playlist) (i : Z) : option video :=
  if Z.ltb i 0 then None else videos p !! Z.to_nat i.

(** [setBslMatch(clientId, clientFileName, playlistFileName)].
    [persistentBslMatches] and its entries are plain objects.  The maps
    hold their own keys, which is all there is for a client id and a file
    name that are not names of members of [Object.prototype]; for a
    client id that is such a name (['__proto__']) the assignment lands on
    the inherited object instead of creating an own key. *)
Definition setBslMatch (cid clientFileName playlistFileName : string)
    (st : server) : server :=
  let own := default ∅ (persistentBslMatches st !! cid) in
  set_persistentBslMatches st
    (<[cid := <[clientFileName := playlistFileName]> own]> (persistentBslMatches st)).

(** [socket.on('bsl-manual-match', data)]. *)
Definition bslManualMatch (sid : string) (data : manualMatchData)
  : handler := fun st =>
  match resolve true sid st with
  | None => (st, [])
  | Some s =>
      match map_get (mm_clientSocketId data) (scopeBslStatus st s) with
      | None => (st, [])
      | Some clientStatus =>
          let matched := <[mm_playlistIndex data := mm_clientFileName data]>
                           (matchedVideos clientStatus) in
          let status := mkBslStatus (clientId clientStatus) (clientName clientStatus)
                                    (folderSelected clientStatus) (files clientStatus)
                                    matched in
          let st1 := putBslStatus st s
                       (map_set (mm_clientSocketId data) status (scopeBslStatus st s)) in
          let p := scopePlaylist st s in
          let st2 :=
            match videoAt p (mm_playlistIndex data) with
            | Some v =>
                if negb (String.eqb (clientId clientStatus) "") then
                  setBslMatch (clientId clientStatus)
                              (Str.toLowerCase (mm_clientFileName data))
                              (Str.toLowerCase (filename v)) st1
                else st1
            | None => st1
            end in
          (st2,
           mkEmission (To (mm_clientSocketId data)) "bsl-match-result"
             (PMatchResult matched (size matched) (length (videos p)))
           :: sendBslStatusToAdmin (scopeCode s) st2)
      end
  end.

End Bsl.

Section Drift.

Variable cfg : config.

Record driftData : Type := mkDriftData {
  dd_clientFingerprint : jsval;
  dd_playlistIndex : jsval;
  dd_driftSeconds : jsval
}.

(** [!clientFingerprint || typeof clientFingerprint !== 'string'] fails:
    the fingerprint is a non-empty string. *)
Definition fingerprintOf (v : jsval) : option string :=
  match v with
  | JStr s => if String.eqb s "" then None else Some s
  | _ => None
  end.

(** [playlistIndex < 0] on a value that passed [isValidInteger]. *)
Definition indexNegative (v : jsval) : bool :=
  match Validate.parsed v with
  | JNum n => ltb n (ofZ 0)
  | _ => false
  end.

(** The property key [clientDrifts[playlistIndex]] uses, for a value that
    passed [isValidInteger] and is not negative. *)
Definition indexKey (v : jsval) : string :=
  match v with
  | JStr s => s
  | JNum (Fin q) => Validate.printIndex (Qfloor (this q))
  | _ => ""
  end.

(** [Math.max(-60, Math.min(60, parseInt(driftSeconds) || 0))]. *)
Definition clampDrift (v : jsval) : num :=
  max (ofZ (-60))
      (min (ofZ 60) (num_or (Some (Validate.parseIntVal v)) (ofZ 0))).

(** The targeted [bsl-drift-update] emissions: one per entry of the
    iterated client map whose fingerprint is [fp]. *)
Definition driftNotices (fp : string) (clientDrifts : gmap string num)
    (cs : list (string * clientInfo)) : list emission :=
  omap (fun e : string * clientInfo =>
          if strict_eq (fingerprint (snd e)) (JStr fp) then
            Some (mkEmission (To (fst e)) "bsl-drift-update"
                             (PDriftUpdate clientDrifts))
          else None) cs.

(** [socket.on('bsl-set-drift', data)]: [None] stands for a payload that
    is falsy or not an object. *)
Definition bslSetDrift (sid : string) (data : option driftData)
  : handler := fun st =>
  match data with
  | None => (st, [])
  | Some d =>
      match resolve cfg true sid st with
      | None => (st, [])
      | Some s =>
          match fingerprintOf (dd_clientFingerprint d) with
          | None => (st, [])
          | Some fp =>
              if (negb (Validate.isValidInteger (dd_playlistIndex d))
                  || indexNegative (dd_playlistIndex d))%bool then (st, [])
              else if negb (Validate.validateDriftSeconds (dd_driftSeconds d))
              then (st, [])
              else
                let clampedDrift := clampDrift (dd_driftSeconds d) in
                let drifts := scopeDrifts st s in
                let clientDrifts :=
                  <[indexKey (dd_playlistIndex d) := clampedDrift]>
                    (default ∅ (drifts !! fp)) in
                let st' := putDrifts st s (<[fp := clientDrifts]> drifts) in
                let notified :=
                  match s with
                  | InRoom c _ =>
                      match getRoom st' c with
                      | Some room => driftNotices fp clientDrifts (clients room)
                      | None => []
                      end
                  | Legacy => driftNotices fp clientDrifts (connectedClients st')
                  end in
                (st', notified ++ sendBslStatusToAdmin cfg (scopeCode s) st')
          end
      end
  end.

End Drift.
(** * Further listeners *)

(** ** Playlist navigation *)

(** [{videoIndex, type, trackIndex}] of a [track-change] event. *)
Record trackChangeData : Type := mkTrackChangeData {
  tc_videoIndex : jsval;
  tc_type : jsval;
  tc_trackIndex : jsval
}.

(** Payloads of the listeners of this part, next to those above.  Of the
    [config] object sent on joining, the fields that depend on the room
    or are read by the model are kept; the others are constants of the
    process. *)
Inductive packet : Type :=
| Plain (p : payload)
| PPosition (index : jsval)
| PTrackChange (data : trackChangeData)
| PViewerCount (viewers : nat)
| PRoomConfig (skipSeconds : Z) (videoAutoplay clientControlsDisabled : bool)
              (roomCode roomName : string) (isAdmin : bool)
| PJoined (roomCode roomName : string) (isAdmin : bool) (viewers : nat)
| PFailure (error : string)
| PSuccess
| PRoomDeleted (roomCode : string)
| PCheckRequest (playlistVideos : list string)
| PCheckStarted (clientCount : nat)
| PAuthResult (success : bool) (reason : string).

Record notice : Type := mkNotice {
  n_target : target;
  n_event : string;
  n_packet : packet
}.

(** How a listener ends: it returns, or a [TypeError] escapes it.  Either
    way [s] is the state the assignments made so far have left. *)
Inductive outcome (S : Type) : Type :=
| Returned (s : S) (out : list notice)
| Thrown (s : S).

Arguments Returned {S} s out.
Arguments Thrown {S} s.

(** The state an outcome leaves. *)
Definition stateOf {S : Type} (o : outcome S) : S :=
  match o with Returned s _ | Thrown s => s end.

(** [validatePlaylistIndex(index, playlist)]. *)
Definition validatePlaylistIndex (index : jsval) (p : playlist) : bool :=
  if Validate.isValidInteger index then
    match Validate.parsed index with
    | JNum idx =>
        (geb idx (ofZ 0) && ltb idx (ofZ (Z.of_nat (length (videos p)))))%bool
    | _ => false
    end
  else false.

(** The array index a property key denotes, for a key that is a number or
    a string of digits with an optional minus sign (what [isValidInteger]
    lets through): a number denotes its value when that is a non-negative
    integer, a string only when it is the canonical print of one. *)
Definition arrayIndex (k : jsval) : option nat :=
  match k with
  | JNum (Fin q as n) =>
      if (isInteger n && Z.leb 0 (Qfloor (this q)))%bool
      then Some (Z.to_nat (Qfloor (this q))) else None
  | JStr s =>
      match Validate.parseInt10 s with
      | Fin q =>
          let z := Qfloor (this q) in
          if (Z.leb 0 z && String.eqb (Validate.printIndex z) s)%bool
          then Some (Z.to_nat z) else None
      | _ => None
      end
  | _ => None
  end.

(** [videos[k]] for such a key; [None] is [undefined]. *)
Definition element (vs : list video) (k : jsval) : option video :=
  match arrayIndex k with
  | Some i => vs !! i
  | None => None
  end.

Definition playlist_set_currentIndex (p : playlist) (i : jsval) : playlist :=
  mkPlaylist (videos p) i (mainVideoIndex p) (mainVideoStartTime p)
             (preloadMainVideo p).

Definition playlist_set_videos (p : playlist) (vs : list video) : playlist :=
  mkPlaylist vs (currentIndex p) (mainVideoIndex p) (mainVideoStartTime p)
             (preloadMainVideo p).

Definition scopeVideoState (st : server) (s : scope) : videoState :=
  match s with InRoom _ room => r_videoState room | Legacy => g_videoState st end.

Definition scopeTarget (s : scope) : target :=
  match s with InRoom c _ => To c | Legacy => ToAll end.

(** Writing the target playlist and the target state back. *)
Definition putPlayback (st : server) (s : scope) (p : playlist) (vs : videoState)
  : server :=
  match s with
  | InRoom c room =>
      update_room st c (room_set_videoState (room_set_playlist room p) vs)
  | Legacy => set_videoState (set_PLAYLIST st p) vs
  end.

(** The track selections a newly current video brings. *)
Definition withTracksOf (v : video) (vs : videoState) : videoState :=
  mkVideoState (isPlaying vs) (currentTime vs) (lastUpdate vs)
               (defined_or (selectedAudioTrack v) (JNum (ofZ 0)))
               (defined_or (selectedSubtitleTrack v) (JNum (ofZ (-1))))
               (playbackRate vs).

Definition restartAt (now : Z) (vs : videoState) : videoState :=
  mkVideoState (isPlaying vs) (Some (ofZ 0)) now
               (audioTrack vs) (subtitleTrack vs) (playbackRate vs).

Definition stampAt (now : Z) (vs : videoState) : videoState :=
  mkVideoState (isPlaying vs) (currentTime vs) now
               (audioTrack vs) (subtitleTrack vs) (playbackRate vs).

Section Navigation.

Variable cfg : config.

(** [socket.on('playlist-jump', index)]. *)
Definition playlistJump (now : Z) (sid : string) (index : jsval) (st : server)
  : outcome server :=
  if negb (Validate.isValidInteger index) then Returned st []
  else
    match resolve cfg true sid st with
    | None => Returned st []
    | Some s =>
        let p := scopePlaylist st s in
        if negb (validatePlaylistIndex (Validate.parsed index) p) then
          Returned st []
        else
          let p' := playlist_set_currentIndex p index in
          match element (videos p) index with
          | None => Thrown (putPlayback st s p' (scopeVideoState st s))
          | Some v =>
              let vs := restartAt now (withTracksOf v (scopeVideoState st s)) in
              Returned (putPlayback st s p' vs)
                [mkNotice (scopeTarget s) "sync" (Plain (PSync vs));
                 mkNotice (scopeTarget s) "playlist-position" (PPosition index);
                 mkNotice (scopeTarget s) "playlist-update" (Plain (PPlaylist p'))]
          end
    end.

(** [socket.on('playlist-next', nextIndex)].  [nextIndex] is an integer,
    as the viewer page computes it; the listener does not check it. *)
Definition playlistNext (now : Z) (sid : string) (nextIndex : Z) (st : server)
  : server * list notice :=
  match resolve cfg false sid st with
  | None => (st, [])
  | Some s =>
      let p := scopePlaylist st s in
      let p' := playlist_set_currentIndex p (JNum (ofZ nextIndex)) in
      let vs0 := scopeVideoState st s in
      let vs := stampAt now
                  match videoAt p nextIndex with
                  | Some v => withTracksOf v vs0
                  | None => vs0
                  end in
      (putPlayback st s p' vs,
       [mkNotice (scopeTarget s) "sync" (Plain (PSync vs));
        mkNotice (scopeTarget s) "playlist-position"
                 (PPosition (JNum (ofZ nextIndex)))])
  end.

(** [v.selectedAudioTrack = t] or [v.selectedSubtitleTrack = t]. *)
Definition selectTrack (type : jsval) (t : jsval) (v : video) : video :=
  if strict_eq type (JStr "audio") then
    mkVideo (filename v) (isExternal v) (tracks v) t
            (selectedSubtitleTrack v) (usesHEVC v)
  else if strict_eq type (JStr "subtitle") then
    mkVideo (filename v) (isExternal v) (tracks v) (selectedAudioTrack v)
            t (usesHEVC v)
  else v.

Definition applyTrack (type : jsval) (t : jsval) (vs : videoState) : videoState :=
  if strict_eq type (JStr "audio") then
    mkVideoState (isPlaying vs) (currentTime vs) (lastUpdate vs)
                 t (subtitleTrack vs) (playbackRate vs)
  else if strict_eq type (JStr "subtitle") then
    mkVideoState (isPlaying vs) (currentTime vs) (lastUpdate vs)
                 (audioTrack vs) t (playbackRate vs)
  else vs.

(** [videos.length > k] for a key that passed [isValidInteger]. *)
Definition belowLength (k : jsval) (vs : list video) : bool :=
  match Validate.parsed k with
  | JNum n => ltb n (ofZ (Z.of_nat (length vs)))
  | _ => false
  end.

(** [socket.on('track-change', data)]: [None] stands for a payload that
    is falsy or not an object. *)
Definition trackChange (now : Z) (sid : string) (data : option trackChangeData)
    (st : server) : outcome server :=
  match data with
  | None => Returned st []
  | Some d =>
      match resolve cfg true sid st with
      | None => Returned st []
      | Some s =>
          if (negb (Validate.isValidInteger (tc_videoIndex d))
              || indexNegative (tc_videoIndex d))%bool then Returned st []
          else if (negb (truthy (tc_type d))
                   || negb (strict_eq (tc_type d) (JStr "audio")
                            || strict_eq (tc_type d) (JStr "subtitle")))%bool
          then Returned st []
          else if negb (Validate.validateTrackIndex (tc_trackIndex d)) then
            Returned st []
          else
            let p := scopePlaylist st s in
            if belowLength (tc_videoIndex d) (videos p) then
              match arrayIndex (tc_videoIndex d) with
              | None => Thrown st
              | Some i =>
                  match videos p !! i with
                  | None => Thrown st
                  | Some v =>
                      let p' := playlist_set_videos p
                                  (<[i := selectTrack (tc_type d) (tc_trackIndex d) v]>
                                     (videos p)) in
                      let echo := mkNotice (scopeTarget s) "track-change"
                                           (PTrackChange d) in
                      if strict_eq (tc_videoIndex d) (currentIndex p) then
                        let vs := stampAt now
                                    (applyTrack (tc_type d) (tc_trackIndex d)
                                                (scopeVideoState st s)) in
                        Returned (putPlayback st s p' vs)
                          [mkNotice (scopeTarget s) "sync" (Plain (PSync vs)); echo]
                      else
                        Returned (putPlayback st s p' (scopeVideoState st s)) [echo]
                  end
              end
            else Returned st []
      end
  end.

(** [{fromIndex, toIndex}] of a [playlist-reorder] event: integers, as the
    admin page sends them; the listener does not check their type. *)
Record reorderData : Type := mkReorderData {
  fromIndex : Z;
  toIndex : Z
}.

(** The index that follows an entry through the swap. *)
Definition follow (from to : Z) (i : jsval) : jsval :=
  if strict_eq i (JNum (ofZ from)) then JNum (ofZ to)
  else if strict_eq i (JNum (ofZ to)) then JNum (ofZ from)
  else i.

(** The destructuring swap of two in-range entries. *)
Definition swap (vs : list video) (i j : nat) : list video :=
  match vs !! i, vs !! j with
  | Some a, Some b => <[j := a]> (<[i := b]> vs)
  | _, _ => vs
  end.

(** [socket.on('playlist-reorder', data)]. *)
Definition playlistReorder (sid : string) (data : reorderData) (st : server)
  : server * list notice :=
  match resolve cfg true sid st with
  | None => (st, [])
  | Some s =>
      let p := scopePlaylist st s in
      let len := Z.of_nat (length (videos p)) in
      let from := fromIndex data in
      let to := toIndex data in
      if (Z.ltb from 0 || Z.leb len from || Z.ltb to 0 || Z.leb len to)%bool
      then (st, [])
      else
        let p' := mkPlaylist (swap (videos p) (Z.to_nat from) (Z.to_nat to))
                             (follow from to (currentIndex p))
                             (follow from to (mainVideoIndex p))
                             (mainVideoStartTime p) (preloadMainVideo p) in
        (putPlayback st s p' (scopeVideoState st s),
         [mkNotice (scopeTarget s) "playlist-update" (Plain (PPlaylist p'))])
  end.

End Navigation.

(** ** Room membership (server mode) *)

(** [Map.delete(k)] on an association list. *)
Definition map_delete {V : Type} (k : string) (m : list (string * V))
  : list (string * V) :=
  List.filter (fun e => negb (String.eqb (fst e) k)) m.

(** The process state next to [room_admins.json], the file in which
    [RoomLogger] keeps one [{fingerprint, savedAt}] entry per room code.
    The file is held as the map from a room code to the stored
    [fingerprint]; reading and writing it succeed.  The log files are
    not part of the state. *)
Record world : Type := mkWorld {
  memory : server;
  roomAdmins : gmap string jsval
}.

(** What [JSON.stringify] followed by [JSON.parse] makes of a stored
    value: a number that is not finite comes back as [null]; an
    [undefined] field is left out and reads back as [undefined]. *)
Definition throughJson (v : jsval) : jsval :=
  match v with
  | JNum (Fin _) => v
  | JNum _ => JNull
  | _ => v
  end.

(** [roomLogger.saveAdminFingerprint(roomCode, fingerprint)]. *)
Definition saveAdminFingerprint (roomCode : string) (fp : jsval)
    (admins : gmap string jsval) : gmap string jsval :=
  <[roomCode := throughJson fp]> admins.

(** [roomLogger.getAdminFingerprint(roomCode)]. *)
Definition getAdminFingerprint (roomCode : string) (admins : gmap string jsval)
  : jsval :=
  match admins !! roomCode with
  | Some fp => if truthy fp then fp else JNull
  | None => JNull
  end.

(** [roomLogger.deleteAdminFingerprint(roomCode)]. *)
Definition deleteAdminFingerprint (roomCode : string)
    (admins : gmap string jsval) : gmap string jsval :=
  delete roomCode admins.

Definition room_set_adminFingerprint (r : Room) (fp : jsval) : Room :=
  mkRoom (code r) (roomName r) (isPrivate r) (createdAt r) fp
         (adminSocketId r) (clients r) (r_playlist r) (r_videoState r)
         (r_clientBslStatus r) (r_clientDriftValues r).

Definition room_set_adminSocketId (r : Room) (sid : option string) : Room :=
  mkRoom (code r) (roomName r) (isPrivate r) (createdAt r) (adminFingerprint r)
         sid (clients r) (r_playlist r) (r_videoState r)
         (r_clientBslStatus r) (r_clientDriftValues r).

Definition room_set_clients (r : Room) (cs : list (string * clientInfo)) : Room :=
  mkRoom (code r) (roomName r) (isPrivate r) (createdAt r) (adminFingerprint r)
         (adminSocketId r) cs (r_playlist r) (r_videoState r)
         (r_clientBslStatus r) (r_clientDriftValues r).

(** [v.substring(0, 8)] can be evaluated: [v] is a string. *)
Definition hasSubstring (v : jsval) : bool :=
  match v with JStr _ => true | _ => false end.

(** [v?.substring(0, 8)] can be evaluated: [v] is a string, [undefined]
    or [null]. *)
Definition hasOptionalSubstring (v : jsval) : bool :=
  match v with JStr _ | JUndefined | JNull => true | _ => false end.

(** [room.isAdmin(fingerprint)]: the answer and the room, whose
    [adminFingerprint] the disk fallback may have restored; [None] when
    the log line of the failing branch throws a [TypeError].  Rooms exist
    in server mode only, where [roomLogger] is set. *)
Definition isAdmin (admins : gmap string jsval) (room : Room) (fp : jsval)
  : option (bool * Room) :=
  if strict_eq (adminFingerprint room) fp then Some (true, room)
  else
    let persistedFp := getAdminFingerprint (code room) admins in
    if (truthy persistedFp && strict_eq persistedFp fp)%bool then
      Some (true, room_set_adminFingerprint room persistedFp)
    else if (hasSubstring fp && hasOptionalSubstring (adminFingerprint room))%bool
    then Some (false, room)
    else None.

(** [room.addClient(socketId, fingerprint, name)] at instant [now]. *)
Definition addClient (now : Z) (sid : string) (fp : jsval) (n : option string)
    (r : Room) : Room :=
  room_set_clients r
    (map_set sid
       (mkClientInfo fp (string_or n ("Guest-" ++ Str.slice_last 4 sid)) now)
       (clients r)).

(** [room.removeClient(socketId)]. *)
Definition removeClient (sid : string) (r : Room) : Room :=
  room_set_clientBslStatus (room_set_clients r (map_delete sid (clients r)))
                           (map_delete sid (r_clientBslStatus r)).

(** [createRoom] also persists the admin fingerprint; with the listener
    of [create-room] that gives the step on the whole state. *)
Definition createRoomLogged (now : Z) (sid c : string) (data : createRoomData)
    (w : world) : world * list emission :=
  let '(st, out) := createRoomListener now sid c data (memory w) in
  (mkWorld st (saveAdminFingerprint c (cr_fingerprint data) (roomAdmins w)), out).

(** [deleteRoom(code)]: the lookup is by the code as given. *)
Definition deleteRoom (c : string) (w : world) : bool * world :=
  match rooms (memory w) !! c with
  | Some _ =>
      (true, mkWorld (set_rooms (memory w) (delete c (rooms (memory w))))
                     (deleteAdminFingerprint c (roomAdmins w)))
  | None => (false, w)
  end.

(** [{roomCode, name, fingerprint}] of [join-room] and
    [{roomCode, fingerprint}] of [delete-room]; a code or name that is
    [undefined] or [null] is [None]. *)
Record joinData : Type := mkJoinData {
  jr_roomCode : option string;
  jr_name : option string;
  jr_fingerprint : jsval
}.

Record deleteData : Type := mkDeleteData {
  dr_roomCode : option string;
  dr_fingerprint : jsval
}.

(** [if (callback) callback(p)]; [ack] tells whether the client passed
    an acknowledgement callback. *)
Definition reply (ack : bool) (event : string) (p : packet) : list notice :=
  if ack then [mkNotice ToSender event p] else [].

Section Membership.

Variable cfg : config.

(** [socket.on('join-room', data, callback)]. *)
Definition joinRoom (now : Z) (sid : string) (data : joinData) (ack : bool)
    (w : world) : outcome world :=
  match jr_roomCode data ≫= fun c => (fun r => (c, r)) <$> getRoom (memory w) c with
  | None => Returned w (reply ack "join-room" (PFailure "Room not found"))
  | Some (c, room) =>
      match isAdmin (roomAdmins w) room (jr_fingerprint data) with
      | None => Thrown w
      | Some (admin, room1) =>
          let room2 := if admin then room_set_adminSocketId room1 (Some sid)
                       else room1 in
          let room3 := addClient now sid (jr_fingerprint data) (jr_name data) room2 in
          let st := set_socketRoomMap (update_room (memory w) c room3)
                      (<[sid := code room3]> (socketRoomMap (memory w))) in
          Returned (mkWorld st (roomAdmins w))
            ([mkNotice ToSender "config"
                (PRoomConfig (SKIP_SECONDS cfg) (VIDEO_AUTOPLAY cfg)
                             (CLIENT_CONTROLS_DISABLED cfg)
                             (code room3) (roomName room3) admin);
              mkNotice ToSender "playlist-update" (Plain (PPlaylist (r_playlist room3)));
              mkNotice ToSender "sync" (Plain (PSync (r_videoState room3)))]
             ++ reply ack "join-room"
                  (PJoined (code room3) (roomName room3) admin
                           (length (clients room3)))
             ++ [mkNotice (To (code room3)) "viewer-count"
                   (PViewerCount (length (clients room3)));
                 mkNotice ToAll "rooms-updated"
                   (Plain (PRoomsUpdated (getPublicRooms st)))])
      end
  end.

(** [socket.on('leave-room')]. *)
Definition leaveRoom (sid : string) (st : server) : server * list notice :=
  match roomCodeOf st sid with
  | None => (st, [])
  | Some c =>
      let '(st1, out) :=
        match getRoom st c with
        | Some room =>
            let room' := removeClient sid room in
            let st1 := update_room st c room' in
            (st1, [mkNotice (To c) "viewer-count"
                     (PViewerCount (length (clients room')));
                   mkNotice ToAll "rooms-updated"
                     (Plain (PRoomsUpdated (getPublicRooms st1)))])
        | None => (st, [])
        end in
      (set_socketRoomMap st1 (delete sid (socketRoomMap st1)), out)
  end.

(** [socket.on('delete-room', data, callback)]. *)
Definition deleteRoomListener (sid : string) (data : deleteData) (ack : bool)
    (w : world) : outcome world :=
  match dr_roomCode data ≫= fun c => (fun r => (c, r)) <$> getRoom (memory w) c with
  | None => Returned w (reply ack "delete-room" (PFailure "Room not found"))
  | Some (c, room) =>
      match isAdmin (roomAdmins w) room (dr_fingerprint data) with
      | None => Thrown w
      | Some (false, _) =>
          Returned w (reply ack "delete-room" (PFailure "Not authorized"))
      | Some (true, room1) =>
          let st1 := update_room (memory w) c room1 in
          let st2 := set_socketRoomMap st1
                       (foldr (fun e m => delete (fst e) m) (socketRoomMap st1)
                              (clients room1)) in
          let w3 := snd (deleteRoom c (mkWorld st2 (roomAdmins w))) in
          Returned w3
            ([mkNotice (To c) "room-deleted" (PRoomDeleted c)]
             ++ reply ack "delete-room" PSuccess
             ++ [mkNotice ToAll "rooms-updated"
                   (Plain (PRoomsUpdated (getPublicRooms (memory w3))))])
      end
  end.

End Membership.

(** ** Admin registration *)

(** [{fingerprint, roomCode}] of [bsl-admin-register]: each a string or
    absent. *)
Record registerData : Type := mkRegisterData {
  rg_fingerprint : option string;
  rg_roomCode : option string
}.

Definition set_registeredAdminFingerprint (st : server) (fp : option string)
  : server :=
  mkServer (rooms st) (socketRoomMap st) (PLAYLIST st) (g_videoState st)
           (g_clientBslStatus st) (g_adminSocketId st) (verifiedAdminSockets st)
           (connectedClients st) (g_clientDriftValues st) (clientDisplayNames st)
           (persistentBslMatches st) fp.

(** [verifiedAdminSockets.add(id); adminSocketId = id]. *)
Definition verifyAdmin (st : server) (sid : string) : server :=
  mkServer (rooms st) (socketRoomMap st) (PLAYLIST st) (g_videoState st)
           (g_clientBslStatus st) (Some sid) ({[sid]} ∪ verifiedAdminSockets st)
           (connectedClients st) (g_clientDriftValues st) (clientDisplayNames st)
           (persistentBslMatches st) (registeredAdminFingerprint st).

Section Registration.

Variable cfg : config.

(** The fingerprint check of [bsl-admin-register]: the state to go on
    with, or the reason of the refusal. *)
Definition fingerprintLock (fp : option string) (st : server)
  : server + string :=
  if ADMIN_FINGERPRINT_LOCK cfg then
    match fp with
    | Some f =>
        if String.eqb f "" then inr "No fingerprint provided"%string
        else
          match registeredAdminFingerprint st with
          | None => inl (set_registeredAdminFingerprint st (Some f))
          | Some registered =>
              if String.eqb registered f then inl st
              else inr ("Unauthorized device. This admin panel is locked "
                        ++ "to a different machine.")%string
          end
    | None => inr "No fingerprint provided"%string
    end
  else inl st.

(** [socket.on('bsl-admin-register', data)]: [None] stands for a payload
    that is [undefined] or [null]. *)
Definition bslAdminRegister (sid : string) (data : option registerData)
    (st : server) : outcome server :=
  match fingerprintLock (data ≫= rg_fingerprint) st with
  | inr reason =>
      Returned st [mkNotice ToSender "admin-auth-result" (PAuthResult false reason)]
  | inl st1 =>
      let st2 := verifyAdmin st1 sid in
      match data with
      | None => Thrown st2
      | Some d =>
          let st3 :=
            match rg_roomCode d with
            | Some c =>
                if String.eqb c "" then st2
                else
                  let st' := set_socketRoomMap st2 (<[sid := c]> (socketRoomMap st2)) in
                  match rooms st' !! c with
                  | Some room =>
                      set_rooms st' (<[c := room_set_adminSocketId room (Some sid)]>
                                       (rooms st'))
                  | None => st'
                  end
            | None => st2
            end in
          Returned st3 [mkNotice ToSender "admin-auth-result" (PAuthResult true "")]
      end
  end.

End Registration.

(** ** CSRF tokens *)

(** [CSRF_TOKEN_EXPIRY]: 24 hours in milliseconds. *)
Definition CSRF_TOKEN_EXPIRY : Z := 24 * 60 * 60 * 1000.

(** [getOrCreateCsrfToken(sessionId)]: the token returned and the new
    [csrfTokens].  [now] is the instant the first two reads of the clock
    give, [later] the one the clean-up reads, and [fresh] the token
    [generateCsrfToken()] would draw. *)
Definition getOrCreateCsrfToken (now later : Z) (fresh : string)
    (sessionId : string) (tokens : gmap string Http.csrfEntry)
  : string * gmap string Http.csrfEntry :=
  let create :=
    let tokens' :=
      <[sessionId := Http.mkCsrfEntry fresh (now + CSRF_TOKEN_EXPIRY)]> tokens in
    (fresh,
     if Nat.ltb 1000 (size tokens') then
       filter (fun e : string * Http.csrfEntry => later <= Http.expires (snd e))
              tokens'
     else tokens') in
  match tokens !! sessionId with
  | Some existing =>
      if Z.ltb now (Http.expires existing) then (Http.token existing, tokens)
      else create
  | None => create
  end.

(** The job identifiers are in use once each and were all handed out by
    the counter. *)
Definition jobIdsOk (st : Http.state) : Prop :=
  NoDup (Http.id <$> Http.ffmpegJobs st)
  /\ Forall (fun j => Http.id j <= Http.ffmpegJobCounter st) (Http.ffmpegJobs st).

(** ** Text helpers *)

(** [s.replace(/c/g, by)] for a single character [c]. *)
Fixpoint replaceAll (c : ascii) (by_ : string) (s : string) : string :=
  match s with
  | EmptyString => EmptyString
  | String a rest =>
      if Ascii.eqb a c then (by_ ++ replaceAll c by_ rest)%string
      else String a (replaceAll c by_ rest)
  end.

(** The double quote character. *)
Definition dquote : ascii := ascii_of_nat 34.

(** [escapeHTML(text)]. *)
Definition escapeHTML (text : jsval) : string :=
  match text with
  | JStr s =>
      replaceAll "'" "&#39;"
        (replaceAll dquote "&quot;"
           (replaceAll dquote "&quot;"
              (replaceAll ">" "&gt;"
                 (replaceAll "<" "&lt;"
                    (replaceAll "&" "&amp;" s)))))
  | _ => ""%string
  end.

(** A file name as its UTF-16 code units: [length] counts them and the
    character classes of a regular expression without the [u] flag test
    them one by one. *)
Definition units : Type := list N.

Definition among (cs : list N) (c : N) : bool := existsb (N.eqb c) cs.

(** [\w]. *)
Definition isWord (c : N) : bool :=
  ((N.leb 48 c && N.leb c 57) || (N.leb 65 c && N.leb c 90)
   || (N.leb 97 c && N.leb c 122) || N.eqb c 95)%bool.

(** [\s]: the white space and line terminator code points. *)
Definition isSpace (c : N) : bool :=
  (among [9; 10; 11; 12; 13; 32; 160; 5760; 8232; 8233; 8239; 8287; 12288; 65279]%N c
   || (N.leb 8192 c && N.leb c 8202))%bool.

(** [/[;&|$`<>\n\r]/]. *)
Definition isShellMeta : N -> bool := among [59; 38; 124; 36; 96; 60; 62; 10; 13]%N.

(** [[\w\s\-.()\[\]]]. *)
Definition isSafe (c : N) : bool :=
  (isWord c || isSpace c || among [45; 46; 40; 41; 91; 93]%N c)%bool.

(** [filename.includes('..')]. *)
Fixpoint hasDotDot (f : units) : bool :=
  match f with
  | a :: (b :: _) as rest => (N.eqb a 46 && N.eqb b 46)%bool || hasDotDot rest
  | _ => false
  end.

(** The object [validateFilename] returns. *)
Inductive validation : Type :=
| Invalid (error : string)
| Valid (sanitized : units).

Section Filenames.

(** [path.basename] of the platform the server runs on. *)
Variable basename : units -> units.

(** [validateFilename(filename)]: [None] stands for a value that is not
    a string. *)
Definition validateFilename (filename : option units) : validation :=
  match filename with
  | None => Invalid "Filename must be a non-empty string"
  | Some f =>
      if Nat.eqb (length f) 0 then Invalid "Filename must be a non-empty string"
      else if Nat.ltb 255 (length f) then
        Invalid "Filename too long (max 255 characters)"
      else if (hasDotDot f || among f 47 || among f 92)%bool then
        Invalid "Path traversal characters not allowed"
      else if existsb isShellMeta f then
        Invalid "Filename contains disallowed shell metacharacters"
      else if negb (forallb isSafe f) then
        Invalid "Filename contains disallowed characters"
      else Valid (basename f)
  end.

End Filenames.

(** ** Configuration *)

(** The value [getConfig] examines:
    [envValue !== undefined ? envValue
       : (fileValue !== undefined ? fileValue : fallback)],
    where [envValue] is [process.env[envKey]] and [fileValue] the entry
    of [config.env], each a string or absent. *)
Definition configValue (fallback : string)
    (envValue fileValue : option string) : string :=
  match envValue with
  | Some v => v
  | None => match fileValue with Some v => v | None => fallback end
  end.

(** [getConfig(envKey, fileKey, fallback, validators.range(min, max))]
    followed by [String(...)], for [0 <= min]. *)
Definition getConfigRange (lo hi : Z) (fallback : string)
    (envValue fileValue : option string) : string :=
  let value := configValue fallback envValue fileValue in
  match Validate.parseIntAuto value with
  | Fin q as n =>
      if (ltb n (ofZ lo) || ltb (ofZ hi) n)%bool then fallback
      else Validate.printIndex (Qfloor (this q))
  | _ => fallback
  end.

(** [SKIP_SECONDS]: [parseInt(config.skip_seconds) || 5]. *)
Definition skipSecondsOf (envValue fileValue : option string) : num :=
  num_or (Some (Validate.parseIntAuto (getConfigRange 5 60 "5" envValue fileValue)))
         (ofZ 5).

(** [BSL_ADVANCED_MATCH_THRESHOLD]:
    [Math.min(4, Math.max(1, parseInt(config.bsl_advanced_match_threshold) || 1))]. *)
Definition matchThresholdOf (envValue fileValue : option string) : num :=
  min (ofZ 4)
      (max (ofZ 1)
           (num_or (Some (Validate.parseIntAuto
                            (getConfigRange 1 4 "1" envValue fileValue)))
                   (ofZ 1))).


(** * Vocabulary of the properties *)

(** [idx] is an integer with [-1 <= idx < len]. *)
Definition indexInDomain (idx : jsval) (len : nat) : bool :=
  match idx with
  | JNum (Fin q as n) =>
      (isInteger n && Z.leb (-1) (Qfloor (this q))
       && Z.ltb (Qfloor (this q)) (Z.of_nat len))%bool
  | _ => false
  end.

(** The playlist invariant of the data model. *)
Definition playlistInvariant (p : playlist) : bool :=
  (indexInDomain (currentIndex p) (length (videos p))
   && indexInDomain (mainVideoIndex p) (length (videos p)))%bool.

(** The state a [control] event of socket [sid] acts on: the state of the
    room the socket is mapped to, or the legacy global. *)
Definition controlTarget (cfg : config) (st : server) (sid : string)
  : option videoState :=
  if SERVER_MODE cfg then
    match roomCodeOf st sid with
    | Some c => r_videoState <$> getRoom st c
    | None => None
    end
  else Some (g_videoState st).

(** Where the resulting [sync] goes. *)
Definition controlAudience (cfg : config) (st : server) (sid : string) : target :=
  if SERVER_MODE cfg then
    match roomCodeOf st sid with Some c => To c | None => ToAll end
  else ToAll.

(** The gates between validation and the action branch: in a room, client
    controls are enabled or the sender is the room's admin socket; in
    legacy mode the same with the verified-admin set, and action-less
    pushes are let through only when client sync is enabled. *)
Definition controlAdmitted (cfg : config) (st : server) (sid : string)
    (d : controlData) : bool :=
  if SERVER_MODE cfg then
    match roomCodeOf st sid with
    | Some c =>
        match getRoom st c with
        | Some room =>
            negb (CLIENT_CONTROLS_DISABLED cfg
                  && negb (is_socket (adminSocketId room) sid))
        | None => false
        end
    | None => false
    end
  else
    (negb (CLIENT_CONTROLS_DISABLED cfg
           && negb (bool_decide (sid ∈ verifiedAdminSockets st)))
     && negb (CLIENT_SYNC_DISABLED cfg && negb (truthy (action d))))%bool.

(** The optional [currentTime] field of the payload is absent or valid. *)
Definition currentTimeFieldOk (d : controlData) : bool :=
  (strict_eq (c_currentTime d) JUndefined
   || Validate.validateCurrentTime (c_currentTime d))%bool.

(** The rate grid of the data model: 0.25 to 3.0 in steps of 0.25. *)
Definition onRateGrid (r : option num) : bool :=
  match r with
  | Some (Fin q) =>
      let quarters := (this q * 4)%Q in
      (Qeq_bool (inject_Z (Qfloor quarters)) quarters
       && Z.leb 1 (Qfloor quarters) && Z.leb (Qfloor quarters) 12)%bool
  | _ => false
  end.

(** The admin-only events the specification lists. *)
Definition adminOnlyListed : list string :=
  [ "set-playlist"; "playlist-reorder"; "playlist-jump"; "track-change";
    "skip-to-next-video"; "bsl-check-request"; "bsl-get-status";
    "bsl-manual-match"; "bsl-set-drift"; "set-client-name";
    "set-client-display-name"; "get-client-list"; "delete-room" ]%string.

(** The two events that establish admin status. *)
Definition adminOpening : list string :=
  [ "create-room"; "bsl-admin-register" ]%string.

(** What a blocked packet yields: the limiter's error if the limiter
    stopped it, the authorisation error otherwise. *)
Definition blockedOutput (isLocalhostSocket exhausted : bool) (eventName : string)
  : list emission :=
  if (negb isLocalhostSocket && exhausted)%bool then
    [mkEmission ToSender "rate-limit-error" PRateLimitError]
  else
    [mkEmission ToSender "admin-error"
       (PAdminError eventName "Unauthorized: Admin access required")].

(** Integers with [-60 <= z <= 60], in order. *)
Definition driftRange : list Z := (fun n => Z.of_nat n - 60) <$> seq 0 121.

(** The drift table a [bsl-set-drift] from socket [sid] writes to. *)
Definition driftTableOf (cfg : config) (sid : string) (st : server)
  : option (gmap string (gmap string num)) :=
  scopeDrifts st <$> resolve cfg true sid st.

(** The client map a [bsl-set-drift] from socket [sid] iterates over to
    notify: the clients of the sender's room, or the registered clients in
    legacy mode. *)
Definition driftAudience (cfg : config) (sid : string) (st : server)
  : list (string * clientInfo) :=
  match resolve cfg true sid st with
  | Some (InRoom _ room) => clients room
  | Some Legacy => connectedClients st
  | None => []
  end.

(** Why a client file may stand for a playlist entry: the names are equal
    up to case, or the persisted matches of the client say so, or the
    advanced score reaches the configured threshold. *)
Definition justified (cfg : config) (serverFileSize : string -> option Z)
    (clientMatches : gmap string string) (cf : clientFile) (v : video) : Prop :=
  nameCriterion cf v = true
  \/ persistedMatch clientMatches cf v = true
  \/ exists score, matchScore serverFileSize cf v = Some score
                   /\ (BSL_ADVANCED_MATCH_THRESHOLD cfg <= score)%nat.

(** Entry [i -> f] of a match map is explained by the playlist [vs] and the
    reported files [fs]: [i] is an index of [vs], [f] is the name of a
    reported file, and that file is justified for that entry. *)
Definition explained (cfg : config) (serverFileSize : string -> option Z)
    (clientMatches : gmap string string)
    (vs : list video) (fs : list clientFile) (i : Z) (f : string) : Prop :=
  exists v cf,
    0 <= i /\ vs !! Z.to_nat i = Some v /\ cf ∈ fs /\ cf_name cf = f
    /\ justified cfg serverFileSize clientMatches cf v.

(** The BSL status the server holds for socket [viewer], looked up in the
    map that a listener running for socket [sid] targets. *)
Definition statusOf (cfg : config) (adminOnly : bool) (sid viewer : string)
    (st : server) : option bslStatus :=
  resolve cfg adminOnly sid st ≫= fun s => map_get viewer (scopeBslStatus st s).

(** ** Concrete scenarios used throughout *)

Module Scenario.

(** Legacy single-room mode with every option at its default. *)
Definition legacy : config :=
  mkConfig false false false false false 5 "any" true 1.

(** Multi-room mode, otherwise defaults. *)
Definition multi : config :=
  mkConfig true false false false false 5 "any" true 1.

(** A metadata adapter that finds no tracks. *)
Definition noMetadata : string -> option trackList := fun _ => Some noTracks.

(** A playing state last reconciled at instant 0, at double speed. *)
Definition doubleSpeed : videoState :=
  mkVideoState (JBool true) (Some (ofZ 0)) 0 (JNum (ofZ 0)) (JNum (ofZ (-1)))
               (Some (ofZ 2)).

(** The payload of the admin page's "Kill Playlist" button. *)
Definition killPlaylist : playlistData :=
  mkPlaylistData [] (JNum (ofZ (-1))) (Some (ofZ 0)).

Definition q (n : Z) (d : positive) : num := Fin (Q2Qc (n # d)).

(** [{action: 'seek', time: t}]. *)
Definition seekTo (t : num) : controlData :=
  mkControlData (JStr "seek") JUndefined JUndefined None (JNum t)
                JUndefined JUndefined None JUndefined JUndefined.

(** [{action: 'rate', rate: r}]. *)
Definition setRate (r : num) : controlData :=
  mkControlData (JStr "rate") JUndefined JUndefined None JUndefined
                JUndefined JUndefined (Some r) JUndefined JUndefined.

(** Legacy state after socket [a1] has sent [bsl-admin-register]. *)
Definition adminRegistered : server :=
  mkServer ∅ ∅ emptyPlaylist (initialVideoState 0) [] (Some "a1"%string)
           {["a1"%string]} [] ∅ ∅ ∅ None.

(** A stand-in for SHA-256 and the hash of the configured password. *)
Definition hashOf (s : string) : string := ("#" ++ s)%string.
Definition toolsHash : string := hashOf "secret".

(** [POST /api/ffmpeg/run-preset] with the right password, no
    [sync_session] cookie and no CSRF token. *)
Definition presetWithoutToken : Http.request :=
  Http.mkRequest "POST" None None None (Some "secret"%string)
                 (JStr "remux") (JStr "A.mp4") (JStr "mp4") JUndefined.

(** [{clientFingerprint: 'F1', playlistIndex: 0, driftSeconds: z}]. *)
Definition driftOf (z : Z) : driftData :=
  mkDriftData (JStr "F1") (JNum (ofZ 0)) (JNum (ofZ z)).

(** A one-item playlist, [Movie.mkv], main item 0, start at 10 s. *)
Definition movieNight : playlistData :=
  mkPlaylistData [mkItem "Movie.mkv" JUndefined JUndefined JUndefined]
                 (JNum (ofZ 0)) (Some (ofZ 10)).

(** The server's copy of [Movie.mkv] is 900 MiB. *)
Definition sizes (f : string) : option Z :=
  if String.eqb f "Movie.mkv" then Some 943718400 else None.

(** A viewer's folder: [movie.mkv], 900.4 MiB. *)
Definition folder : folderData :=
  mkFolderData (Some "V1"%string) None
               [mkClientFile "movie.mkv" (Some (ofZ 944137830)) None].

Definition newRoomRequest : createRoomData :=
  mkCreateRoomData (Some "Movie night"%string) (JBool false) (JStr "F1").

(** Legacy state after the registered admin has launched [movieNight]. *)
Definition movieLaunched : server :=
  fst (setPlaylist legacy noMetadata 0 "a1" movieNight adminRegistered).

End Scenario.

(** * Vocabulary of the further properties *)

(** The state with every playback state blanked: what is left is
    everything a [control] event has no business changing. *)
Definition eraseClock (st : server) : server :=
  set_videoState
    (set_rooms st ((fun r => room_set_videoState r (initialVideoState 0))
                     <$> rooms st))
    (initialVideoState 0).

(** The text one character is rendered as. *)
Definition entity (c : ascii) : string :=
  if Ascii.eqb c "&" then "&amp;"
  else if Ascii.eqb c "<" then "&lt;"
  else if Ascii.eqb c ">" then "&gt;"
  else if Ascii.eqb c dquote then "&quot;"
  else if Ascii.eqb c "'" then "&#39;"
  else String c EmptyString.

(** All characters rendered one after the other. *)
Fixpoint rendered (s : string) : string :=
  match s with
  | EmptyString => EmptyString
  | String c rest => (entity c ++ rendered rest)%string
  end.

(** Whether a string is made of ASCII characters only (codes below
    128), where [Str.toLowerCase] and [Str.toUpperCase] are the
    JavaScript maps. *)
Definition asciiChar (c : ascii) : bool :=
  match c with Ascii _ _ _ _ _ _ _ b7 => negb b7 end.

Fixpoint asciiOnly (s : string) : bool :=
  match s with
  | EmptyString => true
  | String c rest => (asciiChar c && asciiOnly rest)%bool
  end.

(** The characters a valid file name is made of: word characters, white
    space other than line feed and carriage return, and [-.()[]]. *)
Definition allowedInName (c : N) : bool :=
  (isWord c || (isSpace c && negb (N.eqb c 10) && negb (N.eqb c 13))
   || among [45; 46; 40; 41; 91; 93]%N c)%bool.

(** ** Further scenarios *)

Module Scenes.

(** [{action: 'playpause', state: b}]. *)
Definition playPause (b : bool) : controlData :=
  mkControlData (JStr "playpause") (JBool b) JUndefined None JUndefined
                JUndefined JUndefined None JUndefined JUndefined.

(** [{action: 'skip', direction: 'back', seconds: n}]. *)
Definition skipBack (n : Z) : controlData :=
  mkControlData (JStr "skip") JUndefined (JStr "back") (Some (ofZ n)) JUndefined
                JUndefined JUndefined None JUndefined JUndefined.

(** A three-item playlist, main item 1. *)
Definition tripleBill : playlistData :=
  mkPlaylistData [mkItem "Intro.mp4" JUndefined JUndefined JUndefined;
                  mkItem "Movie.mkv" JUndefined (JNum (ofZ 1)) JUndefined;
                  mkItem "Outro.mp4" JUndefined JUndefined JUndefined]
                 (JNum (ofZ 1)) (Some (ofZ 0)).

(** Legacy state after the registered admin has launched [tripleBill]. *)
Definition tripleLaunched : server :=
  fst (setPlaylist Scenario.legacy Scenario.noMetadata 0 "a1" tripleBill
                   Scenario.adminRegistered).

(** Server mode after socket [a1] has created the public room [ROOM42]
    with fingerprint [F1]. *)
Definition party : world :=
  fst (createRoomLogged 0 "a1" "ROOM42" Scenario.newRoomRequest
                        (mkWorld (bootServer 0) ∅)).

(** The room object of [party]. *)
Definition partyRoom : Room :=
  room_set_admin (newRoom 0 "ROOM42" "Movie night" false (JStr "F1")) "a1"
                 [("a1"%string, mkClientInfo (JStr "F1") "Admin" 0)].

(** [{roomCode: 'room42', name: 'Ann', fingerprint: fp}]. *)
Definition joinAs (fp : jsval) : joinData :=
  mkJoinData (Some "room42"%string) (Some "Ann"%string) fp.

End Scenes.


(** * Properties *)

(** ** Numbers *)

Lemma Qc_eqb_eq (a b : Qc) : Qc_eqb a b = true <-> a = b.
Proof.
  unfold Qc_eqb. rewrite Qeq_bool_iff. split.
  - apply Qc_is_canon.
  - intros ->. reflexivity.
Qed.

Lemma Qc_leb_le (a b : Qc) : Qc_leb a b = true <-> (a <= b)%Qc.
Proof. unfold Qc_leb, Qcle. apply Qle_bool_iff. Qed.

Lemma Qc_ltb_lt (a b : Qc) : Qc_ltb a b = true <-> (a < b)%Qc.
Proof.
  unfold Qc_ltb, Qclt. rewrite negb_true_iff, <- not_true_iff_false, Qle_bool_iff.
  split; [apply Qnot_le_lt | apply Qlt_not_le].
Qed.

Lemma Fin_eq (a b : Qc) : Qc_eqb a b = true -> Fin a = Fin b.
Proof. intros H. f_equal. now apply Qc_eqb_eq. Qed.

Lemma Some_Fin_eq (a b : Qc) : Qc_eqb a b = true -> Some (Fin a) = Some (Fin b).
Proof. intros H. f_equal. now apply Fin_eq. Qed.

(** Closes an equation between closed numbers that evaluate to the same
    rational. *)
Ltac num_refl :=
  vm_compute;
  first [ reflexivity
        | apply Some_Fin_eq; reflexivity
        | apply Fin_eq; reflexivity ].

Lemma elapsed_pos (now last : Z) :
  last < now -> (0 < elapsed_seconds now last)%Qc.
Proof.
  intros H. unfold elapsed_seconds, Qcdiv.
  apply Qcmult_pos_pos.
  - unfold Qclt. simpl. unfold Qlt. simpl. lia.
  - unfold Qclt. vm_compute. reflexivity.
Qed.

(** ** The rooms map *)

Lemma getRoom_update_room st c r :
  getRoom (update_room st c r) c = Some r.
Proof. unfold getRoom, update_room. simpl. apply lookup_insert_eq. Qed.

Lemma roomCodeOf_update_room st c r sid :
  roomCodeOf (update_room st c r) sid = roomCodeOf st sid.
Proof. reflexivity. Qed.

(** ** Clock *)

(** What one tick does to a playing state: the elapsed seconds are added
    as they are, whatever the rate. *)
Lemma tickState_playing now vs :
  truthy (isPlaying vs) = true ->
  tickState now vs =
    mkVideoState (isPlaying vs)
      (Some (add (to_number (currentTime vs)) (Fin (elapsed_seconds now (lastUpdate vs)))))
      now (audioTrack vs) (subtitleTrack vs) (playbackRate vs).
Proof. intros H. unfold tickState. now rewrite H. Qed.

Lemma tickState_paused now vs :
  truthy (isPlaying vs) = false -> tickState now vs = vs.
Proof. intros H. unfold tickState. now rewrite H. Qed.

Lemma syncInterval_silent cfg now st : snd (syncInterval cfg now st) = [].
Proof. unfold syncInterval. now destruct (SERVER_MODE cfg). Qed.

(** C1 (code): at double speed, five seconds after the anchor, the ticker
    stores position 5 where [consolidateTime] stores 10: the ticker adds
    the elapsed time without the rate factor.  It emits nothing. *)
Theorem C1_ticker_ignores_rate :
  currentTime (tickState 5000 Scenario.doubleSpeed) = Some (ofZ 5)
  /\ lastUpdate (tickState 5000 Scenario.doubleSpeed) = 5000
  /\ currentTime (consolidateTime 5000 Scenario.doubleSpeed) = Some (ofZ 10)
  /\ Some (ofZ 5) <> Some (mul (ofZ 2) (ofZ 5))
  /\ forall cfg now st, snd (syncInterval cfg now st) = [].
Proof.
  split; [num_refl |].
  split; [reflexivity |].
  split; [num_refl |].
  split.
  - intros H. apply (f_equal (fun o => match o with
                                       | Some (Fin x) => Qc_eqb x (Qc_of_Z 5)
                                       | _ => false end)) in H.
    vm_compute in H. discriminate.
  - apply syncInterval_silent.
Qed.

(** ** Playlist *)

Lemma emptyPlaylist_invariant : playlistInvariant emptyPlaylist = true.
Proof. reflexivity. Qed.

Lemma launch_isPlaying cfg tracksFor now data vs :
  isPlaying (snd (launch cfg tracksFor now data vs)) = JBool (VIDEO_AUTOPLAY cfg).
Proof. reflexivity. Qed.

Lemma launch_currentIndex cfg tracksFor now data vs :
  currentIndex (fst (launch cfg tracksFor now data vs)) = JNum (ofZ 0).
Proof. reflexivity. Qed.

Lemma launch_length cfg tracksFor now data vs :
  length (videos (fst (launch cfg tracksFor now data vs)))
  = length (pd_playlist data).
Proof. unfold launch. simpl. apply length_fmap. Qed.

(** C5 (code): the admin page's "Kill Playlist" payload, an empty list with
    main index -1, leaves [currentIndex = 0] on a playlist of length 0, in
    a room and in legacy mode alike; the invariant held before and does not
    hold after. *)
Theorem C5_empty_playlist_sets_index_zero :
  let st := bootServer 0 in
  let st' := fst (setPlaylist Scenario.legacy Scenario.noMetadata 1000 "admin"
                              Scenario.killPlaylist st) in
  playlistInvariant (PLAYLIST st) = true
  /\ videos (PLAYLIST st') = []
  /\ currentIndex (PLAYLIST st') = JNum (ofZ 0)
  /\ playlistInvariant (PLAYLIST st') = false
  /\ forall cfg tracksFor now vs,
       playlistInvariant
         (fst (launch cfg tracksFor now Scenario.killPlaylist vs)) = false.
Proof.
  repeat split.
Qed.

(** ** Room creation and the idle room *)

Lemma createRoomListener_room now sid c data st :
  rooms (fst (createRoomListener now sid c data st)) !! c
  = Some (room_set_admin
            (newRoom now c (string_or (cr_name data) "Watch Party")
                     (strict_eq (cr_isPrivate data) (JBool true))
                     (cr_fingerprint data))
            sid
            [(sid, mkClientInfo (cr_fingerprint data) "Admin" now)]).
Proof. unfold createRoomListener. simpl. apply lookup_insert_eq. Qed.

Lemma createRoomListener_socket now sid c data st :
  socketRoomMap (fst (createRoomListener now sid c data st)) !! sid = Some c.
Proof. unfold createRoomListener. simpl. apply lookup_insert_eq. Qed.

Lemma getRoom_syncInterval cfg now st c :
  SERVER_MODE cfg = true ->
  getRoom (fst (syncInterval cfg now st)) c
  = (fun r => room_set_videoState r (tickState now (r_videoState r)))
      <$> getRoom st c.
Proof.
  intros Hmode. unfold syncInterval, getRoom. rewrite Hmode. simpl.
  apply lookup_fmap.
Qed.

Lemma setPlaylist_by_admin cfg tracksFor now sid pl st c room :
  SERVER_MODE cfg = true ->
  roomCodeOf st sid = Some c ->
  getRoom st c = Some room ->
  is_socket (adminSocketId room) sid = true ->
  setPlaylist cfg tracksFor now sid pl st
  = (update_room st c
       (room_set_videoState
          (room_set_playlist room (fst (launch cfg tracksFor now pl (r_videoState room))))
          (snd (launch cfg tracksFor now pl (r_videoState room)))),
     launchBroadcast (To c)
       (fst (launch cfg tracksFor now pl (r_videoState room)))
       (snd (launch cfg tracksFor now pl (r_videoState room)))
     ++ [playlistSetOk cfg]).
Proof.
  intros Hmode Hcode Hroom Hadmin. unfold setPlaylist.
  rewrite Hmode, Hcode, Hroom, Hadmin. reflexivity.
Qed.

Lemma roomCodeOf_lookup st sid c :
  socketRoomMap st !! sid = Some c -> c <> ""%string ->
  roomCodeOf st sid = Some c.
Proof.
  intros H Hne. unfold roomCodeOf. rewrite H.
  destruct (String.eqb_spec c ""); congruence.
Qed.

(** C10: a room is created playing, with an empty playlist and
    [currentIndex = -1], and so is the legacy state at boot; a later tick
    moves the stored position of that idle room (and of the idle legacy
    state) forward by the elapsed seconds and emits nothing;
    [set-playlist] by the room's admin is what sets [isPlaying] to
    [VIDEO_AUTOPLAY]. *)
Theorem C10_idle_room_is_playing
    (cfg : config) (tracksFor : string -> option trackList)
    (now now' now'' : Z) (sid c : string) (data : createRoomData)
    (pl : playlistData) (st : server)
    (Hmode : SERVER_MODE cfg = true)
    (Hcode : Str.toUpperCase c = c) (Hne : c <> ""%string)
    (Hlater : now < now') :
  let st1 := fst (createRoomListener now sid c data st) in
  let st2 := fst (syncInterval cfg now' st1) in
  let st3 := fst (setPlaylist cfg tracksFor now'' sid pl st1) in
  (exists room,
      getRoom st1 c = Some room
      /\ isPlaying (r_videoState room) = JBool true
      /\ currentTime (r_videoState room) = Some (ofZ 0)
      /\ videos (r_playlist room) = []
      /\ currentIndex (r_playlist room) = JNum (ofZ (-1)))
  /\ (isPlaying (g_videoState (bootServer now)) = JBool true
      /\ videos (PLAYLIST (bootServer now)) = []
      /\ currentIndex (PLAYLIST (bootServer now)) = JNum (ofZ (-1)))
  /\ (exists room,
        getRoom st2 c = Some room
        /\ videos (r_playlist room) = []
        /\ currentTime (r_videoState room)
           = Some (Fin (Qc_of_Z 0 + elapsed_seconds now' now)%Qc)
        /\ (0 < elapsed_seconds now' now)%Qc
        /\ lastUpdate (r_videoState room) = now')
  /\ snd (syncInterval cfg now' st1) = []
  /\ (forall legacy : config,
        SERVER_MODE legacy = false ->
        currentTime (g_videoState (fst (syncInterval legacy now' (bootServer now))))
        = Some (Fin (Qc_of_Z 0 + elapsed_seconds now' now)%Qc))
  /\ (exists room,
        getRoom st3 c = Some room
        /\ isPlaying (r_videoState room) = JBool (VIDEO_AUTOPLAY cfg)).
Proof.
  intros st1 st2 st3.
  pose proof (createRoomListener_room now sid c data st) as Hroom.
  pose proof (createRoomListener_socket now sid c data st) as Hsock.
  fold st1 in Hroom, Hsock.
  split; [| split; [| split; [| split; [| split]]]].
  - eexists. split.
    + unfold getRoom. rewrite Hcode. exact Hroom.
    + repeat split.
  - repeat split.
  - eexists. split.
    + unfold st2. rewrite getRoom_syncInterval by exact Hmode.
      unfold getRoom. rewrite Hcode, Hroom. reflexivity.
    + simpl. split; [reflexivity |]. split; [reflexivity |].
      split; [now apply elapsed_pos | reflexivity].
  - apply syncInterval_silent.
  - intros legacy Hlegacy. unfold syncInterval. now rewrite Hlegacy.
  - unfold st3.
    erewrite setPlaylist_by_admin;
      [| exact Hmode | apply roomCodeOf_lookup; [exact Hsock | exact Hne]
       | unfold getRoom; rewrite Hcode; exact Hroom
       | simpl; apply String.eqb_refl ].
    eexists. split; [apply getRoom_update_room | reflexivity].
Qed.

(** C10 at room code [ABC234], created at instant 0 and ticked 5 s later. *)
Lemma C10_idle_room_is_playing_witness :
  exists room,
    getRoom (fst (syncInterval Scenario.multi 5000
                    (fst (createRoomListener 0 "s1" "ABC234"
                            Scenario.newRoomRequest (bootServer 0))))) "ABC234"
    = Some room
    /\ videos (r_playlist room) = []
    /\ currentTime (r_videoState room)
       = Some (Fin (Qc_of_Z 0 + elapsed_seconds 5000 0)%Qc).
Proof.
  destruct (C10_idle_room_is_playing Scenario.multi Scenario.noMetadata
              0 5000 6000 "s1" "ABC234" Scenario.newRoomRequest
              Scenario.killPlaylist (bootServer 0))
    as (_ & _ & (room & Hget & Hvideos & Htime & _) & _).
  - reflexivity.
  - reflexivity.
  - discriminate.
  - lia.
  - exists room. repeat split; assumption.
Defined.

(** ** The [control] listener *)

Lemma control_invalid cfg now sid d st :
  controlValid d = false -> control cfg now sid (Some d) st = (st, []).
Proof. intros H. unfold control. now rewrite H. Qed.

(** An admitted, valid event runs [applyControl] on the target state and
    broadcasts the result. *)
Lemma control_admitted cfg now sid d st vs vs' :
  controlValid d = true ->
  controlAdmitted cfg st sid d = true ->
  controlTarget cfg st sid = Some vs ->
  applyControl cfg now d vs = Some vs' ->
  controlTarget cfg (fst (control cfg now sid (Some d) st)) sid = Some vs'
  /\ snd (control cfg now sid (Some d) st)
     = [mkEmission (controlAudience cfg st sid) "sync" (PSync vs')].
Proof.
  intros Hvalid Hadm Htarget Happly.
  unfold control, controlAdmitted, controlTarget, controlAudience in *.
  rewrite Hvalid. simpl.
  destruct (SERVER_MODE cfg) eqn:Hmode.
  - destruct (roomCodeOf st sid) as [c |] eqn:Hcode; [| discriminate].
    destruct (getRoom st c) as [room |] eqn:Hroom; [| discriminate].
    simpl in Htarget. injection Htarget as <-.
    apply negb_true_iff in Hadm. rewrite Hadm, Happly. simpl.
    rewrite roomCodeOf_update_room, Hcode, getRoom_update_room.
    split; reflexivity.
  - injection Htarget as <-.
    apply andb_true_iff in Hadm as [H1 H2].
    apply negb_true_iff in H1, H2. rewrite H1, H2, Happly.
    split; reflexivity.
Qed.

Lemma validateCurrentTime_nonneg (t : Qc) :
  Validate.validateCurrentTime (JNum (Fin t)) = true <-> (0 <= t)%Qc.
Proof.
  unfold Validate.validateCurrentTime, Validate.isValidNumber, geb, leb, ofZ.
  simpl. unfold Qc_leb, Qcle. simpl. apply Qle_bool_iff.
Qed.

Lemma validateCurrentTime_negative (t : Qc) :
  (t < 0)%Qc -> Validate.validateCurrentTime (JNum (Fin t)) = false.
Proof.
  intros H. apply not_true_iff_false. rewrite validateCurrentTime_nonneg.
  now apply Qclt_not_le.
Qed.

Lemma controlValid_seek d :
  is_action d "seek" = true ->
  controlValid d
  = (currentTimeFieldOk d && Validate.validateCurrentTime (c_time d))%bool.
Proof.
  intros Hseek. unfold controlValid, currentTimeFieldOk. rewrite Hseek.
  assert (is_action d "selectTrack" = false) as ->.
  { unfold is_action in *. destruct (action d); try discriminate.
    simpl in *. apply String.eqb_eq in Hseek. now subst. }
  destruct (strict_eq (c_currentTime d) JUndefined);
    destruct (Validate.validateCurrentTime (c_currentTime d));
    destruct (Validate.validateCurrentTime (c_time d)); reflexivity.
Qed.

Lemma applyControl_seek cfg now d vs :
  is_action d "seek" = true ->
  applyControl cfg now d vs
  = Some (mkVideoState (isPlaying vs) (as_num (c_time d)) now
                       (audioTrack vs) (subtitleTrack vs) (playbackRate vs)).
Proof.
  intros Hseek. unfold applyControl, is_action in *.
  destruct (action d) as [| | | | a |]; try discriminate.
  simpl in Hseek. apply String.eqb_eq in Hseek. subst a. reflexivity.
Qed.

(** C7: a seek whose time fails validation, a negative time in particular,
    changes nothing and emits nothing; a seek to [t >= 0] that passes the
    listener's gates sets the position to exactly [t] and the anchor to the
    current instant, leaves the other fields alone, and broadcasts one
    [sync] carrying the new state. *)
Theorem C7_seek
    (cfg : config) (now : Z) (sid : string) (d : controlData) (st : server)
    (Hseek : is_action d "seek" = true) :
  (Validate.validateCurrentTime (c_time d) = false ->
   control cfg now sid (Some d) st = (st, []))
  /\ (forall t : Qc, c_time d = JNum (Fin t) -> (t < 0)%Qc ->
      control cfg now sid (Some d) st = (st, []))
  /\ (forall (t : Qc) (vs : videoState),
      c_time d = JNum (Fin t) -> (0 <= t)%Qc ->
      currentTimeFieldOk d = true ->
      controlAdmitted cfg st sid d = true ->
      controlTarget cfg st sid = Some vs ->
      let vs' := mkVideoState (isPlaying vs) (Some (Fin t)) now
                              (audioTrack vs) (subtitleTrack vs) (playbackRate vs) in
      controlTarget cfg (fst (control cfg now sid (Some d) st)) sid = Some vs'
      /\ snd (control cfg now sid (Some d) st)
         = [mkEmission (controlAudience cfg st sid) "sync" (PSync vs')]).
Proof.
  assert (Hreject : Validate.validateCurrentTime (c_time d) = false ->
                    control cfg now sid (Some d) st = (st, [])).
  { intros Hbad. apply control_invalid.
    rewrite controlValid_seek by exact Hseek. rewrite Hbad.
    apply andb_false_r. }
  split; [exact Hreject |]. split.
  - intros t Ht Hneg. apply Hreject. rewrite Ht.
    now apply validateCurrentTime_negative.
  - intros t vs Ht Hpos Hfield Hadm Htarget vs'.
    apply control_admitted with (vs := vs); try assumption.
    + rewrite controlValid_seek by exact Hseek. rewrite Hfield, Ht.
      now apply validateCurrentTime_nonneg.
    + rewrite applyControl_seek by exact Hseek. now rewrite Ht.
Qed.

(** C7 at the legacy boot state: [seek(-1)] is dropped, [seek(0)] puts the
    position at 0 and the anchor at the instant of the event. *)
Lemma C7_seek_witness :
  control Scenario.legacy 7000 "v1" (Some (Scenario.seekTo (ofZ (-1)))) (bootServer 0)
  = (bootServer 0, [])
  /\ controlTarget Scenario.legacy
       (fst (control Scenario.legacy 7000 "v1" (Some (Scenario.seekTo (ofZ 0)))
                     (bootServer 0))) "v1"
     = Some (mkVideoState (JBool true) (Some (Fin (Qc_of_Z 0))) 7000
                          (JNum (ofZ 0)) (JNum (ofZ (-1))) (Some (ofZ 1))).
Proof.
  split.
  - apply (proj1 (proj2 (C7_seek Scenario.legacy 7000 "v1"
                           (Scenario.seekTo (ofZ (-1))) (bootServer 0) eq_refl))
            (Qc_of_Z (-1))).
    + reflexivity.
    + reflexivity.
  - apply (proj2 (proj2 (C7_seek Scenario.legacy 7000 "v1"
                           (Scenario.seekTo (ofZ 0)) (bootServer 0) eq_refl))
            (Qc_of_Z 0) (initialVideoState 0)).
    + reflexivity.
    + discriminate.
    + reflexivity.
    + reflexivity.
    + reflexivity.
Defined.

Lemma controlValid_plain d :
  is_action d "seek" = false ->
  is_action d "selectTrack" = false ->
  controlValid d = currentTimeFieldOk d.
Proof.
  intros H1 H2. unfold controlValid, currentTimeFieldOk. rewrite H1, H2.
  destruct (strict_eq (c_currentTime d) JUndefined);
    destruct (Validate.validateCurrentTime (c_currentTime d)); reflexivity.
Qed.

Lemma is_action_inj d a b :
  is_action d a = true -> a <> b -> is_action d b = false.
Proof.
  unfold is_action. destruct (action d); try discriminate. simpl.
  intros Ha Hne. apply String.eqb_eq in Ha. subst.
  now apply String.eqb_neq.
Qed.

Lemma applyControl_rate cfg now d vs :
  is_action d "rate" = true ->
  applyControl cfg now d vs
  = Some (mkVideoState (isPlaying (consolidateTime now vs))
                       (currentTime (consolidateTime now vs))
                       (lastUpdate (consolidateTime now vs))
                       (audioTrack (consolidateTime now vs))
                       (subtitleTrack (consolidateTime now vs))
                       (c_rate d)).
Proof.
  intros Hrate. unfold applyControl, is_action in *.
  destruct (action d) as [| | | | a |]; try discriminate.
  simpl in Hrate. apply String.eqb_eq in Hrate. subst a. reflexivity.
Qed.

(** C3 as stated fails: at the legacy boot state the off-grid rates 3.25
    and 0.24 replace the stored rate 1. *)
Lemma C3_off_grid_rate_is_stored :
  onRateGrid (Some (Scenario.q 13 4)) = false
  /\ onRateGrid (Some (Scenario.q 24 100)) = false
  /\ playbackRate (g_videoState (bootServer 0)) = Some (ofZ 1)
  /\ playbackRate
       (g_videoState
          (fst (control Scenario.legacy 1000 "v1"
                        (Some (Scenario.setRate (Scenario.q 13 4))) (bootServer 0))))
     = Some (Scenario.q 13 4)
  /\ playbackRate
       (g_videoState
          (fst (control Scenario.legacy 1000 "v1"
                        (Some (Scenario.setRate (Scenario.q 24 100))) (bootServer 0))))
     = Some (Scenario.q 24 100)
  /\ Some (Scenario.q 13 4) <> Some (ofZ 1)
  /\ Some (Scenario.q 24 100) <> Some (ofZ 1).
Proof.
  repeat split; discriminate.
Qed.

(** C3 (amended): a [rate] event that passes the listener's gates is never
    checked against the grid: the state is consolidated, the received rate
    is stored as it came, and one [sync] carrying the result is broadcast. *)
Theorem C3_rate_stored_as_sent
    (cfg : config) (now : Z) (sid : string) (d : controlData) (st : server)
    (vs : videoState)
    (Hrate : is_action d "rate" = true)
    (Hfield : currentTimeFieldOk d = true)
    (Hadm : controlAdmitted cfg st sid d = true)
    (Htarget : controlTarget cfg st sid = Some vs) :
  let s := consolidateTime now vs in
  let vs' := mkVideoState (isPlaying s) (currentTime s) (lastUpdate s)
                          (audioTrack s) (subtitleTrack s) (c_rate d) in
  controlTarget cfg (fst (control cfg now sid (Some d) st)) sid = Some vs'
  /\ snd (control cfg now sid (Some d) st)
     = [mkEmission (controlAudience cfg st sid) "sync" (PSync vs')].
Proof.
  intros s vs'.
  apply control_admitted with (vs := vs); try assumption.
  - rewrite controlValid_plain; [exact Hfield | |];
      apply (is_action_inj d "rate"); (exact Hrate || discriminate).
  - now apply applyControl_rate.
Qed.

(** C3 (amended) at the grid ends and just outside: 0.25, 3.0, 0.24 and
    3.25 are all stored. *)
Lemma C3_rate_stored_as_sent_witness :
  let stored r :=
    playbackRate <$>
      controlTarget Scenario.legacy
        (fst (control Scenario.legacy 1000 "v1" (Some (Scenario.setRate r))
                      (bootServer 0))) "v1" in
  stored (Scenario.q 1 4) = Some (Some (Scenario.q 1 4))
  /\ stored (ofZ 3) = Some (Some (ofZ 3))
  /\ stored (Scenario.q 24 100) = Some (Some (Scenario.q 24 100))
  /\ stored (Scenario.q 13 4) = Some (Some (Scenario.q 13 4)).
Proof.
  cbv beta zeta.
  rewrite (proj1 (C3_rate_stored_as_sent Scenario.legacy 1000 "v1"
                    (Scenario.setRate (Scenario.q 1 4)) (bootServer 0)
                    (initialVideoState 0) eq_refl eq_refl eq_refl eq_refl)).
  rewrite (proj1 (C3_rate_stored_as_sent Scenario.legacy 1000 "v1"
                    (Scenario.setRate (ofZ 3)) (bootServer 0)
                    (initialVideoState 0) eq_refl eq_refl eq_refl eq_refl)).
  rewrite (proj1 (C3_rate_stored_as_sent Scenario.legacy 1000 "v1"
                    (Scenario.setRate (Scenario.q 24 100)) (bootServer 0)
                    (initialVideoState 0) eq_refl eq_refl eq_refl eq_refl)).
  rewrite (proj1 (C3_rate_stored_as_sent Scenario.legacy 1000 "v1"
                    (Scenario.setRate (Scenario.q 13 4)) (bootServer 0)
                    (initialVideoState 0) eq_refl eq_refl eq_refl eq_refl)).
  repeat split.
Defined.

(** ** The authorisation middleware *)

Lemma adminOnlyListed_gated ev :
  In ev adminOnlyListed ->
  includes ADMIN_ONLY_EVENTS ev = true
  /\ String.eqb ev "create-room" = false
  /\ String.eqb ev "bsl-admin-register" = false.
Proof.
  unfold adminOnlyListed. simpl.
  intros H. repeat (destruct H as [<- | H]; [repeat split |]). destruct H.
Qed.

Lemma isSocketAdmin_server cfg st sid :
  SERVER_MODE cfg = true ->
  isSocketAdmin cfg st sid = true <->
  exists c room, roomCodeOf st sid = Some c /\ getRoom st c = Some room
                 /\ adminSocketId room = Some sid.
Proof.
  intros Hmode. unfold isSocketAdmin. rewrite Hmode. split.
  - destruct (roomCodeOf st sid) as [c |]; [| discriminate].
    destruct (getRoom st c) as [room |] eqn:Hroom; [| discriminate].
    unfold is_socket.
    destruct (adminSocketId room) as [a |] eqn:Hadm; [| discriminate].
    intros H. apply String.eqb_eq in H. subst. exists c, room. auto.
  - intros (c & room & -> & -> & Hadm). unfold is_socket. rewrite Hadm.
    apply String.eqb_refl.
Qed.

Lemma isSocketAdmin_legacy cfg st sid :
  SERVER_MODE cfg = false ->
  isSocketAdmin cfg st sid = false <->
  ADMIN_FINGERPRINT_LOCK cfg = true /\ sid ∉ verifiedAdminSockets st.
Proof.
  intros Hmode. unfold isSocketAdmin. rewrite Hmode.
  destruct (ADMIN_FINGERPRINT_LOCK cfg); simpl.
  - rewrite bool_decide_eq_false. tauto.
  - split; [discriminate | intros [? _]; discriminate].
Qed.

Lemma isSocketAdmin_lock_off cfg st sid :
  SERVER_MODE cfg = false -> ADMIN_FINGERPRINT_LOCK cfg = false ->
  isSocketAdmin cfg st sid = true.
Proof. intros Hmode Hlock. unfold isSocketAdmin. now rewrite Hmode, Hlock. Qed.

(** C6 as stated fails: in legacy mode with the fingerprint lock off (the
    defaults) a socket that never registered as admin, while another socket
    is the registered admin, gets [set-playlist] through to its listener,
    and the listener changes the playlist. *)
Lemma C6_unregistered_socket_sets_playlist :
  let st := Scenario.adminRegistered in
  let h := setPlaylist Scenario.legacy Scenario.noMetadata 1000 "v1"
                       Scenario.killPlaylist in
  In "set-playlist"%string adminOnlyListed
  /\ g_adminSocketId st = Some "a1"%string
  /\ ~ elem_of "v1"%string (verifiedAdminSockets st)
  /\ receive Scenario.legacy false false "v1" "set-playlist" h st = h st
  /\ currentIndex (PLAYLIST st) = JNum (ofZ (-1))
  /\ currentIndex (PLAYLIST (fst (receive Scenario.legacy false false "v1"
                                          "set-playlist" h st)))
     = JNum (ofZ 0).
Proof.
  split; [simpl; tauto |].
  split; [reflexivity |].
  split; [vm_compute; intros H; discriminate H |].
  repeat split.
Qed.

(** C6 (amended): a listed admin-only event from a socket for which
    [isSocketAdmin] is false never reaches its listener, whatever the
    listener is: the state is unchanged and the only emission is the error
    sent back to the sender.  [create-room] and [bsl-admin-register] reach
    their listener from any socket the rate limiter lets through. *)
Theorem C6_admin_events_gated
    (cfg : config) (isLocalhostSocket exhausted : bool)
    (sid eventName : string) (h : handler) (st : server) :
  (In eventName adminOnlyListed ->
   isSocketAdmin cfg st sid = false ->
   receive cfg isLocalhostSocket exhausted sid eventName h st
   = (st, blockedOutput isLocalhostSocket exhausted eventName))
  /\ (In eventName adminOpening ->
      (isLocalhostSocket || negb exhausted)%bool = true ->
      receive cfg isLocalhostSocket exhausted sid eventName h st = h st).
Proof.
  split.
  - intros Hin Hnot. apply adminOnlyListed_gated in Hin as (Hinc & Hc & Hr).
    unfold receive, rateLimitMiddleware, authMiddleware, blockedOutput.
    rewrite Hinc, Hc, Hr, Hnot.
    destruct isLocalhostSocket, exhausted; reflexivity.
  - intros Hin Hpass.
    unfold receive, rateLimitMiddleware, authMiddleware.
    destruct Hin as [<- | [<- | []]];
      destruct isLocalhostSocket, exhausted; try discriminate; reflexivity.
Qed.

(** C6 (amended) in a room: a viewer who is not the room's admin socket
    sends [set-playlist] and [delete-room]; both are blocked, and the
    playlist listener that would have emptied the playlist does not run. *)
Lemma C6_admin_events_gated_witness :
  let st := fst (createRoomListener 0 "a1" "ABC234" Scenario.newRoomRequest
                                    (bootServer 0)) in
  let h := setPlaylist Scenario.multi Scenario.noMetadata 1000 "v1"
                       Scenario.killPlaylist in
  receive Scenario.multi false false "v1" "set-playlist" h st
  = (st, blockedOutput false false "set-playlist")
  /\ receive Scenario.multi false false "v1" "delete-room" h st
     = (st, blockedOutput false false "delete-room").
Proof.
  intros st h. split.
  - apply (proj1 (C6_admin_events_gated Scenario.multi false false "v1"
                    "set-playlist" h st)).
    + simpl. tauto.
    + reflexivity.
  - apply (proj1 (C6_admin_events_gated Scenario.multi false false "v1"
                    "delete-room" h st)).
    + simpl. tauto.
    + reflexivity.
Defined.

(** ** CSRF *)

Lemma csrfProtection_safe now tokens req :
  In (Http.method req) ["GET"; "HEAD"; "OPTIONS"]%string ->
  Http.csrfProtection now tokens req = Http.Continue.
Proof.
  intros H. unfold Http.csrfProtection.
  destruct H as [<- | [<- | [<- | []]]]; reflexivity.
Qed.

(** The helper itself answers 403 to an unsafe method that carries no
    valid pair. *)
Lemma csrfProtection_forbids now tokens req :
  includes ["GET"; "HEAD"; "OPTIONS"]%string (Http.method req) = false ->
  (forall sid t,
      Http.cookie_sync_session req = Some sid ->
      Http.str_or (Http.header_x_csrf_token req) (Http.body_csrf req) = Some t ->
      Http.validateCsrfToken now tokens sid t = false) ->
  Http.csrfProtection now tokens req
  = Http.Answer (Http.mkResponse 403 (Http.BError "CSRF token validation failed")).
Proof.
  intros Hunsafe Hbad. unfold Http.csrfProtection. rewrite Hunsafe.
  destruct (Http.cookie_sync_session req) as [sid |]; [| reflexivity].
  destruct (Http.str_or _ _) as [t |]; [| reflexivity].
  rewrite (Hbad sid t eq_refl eq_refl).
  now rewrite !andb_false_r.
Qed.

(** C2 (code): a [POST /api/ffmpeg/run-preset] that carries the tools
    password but neither the session cookie nor a CSRF token is answered
    200 and appends a job, because the route's stack does not contain
    [csrfProtection]; the helper, had it been mounted, answers 403 to the
    same request. *)
Theorem C2_post_accepted_without_csrf_pair :
  let req := Scenario.presetWithoutToken in
  let st := Http.mkState ∅ 0 [] in
  let res := Http.postRunPreset Scenario.toolsHash Scenario.hashOf 1000 req st in
  Http.method req = "POST"%string
  /\ Http.cookie_sync_session req = None
  /\ Http.header_x_csrf_token req = None
  /\ Http.csrfProtection 1000 (Http.csrfTokens st) req
     = Http.Answer (Http.mkResponse 403 (Http.BError "CSRF token validation failed"))
  /\ Http.code (snd res) = 200%nat
  /\ Http.content (snd res) = Http.BJobStarted 1
  /\ Http.ffmpegJobCounter (fst res) = 1
  /\ length (Http.ffmpegJobs (fst res)) = 1%nat
  /\ fst res <> st.
Proof.
  repeat split. intros H. discriminate H.
Qed.

(** ** Drift *)

Lemma leb_ofZ (a b : Z) : leb (ofZ a) (ofZ b) = Z.leb a b.
Proof.
  unfold leb, ofZ, Qc_leb, Qle_bool. simpl. now rewrite !Z.mul_1_r.
Qed.

Lemma ofZ_inj (a b : Z) : ofZ a = ofZ b -> a = b.
Proof.
  intros H. injection H as H. exact H.
Qed.

Lemma num_eqb_eq (a b : num) : num_eqb a b = true -> a = b.
Proof.
  destruct a, b; simpl; try discriminate; try reflexivity.
  apply Fin_eq.
Qed.

Lemma validateDriftSeconds_int (z : Z) :
  Validate.validateDriftSeconds (JNum (ofZ z)) = (Z.leb (-60) z && Z.leb z 60)%bool.
Proof.
  cbv beta iota delta
      [Validate.validateDriftSeconds Validate.isInRange Validate.parsed geb].
  rewrite !leb_ofZ. reflexivity.
Qed.

Lemma driftRange_complete (z : Z) : -60 <= z <= 60 -> In z driftRange.
Proof.
  intros H. unfold driftRange. apply in_map_iff.
  exists (Z.to_nat (z + 60)). split; [lia | apply in_seq; lia].
Qed.

Lemma clampDrift_int (z : Z) :
  -60 <= z <= 60 -> clampDrift (JNum (ofZ z)) = ofZ z.
Proof.
  intros H. apply driftRange_complete in H.
  assert (HF : forallb (fun z => num_eqb (clampDrift (JNum (ofZ z))) (ofZ z))
                       driftRange = true) by (vm_compute; reflexivity).
  apply num_eqb_eq. exact (proj1 (forallb_forall _ _) HF z H).
Qed.

Lemma parseIntVal_int (v : jsval) :
  Validate.parseIntVal v = NaN \/ exists k, Validate.parseIntVal v = ofZ k.
Proof.
  destruct v as [| | b | n | s |]; simpl; auto.
  - destruct n; simpl; eauto.
  - unfold Validate.parseIntAuto.
    destruct (Validate.split_sign _) as [negative body].
    assert (Hs : forall r, Validate.signed negative r = NaN
                           \/ exists k, Validate.signed negative r = ofZ k).
    { intros r. unfold Validate.signed. destruct (snd r); eauto. }
    destruct (Validate.hex_prefix body); apply Hs.
Qed.

Lemma num_truthy_ofZ (k : Z) : num_truthy (ofZ k) = negb (Z.eqb k 0).
Proof.
  unfold num_truthy, ofZ, Qc_eqb, Qeq_bool. simpl.
  now rewrite Z.mul_1_r.
Qed.

(** Whatever passes validation, the value stored lies in [[-60, 60]]. *)
Lemma clampDrift_bounds (v : jsval) :
  exists k, clampDrift v = ofZ k /\ -60 <= k <= 60.
Proof.
  unfold clampDrift.
  assert (exists k, num_or (Some (Validate.parseIntVal v)) (ofZ 0) = ofZ k)
    as [k ->].
  { destruct (parseIntVal_int v) as [-> | [k ->]]; cbn [num_or num_truthy];
      [now exists 0 |].
    rewrite num_truthy_ofZ. destruct (Z.eqb k 0); eauto. }
  unfold min, max, ofZ. fold (ofZ 60) (ofZ k) (ofZ (-60)).
  rewrite leb_ofZ. destruct (Z.leb_spec 60 k).
  - fold (ofZ 60). rewrite leb_ofZ. simpl. exists 60. split; [reflexivity | lia].
  - fold (ofZ k). rewrite leb_ofZ. destruct (Z.leb_spec (-60) k).
    + exists k. split; [reflexivity | lia].
    + exists (-60). split; [reflexivity | lia].
Qed.

Lemma resolve_InRoom cfg adminOnly sid st c room :
  resolve cfg adminOnly sid st = Some (InRoom c room) ->
  SERVER_MODE cfg = true /\ roomCodeOf st sid = Some c /\ getRoom st c = Some room
  /\ (adminOnly && negb (is_socket (adminSocketId room) sid))%bool = false.
Proof.
  unfold resolve. destruct (SERVER_MODE cfg); [| discriminate].
  destruct (roomCodeOf st sid) as [c' |]; [| discriminate].
  destruct (getRoom st c') as [room' |] eqn:Hroom; [| discriminate].
  destruct (adminOnly && _)%bool eqn:Hadm; [discriminate |].
  intros H. injection H as -> ->. auto.
Qed.

Lemma resolve_Legacy cfg adminOnly sid st :
  resolve cfg adminOnly sid st = Some Legacy -> SERVER_MODE cfg = false.
Proof.
  unfold resolve. destruct (SERVER_MODE cfg); [| reflexivity].
  destruct (roomCodeOf st sid) as [c' |]; [| discriminate].
  destruct (getRoom st c') as [room' |]; [| discriminate].
  destruct (adminOnly && _)%bool; discriminate.
Qed.

Lemma resolve_putDrifts cfg adminOnly sid st s d :
  resolve cfg adminOnly sid st = Some s ->
  exists s', resolve cfg adminOnly sid (putDrifts st s d) = Some s'
             /\ scopeDrifts (putDrifts st s d) s' = d.
Proof.
  intros H. destruct s as [c room |].
  - apply resolve_InRoom in H as (Hmode & Hcode & Hroom & Hadm).
    exists (InRoom c (room_set_clientDriftValues room d)). split; [| reflexivity].
    unfold resolve, putDrifts.
    rewrite Hmode, roomCodeOf_update_room, Hcode, getRoom_update_room.
    simpl. now rewrite Hadm.
  - exists Legacy. split; [| reflexivity].
    apply resolve_Legacy in H. unfold resolve. now rewrite H.
Qed.

(** The listener on a payload that passes every guard. *)
Lemma bslSetDrift_accepted cfg sid d st s fp :
  resolve cfg true sid st = Some s ->
  fingerprintOf (dd_clientFingerprint d) = Some fp ->
  Validate.isValidInteger (dd_playlistIndex d) = true ->
  indexNegative (dd_playlistIndex d) = false ->
  Validate.validateDriftSeconds (dd_driftSeconds d) = true ->
  let row := <[indexKey (dd_playlistIndex d) := clampDrift (dd_driftSeconds d)]>
               (default ∅ (scopeDrifts st s !! fp)) in
  let st' := putDrifts st s (<[fp := row]> (scopeDrifts st s)) in
  bslSetDrift cfg sid (Some d) st
  = (st', driftNotices fp row (driftAudience cfg sid st)
          ++ sendBslStatusToAdmin cfg (scopeCode s) st').
Proof.
  intros Hres Hfp Hidx Hneg Hdrift row st'.
  unfold bslSetDrift, driftAudience. rewrite Hres, Hfp, Hidx, Hneg, Hdrift. simpl.
  destruct s as [c room |]; [| reflexivity].
  unfold putDrifts. rewrite getRoom_update_room. reflexivity.
Qed.

(** The listener on a payload whose drift fails validation. *)
Lemma bslSetDrift_rejected cfg sid d st :
  Validate.validateDriftSeconds (dd_driftSeconds d) = false ->
  bslSetDrift cfg sid (Some d) st = (st, []).
Proof.
  intros Hdrift. unfold bslSetDrift.
  destruct (resolve cfg true sid st); [| reflexivity].
  destruct (fingerprintOf _); [| reflexivity].
  destruct (negb _ || _)%bool; [reflexivity |].
  now rewrite Hdrift.
Qed.

(** C4 as stated fails: drift 75 and drift -100 for a valid fingerprint and
    index are dropped, so nothing is stored, where clamping would have
    stored 60 and -60. *)
Lemma C4_out_of_range_drift_is_dropped :
  let st := Scenario.adminRegistered in
  let high := bslSetDrift Scenario.legacy "a1" (Some (Scenario.driftOf 75)) st in
  let low := bslSetDrift Scenario.legacy "a1" (Some (Scenario.driftOf (-100))) st in
  clampDrift (JNum (ofZ 75)) = ofZ 60
  /\ clampDrift (JNum (ofZ (-100))) = ofZ (-60)
  /\ high = (st, [])
  /\ low = (st, [])
  /\ driftTableOf Scenario.legacy "a1" (fst high) = Some ∅
  /\ driftTableOf Scenario.legacy "a1" (fst low) = Some ∅.
Proof.
  repeat split.
Qed.

(** C4 (amended): for a valid fingerprint and playlist index, a drift that
    fails the range check, any integer outside [[-60, 60]] in particular,
    is dropped and stores nothing; an integer inside the range is stored as
    it is; and whatever passes the check, the value stored is an integer in
    [[-60, 60]]. *)
Theorem C4_drift_range_checked
    (cfg : config) (sid : string) (d : driftData) (st : server)
    (s : scope) (fp : string)
    (Hresolve : resolve cfg true sid st = Some s)
    (Hfp : fingerprintOf (dd_clientFingerprint d) = Some fp)
    (Hidx : Validate.isValidInteger (dd_playlistIndex d) = true)
    (Hnonneg : indexNegative (dd_playlistIndex d) = false) :
  let res := bslSetDrift cfg sid (Some d) st in
  let key := indexKey (dd_playlistIndex d) in
  (Validate.validateDriftSeconds (dd_driftSeconds d) = false -> res = (st, []))
  /\ (forall z, dd_driftSeconds d = JNum (ofZ z) -> z < -60 \/ 60 < z ->
      res = (st, []))
  /\ (forall z, dd_driftSeconds d = JNum (ofZ z) -> -60 <= z <= 60 ->
      exists table row,
        driftTableOf cfg sid (fst res) = Some table
        /\ table !! fp = Some row /\ row !! key = Some (ofZ z))
  /\ (Validate.validateDriftSeconds (dd_driftSeconds d) = true ->
      exists table row k,
        driftTableOf cfg sid (fst res) = Some table
        /\ table !! fp = Some row /\ row !! key = Some (ofZ k)
        /\ -60 <= k <= 60).
Proof.
  intros res key.
  assert (Hstored :
            Validate.validateDriftSeconds (dd_driftSeconds d) = true ->
            exists table row,
              driftTableOf cfg sid (fst res) = Some table
              /\ table !! fp = Some row
              /\ row !! key = Some (clampDrift (dd_driftSeconds d))).
  { intros Hok. unfold res.
    rewrite (bslSetDrift_accepted cfg sid d st s fp) by assumption.
    cbn [fst]. fold key.
    destruct (resolve_putDrifts cfg true sid st s
                (<[fp := <[key := clampDrift (dd_driftSeconds d)]>
                           (default ∅ (scopeDrifts st s !! fp))]> (scopeDrifts st s))
                Hresolve) as (s' & Hres' & Htable).
    eexists _, _. unfold driftTableOf. rewrite Hres'. simpl. rewrite Htable.
    split; [reflexivity |]. split; apply lookup_insert_eq. }
  split; [apply bslSetDrift_rejected |].
  split; [| split].
  - intros z Hz Hout. apply bslSetDrift_rejected.
    rewrite Hz, validateDriftSeconds_int.
    destruct (Z.leb_spec (-60) z), (Z.leb_spec z 60); simpl; try reflexivity; lia.
  - intros z Hz Hin.
    destruct Hstored as (table & row & Ht & Hr & Hk).
    { rewrite Hz, validateDriftSeconds_int.
      destruct (Z.leb_spec (-60) z), (Z.leb_spec z 60); simpl; try reflexivity; lia. }
    exists table, row. rewrite Hz, clampDrift_int in Hk by exact Hin. auto.
  - intros Hok. destruct (Hstored Hok) as (table & row & Ht & Hr & Hk).
    destruct (clampDrift_bounds (dd_driftSeconds d)) as (k & Hclamp & Hrange).
    exists table, row, k. rewrite Hclamp in Hk. auto.
Qed.

(** C4 (amended) at drift -3 for fingerprint [V1] and index 0, sent by the
    registered admin in legacy mode. *)
Lemma C4_drift_range_checked_witness :
  exists table row,
    driftTableOf Scenario.legacy "a1"
      (fst (bslSetDrift Scenario.legacy "a1" (Some (Scenario.driftOf (-3)))
                        Scenario.adminRegistered)) = Some table
    /\ table !! "F1"%string = Some row
    /\ row !! "0"%string = Some (ofZ (-3)).
Proof.
  apply (proj1 (proj2 (proj2
           (C4_drift_range_checked Scenario.legacy "a1" (Scenario.driftOf (-3))
              Scenario.adminRegistered Legacy "F1"
              eq_refl eq_refl eq_refl eq_refl))) (-3)).
  - reflexivity.
  - lia.
Defined.

Lemma strict_eq_str (v : jsval) (s : string) :
  strict_eq v (JStr s) = true -> v = JStr s.
Proof.
  destruct v; simpl; try discriminate.
  intros H. apply String.eqb_eq in H. now subst.
Qed.

Lemma fingerprintOf_str (v : jsval) (fp : string) :
  fingerprintOf v = Some fp -> v = JStr fp.
Proof.
  destruct v as [| | | | s |]; simpl; try discriminate.
  destruct (String.eqb s ""); [discriminate |]. now intros [= ->].
Qed.

Lemma sendBslStatusToAdmin_event cfg roomCode st e :
  e ∈ sendBslStatusToAdmin cfg roomCode st ->
  e_event e = "bsl-status-update"%string.
Proof.
  unfold sendBslStatusToAdmin.
  assert (Hreport : forall admin statuses drifts p,
             e ∈ match admin with
                 | None => []
                 | Some a =>
                     if String.eqb a "" then []
                     else
                       [mkEmission (To a) "bsl-status-update"
                          (PBslStatus (BSL_S2_MODE cfg)
                             (statusRow st drifts <$> statuses)
                             (videoRow cfg statuses <$>
                                (Z.of_nat <$> seq 0 (length (videos p)))))]
                 end ->
             e_event e = "bsl-status-update"%string).
  { intros [a |] statuses drifts p; [| intros H; inversion H].
    destruct (String.eqb a ""); intros H; [inversion H |].
    apply list_elem_of_singleton in H. now subst. }
  destruct (SERVER_MODE cfg); [| apply Hreport].
  destruct roomCode as [c |]; [| apply Hreport].
  destruct (String.eqb c ""); [apply Hreport |].
  destruct (getRoom st c); [apply Hreport | intros H; inversion H].
Qed.

Lemma driftNotices_elem fp row cs e :
  e ∈ driftNotices fp row cs ->
  exists sock info,
    (sock, info) ∈ cs /\ fingerprint info = JStr fp
    /\ e = mkEmission (To sock) "bsl-drift-update" (PDriftUpdate row).
Proof.
  unfold driftNotices. rewrite list_elem_of_omap.
  intros ([sock info] & Hin & Hf). simpl in Hf.
  destruct (strict_eq (fingerprint info) (JStr fp)) eqn:Heq; [| discriminate].
  injection Hf as <-. exists sock, info. split; [exact Hin |].
  split; [now apply strict_eq_str | reflexivity].
Qed.

Lemma driftNotices_complete fp row cs sock info :
  (sock, info) ∈ cs -> fingerprint info = JStr fp ->
  mkEmission (To sock) "bsl-drift-update" (PDriftUpdate row)
    ∈ driftNotices fp row cs.
Proof.
  intros Hin Hfp. unfold driftNotices. rewrite list_elem_of_omap.
  exists (sock, info). split; [exact Hin |]. simpl. rewrite Hfp. simpl.
  now rewrite String.eqb_refl.
Qed.

(** Writing a drift table leaves every playback state and playlist as it
    was. *)
Lemma putDrifts_frame cfg adminOnly sid st s d :
  resolve cfg adminOnly sid st = Some s ->
  g_videoState (putDrifts st s d) = g_videoState st
  /\ PLAYLIST (putDrifts st s d) = PLAYLIST st
  /\ (forall c, r_videoState <$> (rooms (putDrifts st s d) !! c)
                = r_videoState <$> (rooms st !! c))
  /\ (forall c, r_playlist <$> (rooms (putDrifts st s d) !! c)
                = r_playlist <$> (rooms st !! c)).
Proof.
  intros H. destruct s as [code room |]; [| repeat split].
  apply resolve_InRoom in H as (_ & _ & Hroom & _). unfold getRoom in Hroom.
  split; [reflexivity |]. split; [reflexivity |].
  split; intros c; unfold putDrifts, update_room; simpl;
    rewrite lookup_insert; case_decide; subst; try reflexivity;
    now rewrite Hroom.
Qed.

(** C9: a [bsl-set-drift] emits [bsl-drift-update] only to sockets that the
    sender's room (the registered clients in legacy mode) lists with the
    fingerprint of the payload, each carrying that fingerprint's updated
    row; and no playback state and no playlist, in any room or in the
    legacy globals, changes. *)
Theorem C9_drift_update_is_targeted
    (cfg : config) (sid : string) (data : option driftData) (st : server) :
  let res := bslSetDrift cfg sid data st in
  (forall e, e ∈ snd res -> e_event e = "bsl-drift-update"%string ->
     exists d fp sock info row,
       data = Some d /\ dd_clientFingerprint d = JStr fp
       /\ (sock, info) ∈ driftAudience cfg sid st
       /\ fingerprint info = JStr fp
       /\ e = mkEmission (To sock) "bsl-drift-update" (PDriftUpdate row)
       /\ (driftTableOf cfg sid (fst res) ≫= (.!! fp)) = Some row)
  /\ g_videoState (fst res) = g_videoState st
  /\ PLAYLIST (fst res) = PLAYLIST st
  /\ (forall c, r_videoState <$> (rooms (fst res) !! c)
                = r_videoState <$> (rooms st !! c))
  /\ (forall c, r_playlist <$> (rooms (fst res) !! c)
                = r_playlist <$> (rooms st !! c)).
Proof.
  intros res.
  assert (Hdropped : res = (st, []) ->
            (forall e, e ∈ snd res -> e_event e = "bsl-drift-update"%string ->
               exists d fp sock info row,
                 data = Some d /\ dd_clientFingerprint d = JStr fp
                 /\ (sock, info) ∈ driftAudience cfg sid st
                 /\ fingerprint info = JStr fp
                 /\ e = mkEmission (To sock) "bsl-drift-update" (PDriftUpdate row)
                 /\ (driftTableOf cfg sid (fst res) ≫= (.!! fp)) = Some row)
            /\ g_videoState (fst res) = g_videoState st
            /\ PLAYLIST (fst res) = PLAYLIST st
            /\ (forall c, r_videoState <$> (rooms (fst res) !! c)
                          = r_videoState <$> (rooms st !! c))
            /\ (forall c, r_playlist <$> (rooms (fst res) !! c)
                          = r_playlist <$> (rooms st !! c))).
  { intros ->. simpl. split; [intros e H; inversion H | repeat split]. }
  destruct data as [d |]; [| now apply Hdropped].
  destruct (resolve cfg true sid st) as [s |] eqn:Hres;
    [| apply Hdropped; unfold res, bslSetDrift; now rewrite Hres].
  destruct (fingerprintOf (dd_clientFingerprint d)) as [fp |] eqn:Hfp;
    [| apply Hdropped; unfold res, bslSetDrift; now rewrite Hres, Hfp].
  destruct (Validate.isValidInteger (dd_playlistIndex d)) eqn:Hidx;
    [| apply Hdropped; unfold res, bslSetDrift; now rewrite Hres, Hfp, Hidx].
  destruct (indexNegative (dd_playlistIndex d)) eqn:Hneg;
    [apply Hdropped; unfold res, bslSetDrift; now rewrite Hres, Hfp, Hidx, Hneg |].
  destruct (Validate.validateDriftSeconds (dd_driftSeconds d)) eqn:Hdrift;
    [| apply Hdropped; now apply bslSetDrift_rejected].
  clear Hdropped. unfold res.
  rewrite (bslSetDrift_accepted cfg sid d st s fp) by assumption.
  cbn [fst snd].
  set (row := <[indexKey (dd_playlistIndex d) := clampDrift (dd_driftSeconds d)]>
                (default ∅ (scopeDrifts st s !! fp))).
  set (table := <[fp := row]> (scopeDrifts st s)).
  apply fingerprintOf_str in Hfp.
  split.
  - intros e Hin Hev. apply elem_of_app in Hin as [Hin | Hin].
    + apply driftNotices_elem in Hin as (sock & info & Hc & Hi & ->).
      exists d, fp, sock, info, row. repeat split; try assumption.
      destruct (resolve_putDrifts cfg true sid st s table Hres)
        as (s' & Hres' & Htable).
      unfold driftTableOf. rewrite Hres'. simpl. rewrite Htable.
      apply lookup_insert_eq.
    + apply sendBslStatusToAdmin_event in Hin. rewrite Hin in Hev. discriminate.
  - now apply (putDrifts_frame cfg true sid).
Qed.

(** ** BSL matching *)

Lemma map_get_map_set {V : Type} (k : string) (v : V) (m : list (string * V)) :
  map_get k (map_set k v m) = Some v.
Proof.
  induction m as [| [k' v'] m IH]; simpl.
  - now rewrite String.eqb_refl.
  - destruct (String.eqb k' k) eqn:Heq; simpl.
    + now rewrite String.eqb_refl.
    + now rewrite Heq.
Qed.

Lemma statusOf_putBslStatus cfg adminOnly sid viewer st s status :
  resolve cfg adminOnly sid st = Some s ->
  statusOf cfg adminOnly sid viewer
           (putBslStatus st s (map_set viewer status (scopeBslStatus st s)))
  = Some status.
Proof.
  intros H. unfold statusOf. destruct s as [c room |].
  - apply resolve_InRoom in H as (Hmode & Hcode & Hroom & Hadm).
    unfold resolve, putBslStatus.
    rewrite Hmode, roomCodeOf_update_room, Hcode, getRoom_update_room.
    simpl. rewrite Hadm. simpl. apply map_get_map_set.
  - apply resolve_Legacy in H. unfold resolve. rewrite H. simpl.
    apply map_get_map_set.
Qed.

(** C8: the code stores a manual match for an index that names no
    playlist entry.  The playlist holds [Movie.mkv] alone and viewer [v1]
    has reported its folder, which gave it the match [0 -> "movie.mkv"].
    The admin's [bsl-manual-match] of that file to index 5 puts
    [5 -> "movie.mkv"] in the viewer's map as well: the listener assigns
    before it looks whether [videos[playlistIndex]] exists, a test it
    makes only to decide whether to persist.  Nothing is persisted, the
    viewer is told of 2 matches for a playlist of 1, and since 5 is no
    index of the playlist nothing can explain the entry. *)
Theorem C8_manual_match_stores_an_invalid_index :
  let st := match bslFolderSelected Scenario.legacy Scenario.sizes "v1"
                                    Scenario.folder Scenario.movieLaunched with
            | Some (st, _) => st
            | None => Scenario.movieLaunched
            end in
  let data := mkManualMatchData "v1" "movie.mkv" 5 in
  let st' := fst (bslManualMatch Scenario.legacy "a1" data st) in
  length (videos (PLAYLIST st)) = 1%nat
  /\ videos (PLAYLIST st') = videos (PLAYLIST st)
  /\ (statusOf Scenario.legacy true "a1" "v1" st ≫= fun s => matchedVideos s !! 5)
     = None
  /\ (statusOf Scenario.legacy true "a1" "v1" st' ≫= fun s => matchedVideos s !! 5)
     = Some "movie.mkv"%string
  /\ persistentBslMatches st' = persistentBslMatches st
  /\ (exists matched,
        In (mkEmission (To "v1") "bsl-match-result" (PMatchResult matched 2 1))
           (snd (bslManualMatch Scenario.legacy "a1" data st)))
  /\ forall (own : gmap string string) (fs : list clientFile),
       ~ explained Scenario.legacy Scenario.sizes own (videos (PLAYLIST st')) fs
                   5 "movie.mkv".
Proof.
  cbv zeta.
  split; [reflexivity |]. split; [reflexivity |]. split; [reflexivity |].
  split; [reflexivity |]. split; [reflexivity |].
  split; [eexists; left; reflexivity |].
  intros own fs (v & cf & _ & Hv & _). vm_compute in Hv. discriminate.
Qed.

(** ** Scenarios of the specification, evaluated *)

(** S2: playing from position 30 at rate 1, the rate becomes 2 four seconds
    later; two more seconds on, consolidation yields 30 + 1*4 + 2*2 = 38. *)
Example S2_rate_change_recovers :
  let start := mkVideoState (JBool true) (Some (ofZ 30)) 0 (JNum (ofZ 0))
                            (JNum (ofZ (-1))) (Some (ofZ 1)) in
  (applyControl Scenario.legacy 4000 (Scenario.setRate (ofZ 2)) start
     ≫= fun vs => currentTime (consolidateTime 6000 vs))
  = Some (ofZ 38).
Proof. num_refl. Qed.

(** S3: after the drift of fingerprint [F1] is set to -3 for item 0, the
    socket registered with [F1] is sent [{0: -3}] and the socket registered
    with another fingerprint is sent nothing. *)
Example S3_drift_reaches_its_viewer_only :
  let st := mkServer ∅ ∅ emptyPlaylist (initialVideoState 0) [] (Some "a1"%string)
                     {["a1"%string]}
                     [("v1"%string, mkClientInfo (JStr "F1") "" 0);
                      ("v2"%string, mkClientInfo (JStr "F2") "" 0)] ∅ ∅ ∅ None in
  List.filter (fun e => String.eqb (e_event e) "bsl-drift-update")
              (snd (bslSetDrift Scenario.legacy "a1" (Some (Scenario.driftOf (-3))) st))
  = [mkEmission (To "v1") "bsl-drift-update"
       (PDriftUpdate {["0"%string := ofZ (-3)]})].
Proof. reflexivity. Qed.

(** [parseInt] on numbers and strings at the corners the drift listener
    can meet. *)
Example parseInt_corners :
  Validate.parseIntNum (Scenario.q 597 10) = ofZ 59
  /\ Validate.parseIntNum (Scenario.q (-5) 10) = ofZ 0
  /\ Validate.parseIntNum (Scenario.q 5 100000000) = ofZ 5
  /\ Validate.parseIntAuto "  0x64zz" = ofZ 100
  /\ Validate.parseInt10 "0x64" = ofZ 0
  /\ Validate.parseInt10 "-12abc" = ofZ (-12)
  /\ Validate.parseInt10 "abc" = NaN.
Proof. repeat split. Qed.

(** A string drift that passes the decimal range check and parses to 100
    in radix 16 is where the clamp does act. *)
Example drift_hex_string_is_clamped :
  Validate.validateDriftSeconds (JStr "0x64") = true
  /\ clampDrift (JStr "0x64") = ofZ 60.
Proof. repeat split. Qed.

(** * Further properties *)

(** ** More on the clock *)

Lemma elapsed_seconds_same (now : Z) : elapsed_seconds now now = Q2Qc 0.
Proof.
  unfold elapsed_seconds. rewrite Z.sub_diag. apply Qc_is_canon. reflexivity.
Qed.

Lemma Qc_ltb_irrefl (a : Qc) : Qc_ltb a a = false.
Proof.
  unfold Qc_ltb. apply negb_false_iff. apply Qle_bool_iff. apply Qle_refl.
Qed.

Lemma elapsed_not_pos (now last : Z) :
  now <= last -> Qc_ltb (Q2Qc 0) (elapsed_seconds now last) = false.
Proof.
  intros H. unfold Qc_ltb. apply negb_false_iff. apply Qle_bool_iff.
  change (elapsed_seconds now last <= Q2Qc 0)%Qc.
  unfold elapsed_seconds, Qcdiv.
  replace (Q2Qc 0) with (Q2Qc 0 * / Qc_of_Z 1000)%Qc by apply Qcmult_0_l.
  apply Qcmult_le_compat_r.
  - unfold Qcle. simpl. unfold Qle. simpl. lia.
  - unfold Qcle. vm_compute. discriminate.
Qed.

(** X1: consolidating twice at the same instant is consolidating once. *)
Theorem X1_consolidateTime_idempotent (now : Z) (state : videoState) :
  consolidateTime now (consolidateTime now state) = consolidateTime now state.
Proof.
  unfold consolidateTime at 1 3. 
  destruct (truthy (isPlaying state)) eqn:Hplay.
  - unfold consolidateTime. rewrite Hplay. cbn [isPlaying lastUpdate currentTime audioTrack subtitleTrack playbackRate].
    rewrite Hplay, Z.ltb_irrefl, elapsed_seconds_same.
    change (Qc_ltb 0%Qc (Q2Qc 0)) with false. reflexivity.
  - unfold consolidateTime. rewrite Hplay. cbn [isPlaying lastUpdate currentTime audioTrack subtitleTrack playbackRate].
    rewrite Hplay. reflexivity.
Qed.

Lemma Qc_of_Z_1 : Qc_of_Z 1 = Q2Qc 1.
Proof. apply Qc_is_canon. reflexivity. Qed.

Lemma elapsed_nonneg (now last : Z) :
  last <= now -> (Q2Qc 0 <= elapsed_seconds now last)%Qc.
Proof.
  intros H. destruct (Z.eq_dec last now) as [-> | Hne].
  - rewrite elapsed_seconds_same. apply Qcle_refl.
  - apply Qclt_le_weak, elapsed_pos. lia.
Qed.

(** A playing state with a finite position and a finite effective rate,
    consolidated at or after its anchor. *)
Lemma consolidateTime_playing (now : Z) (vs : videoState) (p r : Qc) :
  truthy (isPlaying vs) = true ->
  currentTime vs = Some (Fin p) ->
  num_or (playbackRate vs) (ofZ 1) = Fin r ->
  lastUpdate vs <= now ->
  consolidateTime now vs
  = mkVideoState (isPlaying vs)
      (Some (Fin (p + elapsed_seconds now (lastUpdate vs) * r)%Qc)) now
      (audioTrack vs) (subtitleTrack vs) (playbackRate vs).
Proof.
  intros Hplay Htime Hrate Hle. unfold consolidateTime.
  rewrite Hplay, Htime, Hrate.
  assert (Z.ltb now (lastUpdate vs) = false) as -> by (apply Z.ltb_ge; lia).
  destruct (Qc_ltb 0%Qc (elapsed_seconds now (lastUpdate vs))) eqn:Hpos.
  - reflexivity.
  - destruct (Z.eq_dec (lastUpdate vs) now) as [Heq | Hne].
    + rewrite Heq, elapsed_seconds_same. do 3 f_equal. ring.
    + assert (Hlt : lastUpdate vs < now) by lia.
      apply elapsed_pos, Qc_ltb_lt in Hlt. congruence.
Qed.

(** A state consolidated before its anchor (the clock went back) or while
    paused keeps its position. *)
Lemma consolidateTime_keeps (now : Z) (vs : videoState) :
  truthy (isPlaying vs) = false \/ now <= lastUpdate vs ->
  currentTime (consolidateTime now vs) = currentTime vs.
Proof.
  intros H. unfold consolidateTime.
  destruct (truthy (isPlaying vs)); [| reflexivity].
  destruct H as [H | H]; [discriminate |]. cbn [currentTime].
  destruct (Z.ltb_spec now (lastUpdate vs)).
  - now rewrite elapsed_seconds_same, Qc_ltb_irrefl.
  - now rewrite elapsed_not_pos by lia.
Qed.

(** X2: whatever the clock did, consolidation never moves a finite position
    backwards when the effective rate is finite and not negative. *)
Theorem X2_consolidateTime_monotone
    (now : Z) (vs : videoState) (p r : Qc)
    (Htime : currentTime vs = Some (Fin p))
    (Hrate : num_or (playbackRate vs) (ofZ 1) = Fin r)
    (Hpos : (Q2Qc 0 <= r)%Qc) :
  exists p', currentTime (consolidateTime now vs) = Some (Fin p') /\ (p <= p')%Qc.
Proof.
  destruct (truthy (isPlaying vs)) eqn:Hplay.
  - destruct (Z.le_gt_cases (lastUpdate vs) now) as [Hle | Hgt].
    + rewrite (consolidateTime_playing now vs p r) by assumption.
      eexists. split; [reflexivity |].
      rewrite <- (Qcplus_0_r p) at 1. apply Qcplus_le_compat; [apply Qcle_refl |].
      rewrite <- (Qcmult_0_l r). apply Qcmult_le_compat_r; [| exact Hpos].
      now apply elapsed_nonneg.
    + rewrite consolidateTime_keeps by (right; lia).
      exists p. split; [exact Htime | apply Qcle_refl].
  - rewrite consolidateTime_keeps by now left.
    exists p. split; [exact Htime | apply Qcle_refl].
Qed.

Lemma X2_consolidateTime_monotone_witness :
  exists p',
    currentTime (consolidateTime (-500) Scenario.doubleSpeed) = Some (Fin p')
    /\ (Qc_of_Z 0 <= p')%Qc.
Proof.
  apply (X2_consolidateTime_monotone (-500) Scenario.doubleSpeed
           (Qc_of_Z 0) (Qc_of_Z 2)).
  - reflexivity.
  - reflexivity.
  - discriminate.
Defined.

Lemma applyControl_playpause cfg now d vs :
  is_action d "playpause" = true ->
  applyControl cfg now d vs
  = Some (mkVideoState (c_state d)
                       (currentTime (consolidateTime now vs))
                       (lastUpdate (consolidateTime now vs))
                       (audioTrack (consolidateTime now vs))
                       (subtitleTrack (consolidateTime now vs))
                       (playbackRate (consolidateTime now vs))).
Proof.
  intros Hact. unfold applyControl, is_action in *.
  destruct (action d) as [| | | | a |]; try discriminate.
  simpl in Hact. apply String.eqb_eq in Hact. subst a. reflexivity.
Qed.

Lemma consolidateTime_lastUpdate now vs : lastUpdate (consolidateTime now vs) = now.
Proof. unfold consolidateTime. now destruct (truthy (isPlaying vs)). Qed.

Lemma consolidateTime_isPlaying now vs :
  isPlaying (consolidateTime now vs) = isPlaying vs.
Proof. unfold consolidateTime. now destruct (truthy (isPlaying vs)). Qed.

(** The consolidated position is a function of the play flag, the
    position, the anchor and the rate. *)
Lemma consolidateTime_position_of (now : Z) (a b : videoState) :
  isPlaying a = isPlaying b -> currentTime a = currentTime b ->
  lastUpdate a = lastUpdate b -> playbackRate a = playbackRate b ->
  currentTime (consolidateTime now a) = currentTime (consolidateTime now b).
Proof.
  intros Hp Ht Hl Hr. unfold consolidateTime. rewrite Hp, Ht, Hl, Hr.
  now destruct (truthy (isPlaying b)).
Qed.

(** X3: a rate change applies from the instant it arrives.  The control
    consolidates the position at [t1] under the rate in force until
    then, stores the received rate as it is, anchors the clock at [t1]
    and leaves the play flag alone; consolidating once more at [t1] adds
    nothing; and the position at a later instant [t2] depends on the
    earlier state only through its play flag and its position
    consolidated at [t1], so the earlier rate has no part in what is
    counted after [t1]. *)
Theorem X3_rate_change_applies_from_its_arrival
    (cfg : config) (t1 t2 : Z) (d : controlData) (vs : videoState)
    (Hrate : is_action d "rate" = true) :
  exists vs1,
    applyControl cfg t1 d vs = Some vs1
    /\ playbackRate vs1 = c_rate d
    /\ currentTime vs1 = currentTime (consolidateTime t1 vs)
    /\ lastUpdate vs1 = t1
    /\ isPlaying vs1 = isPlaying vs
    /\ currentTime (consolidateTime t1 vs1) = currentTime vs1
    /\ forall vs' : videoState,
         isPlaying vs' = isPlaying vs ->
         currentTime (consolidateTime t1 vs') = currentTime (consolidateTime t1 vs) ->
         exists vs1',
           applyControl cfg t1 d vs' = Some vs1'
           /\ currentTime (consolidateTime t2 vs1')
              = currentTime (consolidateTime t2 vs1).
Proof.
  rewrite applyControl_rate by exact Hrate. eexists. split; [reflexivity |].
  cbn [playbackRate currentTime lastUpdate isPlaying].
  split; [reflexivity |]. split; [reflexivity |].
  split; [exact (consolidateTime_lastUpdate t1 vs) |].
  split; [exact (consolidateTime_isPlaying t1 vs) |].
  split.
  { match goal with |- currentTime (consolidateTime _ ?V) = _ =>
      rewrite (consolidateTime_keeps t1 V) end; [reflexivity |].
    right. cbn [lastUpdate]. rewrite consolidateTime_lastUpdate. lia. }
  intros vs' Hplay Htime.
  rewrite applyControl_rate by exact Hrate. eexists. split; [reflexivity |].
  apply consolidateTime_position_of; cbn [isPlaying currentTime lastUpdate playbackRate].
  - now rewrite !consolidateTime_isPlaying.
  - exact Htime.
  - now rewrite !consolidateTime_lastUpdate.
  - reflexivity.
Qed.

(** Scenario S2 of the specification: playing from 30 s at rate 1, the
    rate set to 2 after 4 s, read 2 s later. *)
Lemma X3_rate_change_applies_from_its_arrival_witness :
  let vs := mkVideoState (JBool true) (Some (ofZ 30)) 0 (JNum (ofZ 0))
                         (JNum (ofZ (-1))) (Some (ofZ 1)) in
  let d := Scenario.setRate (ofZ 2) in
  exists vs1,
    applyControl Scenario.legacy 4000 d vs = Some vs1
    /\ playbackRate vs1 = c_rate d
    /\ currentTime vs1 = currentTime (consolidateTime 4000 vs)
    /\ lastUpdate vs1 = 4000
    /\ isPlaying vs1 = isPlaying vs
    /\ currentTime (consolidateTime 4000 vs1) = currentTime vs1
    /\ forall vs' : videoState,
         isPlaying vs' = isPlaying vs ->
         currentTime (consolidateTime 4000 vs')
         = currentTime (consolidateTime 4000 vs) ->
         exists vs1',
           applyControl Scenario.legacy 4000 d vs' = Some vs1'
           /\ currentTime (consolidateTime 6000 vs1')
              = currentTime (consolidateTime 6000 vs1).
Proof.
  apply (X3_rate_change_applies_from_its_arrival Scenario.legacy 4000 6000
           (Scenario.setRate (ofZ 2))
           (mkVideoState (JBool true) (Some (ofZ 30)) 0 (JNum (ofZ 0))
                         (JNum (ofZ (-1))) (Some (ofZ 1)))).
  reflexivity.
Defined.

(** X4: time spent paused is never counted.  After a pause at [t1] and a
    later [playpause] at [t2], the position is the one consolidated at
    [t1] and the anchor is [t2], whatever [t2] is. *)
Theorem X4_pause_freezes_position
    (cfg : config) (t1 t2 : Z) (pause resume : controlData) (vs : videoState)
    (Hpause : is_action pause "playpause" = true)
    (Hoff : truthy (c_state pause) = false)
    (Hresume : is_action resume "playpause" = true) :
  exists vs1 vs2,
    applyControl cfg t1 pause vs = Some vs1
    /\ applyControl cfg t2 resume vs1 = Some vs2
    /\ currentTime vs1 = currentTime (consolidateTime t1 vs)
    /\ currentTime vs2 = currentTime (consolidateTime t1 vs)
    /\ lastUpdate vs2 = t2
    /\ isPlaying vs2 = c_state resume.
Proof.
  rewrite (applyControl_playpause cfg t1 pause vs) by exact Hpause.
  eexists. eexists. split; [reflexivity |].
  rewrite applyControl_playpause by exact Hresume.
  split; [reflexivity |]. split; [reflexivity |].
  cbn [currentTime lastUpdate isPlaying].
  split; [| split; [apply consolidateTime_lastUpdate | reflexivity]].
  now rewrite consolidateTime_keeps by (left; exact Hoff).
Qed.

Lemma X4_pause_freezes_position_witness :
  exists vs1 vs2,
    applyControl Scenario.legacy 4000 (Scenes.playPause false) Scenario.doubleSpeed
    = Some vs1
    /\ applyControl Scenario.legacy 90000 (Scenes.playPause true) vs1 = Some vs2
    /\ currentTime vs2 = currentTime (consolidateTime 4000 Scenario.doubleSpeed)
    /\ lastUpdate vs2 = 90000.
Proof.
  destruct (X4_pause_freezes_position Scenario.legacy 4000 90000
              (Scenes.playPause false) (Scenes.playPause true)
              Scenario.doubleSpeed eq_refl eq_refl eq_refl)
    as (vs1 & vs2 & H1 & H2 & _ & H3 & H4 & _).
  exists vs1, vs2. auto.
Defined.

(** X5: on a playing state whose effective rate is 1, a tick after the
    anchor does exactly what [consolidateTime] does. *)
Theorem X5_tick_agrees_at_unit_rate
    (now : Z) (vs : videoState)
    (Hplay : truthy (isPlaying vs) = true)
    (Hrate : num_or (playbackRate vs) (ofZ 1) = ofZ 1)
    (Hlater : lastUpdate vs < now) :
  tickState now vs = consolidateTime now vs.
Proof.
  unfold tickState, consolidateTime. rewrite Hplay, Hrate.
  assert (Z.ltb now (lastUpdate vs) = false) as -> by (apply Z.ltb_ge; lia).
  apply elapsed_pos, Qc_ltb_lt in Hlater. rewrite Hlater.
  assert (mul (Fin (elapsed_seconds now (lastUpdate vs))) (ofZ 1)
          = Fin (elapsed_seconds now (lastUpdate vs))) as ->; [| reflexivity].
  unfold mul, ofZ. rewrite Qc_of_Z_1. f_equal. ring.
Qed.

Lemma X5_tick_agrees_at_unit_rate_witness :
  tickState 5000 (initialVideoState 0) = consolidateTime 5000 (initialVideoState 0).
Proof.
  apply X5_tick_agrees_at_unit_rate; [reflexivity | reflexivity | simpl; lia].
Defined.

Lemma applyControl_skip cfg now d vs :
  is_action d "skip" = true ->
  applyControl cfg now d vs
  = let s := consolidateTime now vs in
    let direction :=
      if strict_eq (c_direction d) (JStr "forward") then ofZ 1 else ofZ (-1) in
    Some (mkVideoState (isPlaying s)
            (Some (max (ofZ 0)
                       (add (to_number (currentTime s))
                            (mul direction
                                 (num_or (c_seconds d) (ofZ (SKIP_SECONDS cfg)))))))
            (lastUpdate s) (audioTrack s) (subtitleTrack s) (playbackRate s)).
Proof.
  intros Hact. unfold applyControl, is_action in *.
  destruct (action d) as [| | | | a |]; try discriminate.
  simpl in Hact. apply String.eqb_eq in Hact. subst a. reflexivity.
Qed.

Lemma max_zero_nonneg (x : num) :
  max (ofZ 0) x = NaN \/ leb (ofZ 0) (max (ofZ 0) x) = true.
Proof.
  destruct x as [| | | q]; simpl; auto.
  destruct (Qc_leb (Qc_of_Z 0) q) eqn:H; simpl; auto.
Qed.

(** X6: a skip never leaves a negative position: the stored position is
    [NaN] or at least 0, however far back the skip reaches. *)
Theorem X6_skip_never_negative
    (cfg : config) (now : Z) (d : controlData) (vs : videoState)
    (Hskip : is_action d "skip" = true) :
  exists vs' t,
    applyControl cfg now d vs = Some vs'
    /\ currentTime vs' = Some t
    /\ (t = NaN \/ leb (ofZ 0) t = true).
Proof.
  rewrite applyControl_skip by exact Hskip. cbv zeta.
  eexists. eexists. split; [reflexivity |]. split; [reflexivity |].
  apply max_zero_nonneg.
Qed.

(** A skip of 60 s back from position 0 stays at 0. *)
Lemma X6_skip_never_negative_witness :
  exists vs',
    applyControl Scenario.legacy 1000 (Scenes.skipBack 60) (initialVideoState 0)
    = Some vs'
    /\ currentTime vs' = Some (ofZ 0).
Proof.
  destruct (X6_skip_never_negative Scenario.legacy 1000 (Scenes.skipBack 60)
              (initialVideoState 0) eq_refl) as (vs' & t & Happly & Ht & _).
  exists vs'. split; [exact Happly |].
  vm_compute in Happly. injection Happly as <-. reflexivity.
Defined.

(** ** What [control] leaves alone *)

Lemma eraseClock_update_room st c room vs :
  getRoom st c = Some room ->
  eraseClock (update_room st c (room_set_videoState room vs)) = eraseClock st.
Proof.
  intros Hroom. unfold eraseClock, update_room, set_videoState, set_rooms. simpl.
  f_equal. rewrite fmap_insert. apply insert_id.
  rewrite lookup_fmap. unfold getRoom in Hroom. rewrite Hroom.
  now destruct room.
Qed.

Lemma eraseClock_set_videoState st vs :
  eraseClock (set_videoState st vs) = eraseClock st.
Proof. reflexivity. Qed.

(** X7: a [control] event, accepted or not, changes nothing but playback
    states: playlists, client maps, BSL status, drift tables, room
    membership and admin bindings are as before.  In a room it touches no
    room but the sender's and not the legacy state; in legacy mode it
    touches no room. *)
Theorem X7_control_touches_only_the_clock
    (cfg : config) (now : Z) (sid : string) (data : option controlData)
    (st : server) :
  let st' := fst (control cfg now sid data st) in
  eraseClock st' = eraseClock st
  /\ (SERVER_MODE cfg = true ->
      g_videoState st' = g_videoState st
      /\ forall c k, roomCodeOf st sid = Some c -> k <> Str.toUpperCase c ->
                     rooms st' !! k = rooms st !! k)
  /\ (SERVER_MODE cfg = false -> rooms st' = rooms st).
Proof.
  intros st'. unfold st', control.
  destruct data as [d |]; [| repeat split].
  destruct (negb (controlValid d)); [repeat split |].
  destruct (SERVER_MODE cfg) eqn:Hmode.
  - destruct (roomCodeOf st sid) as [c |] eqn:Hcode;
      [| split; [reflexivity | split; [intros _; split; [reflexivity | discriminate] | discriminate]]].
    destruct (getRoom st c) as [room |] eqn:Hroom;
      [| split; [reflexivity | split; [intros _; split; reflexivity | discriminate]]].
    destruct (CLIENT_CONTROLS_DISABLED cfg && _)%bool;
      [split; [reflexivity | split; [intros _; split; reflexivity | discriminate]] |].
    destruct (applyControl cfg now d (r_videoState room)) as [vs |];
      [| split; [reflexivity | split; [intros _; split; reflexivity | discriminate]]].
    cbn [fst]. split; [now apply eraseClock_update_room |].
    split; [| discriminate]. intros _. split; [reflexivity |].
    intros c' k [= <-] Hk. unfold update_room. simpl.
    now apply lookup_insert_ne.
  - destruct (CLIENT_CONTROLS_DISABLED cfg && _)%bool;
      [split; [reflexivity | split; [discriminate | reflexivity]] |].
    destruct (CLIENT_SYNC_DISABLED cfg && _)%bool;
      [split; [reflexivity | split; [discriminate | reflexivity]] |].
    destruct (applyControl cfg now d (g_videoState st)) as [vs |];
      split; try reflexivity; (split; [discriminate | reflexivity]).
Qed.

(** ** Playlist navigation *)

Lemma this_Qc_of_Z (z : Z) : this (Qc_of_Z z) = (z # 1)%Q.
Proof. reflexivity. Qed.

Lemma Qfloor_Qc_of_Z (z : Z) : Qfloor (this (Qc_of_Z z)) = z.
Proof. rewrite this_Qc_of_Z. simpl. apply Z.div_1_r. Qed.

Lemma isInteger_ofZ (z : Z) : isInteger (ofZ z) = true.
Proof. unfold isInteger, ofZ. now rewrite this_Qc_of_Z. Qed.

(** An integer number is the image of its integer part. *)
Lemma integer_ofZ (q : Qc) :
  isInteger (Fin q) = true -> Fin q = ofZ (Qfloor (this q)).
Proof.
  unfold isInteger, ofZ. intros H. apply Pos.eqb_eq in H. f_equal.
  apply Qc_is_canon. rewrite this_Qc_of_Z.
  destruct q as [[a d] Hc]. simpl in *. subst d.
  unfold Qeq. simpl. rewrite Z.div_1_r. reflexivity.
Qed.

Lemma num_eqb_refl_ofZ (z : Z) : num_eqb (ofZ z) (ofZ z) = true.
Proof. unfold num_eqb, ofZ. apply Qc_eqb_eq. reflexivity. Qed.

Lemma arrayIndex_ofZ (z : Z) :
  0 <= z -> arrayIndex (JNum (ofZ z)) = Some (Z.to_nat z).
Proof.
  intros Hz. unfold arrayIndex, ofZ.
  change (isInteger (Fin (Qc_of_Z z))) with true.
  rewrite Qfloor_Qc_of_Z.
  destruct (Z.leb_spec 0 z); [reflexivity | lia].
Qed.

(** A number that indexes the array is the image of that index. *)
Lemma arrayIndex_num (n : num) (i : nat) :
  arrayIndex (JNum n) = Some i -> n = ofZ (Z.of_nat i).
Proof.
  destruct n as [| | | q]; try discriminate. unfold arrayIndex.
  destruct (isInteger (Fin q)) eqn:Hint; [| discriminate].
  destruct (Z.leb_spec 0 (Qfloor (this q))); [| discriminate].
  simpl. intros [= <-]. rewrite Z2Nat.id by assumption. now apply integer_ofZ.
Qed.

(** *** Reordering *)

(** The position a swap of [i] and [j] sends position [k] to. *)
Lemma swap_lookup (vs : list video) (i j k : nat) :
  (i < length vs)%nat -> (j < length vs)%nat ->
  swap vs i j !! k
  = vs !! (if Nat.eqb k j then i else if Nat.eqb k i then j else k).
Proof.
  intros Hi Hj. unfold swap.
  destruct (lookup_lt_is_Some_2 vs i Hi) as [a Ha].
  destruct (lookup_lt_is_Some_2 vs j Hj) as [b Hb].
  rewrite Ha, Hb.
  destruct (Nat.eqb_spec k j) as [-> | Hkj].
  - rewrite list_lookup_insert_eq by (rewrite length_insert; lia). now symmetry.
  - rewrite list_lookup_insert_ne by congruence.
    destruct (Nat.eqb_spec k i) as [-> | Hki].
    + rewrite list_lookup_insert_eq by lia. now symmetry.
    + now rewrite list_lookup_insert_ne by congruence.
Qed.

Lemma swap_length (vs : list video) (i j : nat) :
  length (swap vs i j) = length vs.
Proof.
  unfold swap. destruct (vs !! i), (vs !! j); try reflexivity.
  now rewrite !length_insert.
Qed.

Lemma swap_swap (vs : list video) (i j : nat) :
  (i < length vs)%nat -> (j < length vs)%nat ->
  swap (swap vs i j) i j = vs.
Proof.
  intros Hi Hj. apply list_eq. intros k.
  rewrite swap_lookup by (rewrite swap_length; assumption).
  rewrite swap_lookup by assumption.
  destruct (Nat.eqb_spec k j) as [-> | Hkj].
  - destruct (Nat.eqb_spec i j) as [-> | Hij]; [reflexivity |].
    now rewrite Nat.eqb_refl.
  - destruct (Nat.eqb_spec k i) as [-> | Hki].
    + now rewrite Nat.eqb_refl.
    + destruct (Nat.eqb_spec k j); [contradiction |].
      destruct (Nat.eqb_spec k i); [contradiction | reflexivity].
Qed.

Lemma swap_Permutation (vs : list video) (i j : nat) :
  (i < length vs)%nat -> (j < length vs)%nat -> swap vs i j ≡ₚ vs.
Proof.
  intros Hi Hj. apply Permutation_inj. split; [apply swap_length |].
  exists (fun k => if Nat.eqb k j then i else if Nat.eqb k i then j else k).
  split.
  - intros x y.
    destruct (Nat.eqb_spec x j), (Nat.eqb_spec y j),
             (Nat.eqb_spec x i), (Nat.eqb_spec y i); congruence.
  - intros k. now apply swap_lookup.
Qed.

Lemma strict_eq_num (v : jsval) (z : Z) :
  strict_eq v (JNum (ofZ z)) = true -> v = JNum (ofZ z).
Proof.
  destruct v; try discriminate. simpl. intros H. f_equal. now apply num_eqb_eq.
Qed.

Lemma strict_eq_ofZ (a b : Z) :
  strict_eq (JNum (ofZ a)) (JNum (ofZ b)) = Z.eqb a b.
Proof.
  simpl. destruct (Z.eqb_spec a b) as [-> | Hne].
  - apply num_eqb_refl_ofZ.
  - destruct (num_eqb (ofZ a) (ofZ b)) eqn:H; [| exact H].
    apply num_eqb_eq, ofZ_inj in H. contradiction.
Qed.

Lemma follow_follow (from to : Z) (i : jsval) :
  follow from to (follow from to i) = i.
Proof.
  unfold follow.
  destruct (strict_eq i (JNum (ofZ from))) eqn:Hf.
  - apply strict_eq_num in Hf. subst i. rewrite !strict_eq_ofZ.
    destruct (Z.eqb_spec to from) as [-> | Hne]; [reflexivity |].
    now rewrite Z.eqb_refl.
  - destruct (strict_eq i (JNum (ofZ to))) eqn:Ht.
    + apply strict_eq_num in Ht. subst i. now rewrite !strict_eq_ofZ, Z.eqb_refl.
    + now rewrite Hf, Ht.
Qed.

Lemma resolve_putPlayback cfg adminOnly sid st s p vs :
  resolve cfg adminOnly sid st = Some s ->
  exists s', resolve cfg adminOnly sid (putPlayback st s p vs) = Some s'
             /\ scopePlaylist (putPlayback st s p vs) s' = p
             /\ scopeVideoState (putPlayback st s p vs) s' = vs
             /\ scopeTarget s' = scopeTarget s.
Proof.
  intros H. destruct s as [c room |].
  - apply resolve_InRoom in H as (Hmode & Hcode & Hroom & Hadm).
    exists (InRoom c (room_set_videoState (room_set_playlist room p) vs)).
    split; [| repeat split].
    unfold resolve, putPlayback.
    rewrite Hmode, roomCodeOf_update_room, Hcode, getRoom_update_room.
    simpl. now rewrite Hadm.
  - exists Legacy. split; [| repeat split].
    apply resolve_Legacy in H. unfold resolve. now rewrite H.
Qed.

(** Writing back what was read changes nothing. *)
Lemma putPlayback_id cfg adminOnly sid st s :
  resolve cfg adminOnly sid st = Some s ->
  putPlayback st s (scopePlaylist st s) (scopeVideoState st s) = st.
Proof.
  intros H. destruct s as [c room |].
  - apply resolve_InRoom in H as (_ & _ & Hroom & _).
    unfold putPlayback, update_room, set_rooms. simpl.
    replace (room_set_videoState _ _) with room by now destruct room.
    rewrite insert_id by exact Hroom. now destruct st.
  - now destruct st.
Qed.

Lemma putPlayback_twice st s s' p vs p' vs' cfg adminOnly sid :
  resolve cfg adminOnly sid st = Some s ->
  resolve cfg adminOnly sid (putPlayback st s p vs) = Some s' ->
  putPlayback (putPlayback st s p vs) s' p' vs' = putPlayback st s p' vs'.
Proof.
  intros H H'. destruct s as [c room |].
  - apply resolve_InRoom in H as (Hmode & Hcode & Hroom & Hadm).
    destruct s' as [c' room' |];
      [| apply resolve_Legacy in H'; congruence].
    apply resolve_InRoom in H' as (_ & Hcode' & Hroom' & _).
    unfold putPlayback in Hcode', Hroom'.
    rewrite roomCodeOf_update_room, Hcode in Hcode'. injection Hcode' as <-.
    rewrite getRoom_update_room in Hroom'.
    injection Hroom' as <-.
    unfold putPlayback, update_room, set_rooms. simpl.
    now rewrite insert_insert_eq.
  - destruct s' as [c' room' |]; [| reflexivity].
    apply resolve_Legacy in H. apply resolve_InRoom in H' as (H' & _). congruence.
Qed.

Lemma follow_inDomain (from to : Z) (i : jsval) (len : nat) :
  0 <= from < Z.of_nat len -> 0 <= to < Z.of_nat len ->
  indexInDomain i len = true -> indexInDomain (follow from to i) len = true.
Proof.
  intros Hf Ht Hi.
  assert (Hin : forall z, 0 <= z < Z.of_nat len ->
                          indexInDomain (JNum (ofZ z)) len = true).
  { intros z Hz. unfold indexInDomain, ofZ.
    change (isInteger (Fin (Qc_of_Z z))) with true. rewrite Qfloor_Qc_of_Z.
    destruct (Z.leb_spec (-1) z); [| lia].
    destruct (Z.ltb_spec z (Z.of_nat len)); [reflexivity | lia]. }
  unfold follow.
  destruct (strict_eq i _); [now apply Hin |].
  destruct (strict_eq i _); [now apply Hin | exact Hi].
Qed.

(** A numeric index that follows the swap denotes the video it denoted. *)
Lemma follow_element (vs : list video) (from to : Z) (n : num) :
  0 <= from < Z.of_nat (length vs) -> 0 <= to < Z.of_nat (length vs) ->
  element (swap vs (Z.to_nat from) (Z.to_nat to)) (follow from to (JNum n))
  = element vs (JNum n).
Proof.
  intros Hfrom Hto.
  assert (Hi : (Z.to_nat from < length vs)%nat) by lia.
  assert (Hj : (Z.to_nat to < length vs)%nat) by lia.
  unfold follow, element.
  destruct (strict_eq (JNum n) (JNum (ofZ from))) eqn:Ef.
  - apply strict_eq_num in Ef. injection Ef as ->.
    rewrite !arrayIndex_ofZ by lia. rewrite swap_lookup by assumption.
    now rewrite Nat.eqb_refl.
  - destruct (strict_eq (JNum n) (JNum (ofZ to))) eqn:Et.
    + apply strict_eq_num in Et. injection Et as ->.
      rewrite !arrayIndex_ofZ by lia. rewrite swap_lookup by assumption.
      destruct (Nat.eqb_spec (Z.to_nat from) (Z.to_nat to)) as [-> | Hne];
        [reflexivity |].
      now rewrite Nat.eqb_refl.
    + destruct (arrayIndex (JNum n)) as [k |] eqn:Ek; [| reflexivity].
      rewrite swap_lookup by assumption.
      apply arrayIndex_num in Ek. subst n.
      rewrite strict_eq_ofZ in Ef, Et.
      apply Z.eqb_neq in Ef, Et.
      destruct (Nat.eqb_spec k (Z.to_nat to)); [lia |].
      destruct (Nat.eqb_spec k (Z.to_nat from)); [lia | reflexivity].
Qed.

(** X8: [playlist-reorder] with two integer indices in range makes the
    two entries trade places and nothing else.  The entry at [fromIndex]
    is afterwards at [toIndex] and the other way round, every other
    position keeps its entry, so the videos are a permutation of what
    they were; a numeric current index and a numeric main index follow
    the swap and still denote the video they denoted; the playlist
    invariant carries over; the playback state is untouched; and the one
    notification is [playlist-update] with the new playlist, to the
    listener's audience. *)
Theorem X8_reorder_trades_two_entries
    (cfg : config) (sid : string) (data : reorderData) (st : server)
    (s : scope)
    (Hres : resolve cfg true sid st = Some s)
    (Hfrom : 0 <= fromIndex data < Z.of_nat (length (videos (scopePlaylist st s))))
    (Hto : 0 <= toIndex data < Z.of_nat (length (videos (scopePlaylist st s)))) :
  let p := scopePlaylist st s in
  let i := Z.to_nat (fromIndex data) in
  let j := Z.to_nat (toIndex data) in
  let run := playlistReorder cfg sid data st in
  exists s', resolve cfg true sid (fst run) = Some s'
    /\ videos (scopePlaylist (fst run) s') !! j = videos p !! i
    /\ videos (scopePlaylist (fst run) s') !! i = videos p !! j
    /\ (forall k : nat, k <> i -> k <> j ->
                        videos (scopePlaylist (fst run) s') !! k = videos p !! k)
    /\ videos (scopePlaylist (fst run) s') ≡ₚ videos p
    /\ (forall n, currentIndex p = JNum n ->
          element (videos (scopePlaylist (fst run) s'))
                  (currentIndex (scopePlaylist (fst run) s'))
          = element (videos p) (currentIndex p))
    /\ (forall m, mainVideoIndex p = JNum m ->
          element (videos (scopePlaylist (fst run) s'))
                  (mainVideoIndex (scopePlaylist (fst run) s'))
          = element (videos p) (mainVideoIndex p))
    /\ (playlistInvariant p = true ->
        playlistInvariant (scopePlaylist (fst run) s') = true)
    /\ scopeVideoState (fst run) s' = scopeVideoState st s
    /\ snd run = [mkNotice (scopeTarget s) "playlist-update"
                           (Plain (PPlaylist (scopePlaylist (fst run) s')))].
Proof.
  intros p i j run. unfold run, playlistReorder. rewrite Hres.
  fold p. fold p in Hfrom, Hto.
  destruct (Z.ltb_spec (fromIndex data) 0); [lia |].
  destruct (Z.leb_spec (Z.of_nat (length (videos p))) (fromIndex data)); [lia |].
  destruct (Z.ltb_spec (toIndex data) 0); [lia |].
  destruct (Z.leb_spec (Z.of_nat (length (videos p))) (toIndex data)); [lia |].
  cbn [orb fst snd].
  match goal with |- context [putPlayback st s ?P ?V] =>
    destruct (resolve_putPlayback cfg true sid st s P V Hres)
      as (s' & Hres' & Hp & Hv & _) end.
  exists s'. split; [exact Hres' |]. rewrite Hp, Hv.
  cbn [videos currentIndex mainVideoIndex]. fold i j.
  assert (Hi : (i < length (videos p))%nat) by (unfold i; lia).
  assert (Hj : (j < length (videos p))%nat) by (unfold j; lia).
  split; [rewrite swap_lookup by assumption; now rewrite Nat.eqb_refl |].
  split.
  { rewrite swap_lookup by assumption.
    destruct (Nat.eqb_spec i j) as [-> | _]; [reflexivity |].
    now rewrite Nat.eqb_refl. }
  split.
  { intros k Hki Hkj. rewrite swap_lookup by assumption.
    destruct (Nat.eqb_spec k j); [contradiction |].
    destruct (Nat.eqb_spec k i); [contradiction | reflexivity]. }
  split; [now apply swap_Permutation |].
  split; [intros n ->; now apply follow_element |].
  split; [intros m ->; now apply follow_element |].
  split; [| split; reflexivity].
  unfold playlistInvariant. cbn [videos currentIndex mainVideoIndex].
  rewrite swap_length. intros Hinv. apply andb_true_iff in Hinv as [Hc Hm].
  apply andb_true_iff. split; now apply follow_inDomain.
Qed.

(** On the three-item playlist launched at index 0, with main index 1:
    swapping positions 0 and 2. *)
Lemma X8_reorder_trades_two_entries_witness :
  let st := Scenes.tripleLaunched in
  let run := playlistReorder Scenario.legacy "a1" (mkReorderData 0 2) st in
  exists s', resolve Scenario.legacy true "a1" (fst run) = Some s'
    /\ videos (scopePlaylist (fst run) s') !! 2%nat = videos (PLAYLIST st) !! 0%nat
    /\ videos (scopePlaylist (fst run) s') !! 0%nat = videos (PLAYLIST st) !! 2%nat
    /\ (forall k : nat, k <> 0%nat -> k <> 2%nat ->
                        videos (scopePlaylist (fst run) s') !! k
                        = videos (PLAYLIST st) !! k)
    /\ videos (scopePlaylist (fst run) s') ≡ₚ videos (PLAYLIST st)
    /\ (forall n, currentIndex (PLAYLIST st) = JNum n ->
          element (videos (scopePlaylist (fst run) s'))
                  (currentIndex (scopePlaylist (fst run) s'))
          = element (videos (PLAYLIST st)) (currentIndex (PLAYLIST st)))
    /\ (forall m, mainVideoIndex (PLAYLIST st) = JNum m ->
          element (videos (scopePlaylist (fst run) s'))
                  (mainVideoIndex (scopePlaylist (fst run) s'))
          = element (videos (PLAYLIST st)) (mainVideoIndex (PLAYLIST st)))
    /\ (playlistInvariant (PLAYLIST st) = true ->
        playlistInvariant (scopePlaylist (fst run) s') = true)
    /\ scopeVideoState (fst run) s' = g_videoState st
    /\ snd run = [mkNotice ToAll "playlist-update"
                           (Plain (PPlaylist (scopePlaylist (fst run) s')))].
Proof.
  apply (X8_reorder_trades_two_entries Scenario.legacy "a1"
           (mkReorderData 0 2) Scenes.tripleLaunched Legacy).
  - reflexivity.
  - simpl. lia.
  - simpl. lia.
Defined.

(** X9: sending the same [playlist-reorder] twice restores the state,
    for every pair of integer indices, in range or not, and whoever
    sends it: the videos, the current index and the main index are back
    where they were. *)
Theorem X9_reorder_twice_restores
    (cfg : config) (sid : string) (data : reorderData) (st : server) :
  fst (playlistReorder cfg sid data (fst (playlistReorder cfg sid data st))) = st.
Proof.
  unfold playlistReorder at 2.
  destruct (resolve cfg true sid st) as [s |] eqn:Hres;
    [| cbn [fst]; unfold playlistReorder; now rewrite Hres].
  set (p := scopePlaylist st s).
  destruct (Z.ltb (fromIndex data) 0 || Z.leb _ (fromIndex data)
            || Z.ltb (toIndex data) 0 || Z.leb _ (toIndex data))%bool eqn:Hrange.
  { cbn [fst]. unfold playlistReorder. rewrite Hres. fold p. now rewrite Hrange. }
  cbn [fst].
  match goal with |- context [putPlayback st s ?P ?V] =>
    destruct (resolve_putPlayback cfg true sid st s P V Hres)
      as (s' & Hres' & Hp & Hv & _); set (p' := P) in * end.
  unfold playlistReorder. rewrite Hres', Hp, Hv.
  replace (length (videos p')) with (length (videos p))
    by (unfold p'; cbn [videos]; now rewrite swap_length).
  rewrite Hrange. cbn [fst].
  rewrite (putPlayback_twice _ _ _ _ _ _ _ cfg true sid Hres Hres').
  apply orb_false_iff in Hrange as [Hrange H4].
  apply orb_false_iff in Hrange as [Hrange H3].
  apply orb_false_iff in Hrange as [H1 H2].
  apply Z.ltb_ge in H1, H3. apply Z.leb_gt in H2, H4.
  unfold p'. cbn [videos currentIndex mainVideoIndex mainVideoStartTime preloadMainVideo].
  rewrite swap_swap by lia. rewrite !follow_follow.
  replace (mkPlaylist _ _ _ _ _) with p by now destruct p.
  now apply (putPlayback_id cfg true sid).
Qed.

(** *** Jumping *)

Lemma ltb_ofZ (a b : Z) : ltb (ofZ a) (ofZ b) = Z.ltb a b.
Proof.
  unfold ltb. change (ofZ a) with (Fin (Qc_of_Z a)) at 1.
  change (ofZ b) with (Fin (Qc_of_Z b)) at 1. cbv beta iota.
  change (Fin (Qc_of_Z a)) with (ofZ a). change (Fin (Qc_of_Z b)) with (ofZ b).
  rewrite leb_ofZ. rewrite Z.ltb_antisym. reflexivity.
Qed.

Lemma validatePlaylistIndex_int (z : Z) (p : playlist) :
  validatePlaylistIndex (JNum (ofZ z)) p
  = (Z.leb 0 z && Z.ltb z (Z.of_nat (length (videos p))))%bool.
Proof.
  unfold validatePlaylistIndex, Validate.isValidInteger, Validate.parsed, geb.
  rewrite isInteger_ofZ, leb_ofZ, ltb_ofZ. reflexivity.
Qed.

(** X10: whenever [playlist-jump] notifies anyone, the index it stored
    names an existing video of the unchanged list, playback restarts at
    position 0 at the instant of the event with that video's track
    selections, and the playing flag and the rate are as before. *)
Theorem X10_jump_restarts_at_an_existing_video
    (cfg : config) (now : Z) (sid : string) (index : jsval)
    (st st' : server) (out : list notice)
    (Hrun : playlistJump cfg now sid index st = Returned st' out)
    (Hout : out <> []) :
  exists s s' v,
    resolve cfg true sid st = Some s
    /\ resolve cfg true sid st' = Some s'
    /\ videos (scopePlaylist st' s') = videos (scopePlaylist st s)
    /\ currentIndex (scopePlaylist st' s') = index
    /\ element (videos (scopePlaylist st' s')) (currentIndex (scopePlaylist st' s'))
       = Some v
    /\ currentTime (scopeVideoState st' s') = Some (ofZ 0)
    /\ lastUpdate (scopeVideoState st' s') = now
    /\ audioTrack (scopeVideoState st' s')
       = defined_or (selectedAudioTrack v) (JNum (ofZ 0))
    /\ subtitleTrack (scopeVideoState st' s')
       = defined_or (selectedSubtitleTrack v) (JNum (ofZ (-1)))
    /\ isPlaying (scopeVideoState st' s') = isPlaying (scopeVideoState st s)
    /\ playbackRate (scopeVideoState st' s') = playbackRate (scopeVideoState st s)
    /\ Forall (fun n => n_target n = scopeTarget s) out.
Proof.
  unfold playlistJump in Hrun.
  destruct (negb (Validate.isValidInteger index));
    [injection Hrun as _ <-; contradiction |].
  destruct (resolve cfg true sid st) as [s |] eqn:Hres;
    [| injection Hrun as _ <-; contradiction].
  destruct (negb (validatePlaylistIndex _ _));
    [injection Hrun as _ <-; contradiction |].
  destruct (element (videos (scopePlaylist st s)) index) as [v |] eqn:Hv;
    [| discriminate].
  injection Hrun as <- <-.
  match goal with |- context [putPlayback st s ?P ?V] =>
    destruct (resolve_putPlayback cfg true sid st s P V Hres)
      as (s' & Hres' & Hp & Hvs & _) end.
  exists s, s', v. rewrite Hp, Hvs. cbn.
  repeat (split; [first [reflexivity | assumption] |]).
  repeat constructor.
Qed.

Lemma X10_jump_restarts_at_an_existing_video_witness :
  exists s s' v,
    let st := Scenes.tripleLaunched in
    let st' := stateOf (playlistJump Scenario.legacy 9000 "a1" (JNum (ofZ 1)) st) in
    resolve Scenario.legacy true "a1" st = Some s
    /\ resolve Scenario.legacy true "a1" st' = Some s'
    /\ videos (scopePlaylist st' s') = videos (scopePlaylist st s)
    /\ currentIndex (scopePlaylist st' s') = JNum (ofZ 1)
    /\ element (videos (scopePlaylist st' s')) (currentIndex (scopePlaylist st' s'))
       = Some v
    /\ currentTime (scopeVideoState st' s') = Some (ofZ 0)
    /\ lastUpdate (scopeVideoState st' s') = 9000
    /\ audioTrack (scopeVideoState st' s')
       = defined_or (selectedAudioTrack v) (JNum (ofZ 0))
    /\ subtitleTrack (scopeVideoState st' s')
       = defined_or (selectedSubtitleTrack v) (JNum (ofZ (-1)))
    /\ isPlaying (scopeVideoState st' s') = isPlaying (scopeVideoState st s)
    /\ playbackRate (scopeVideoState st' s') = playbackRate (scopeVideoState st s)
    /\ Forall (fun n => n_target n = scopeTarget s)
              [mkNotice ToAll "sync"
                 (Plain (PSync (scopeVideoState st' s')));
               mkNotice ToAll "playlist-position" (PPosition (JNum (ofZ 1)));
               mkNotice ToAll "playlist-update"
                 (Plain (PPlaylist (scopePlaylist st' s')))].
Proof.
  destruct (X10_jump_restarts_at_an_existing_video Scenario.legacy 9000 "a1"
              (JNum (ofZ 1)) Scenes.tripleLaunched _ _ eq_refl)
    as (s & s' & v & H); [discriminate |].
  exists s, s', v. cbv zeta.
  destruct H as (Hs & Hs' & H). split; [exact Hs |]. split; [exact Hs' |].
  assert (s' = Legacy) as ->.
  { destruct s' as [c room |]; [| reflexivity].
    apply resolve_InRoom in Hs' as (Hmode & _). discriminate. }
  exact H.
Defined.

(** X11: a string index with the value of a valid position that is not
    its canonical print (['01'], ['-0']) passes both validations, is
    stored as the current index, and then makes the listener throw: the
    playback state is not reset and nobody is notified. *)
Theorem X11_jump_on_padded_index_throws
    (cfg : config) (now : Z) (sid : string) (str : string) (z : Z)
    (st : server) (s : scope)
    (Hres : resolve cfg true sid st = Some s)
    (Hlit : Validate.integer_literal str = true)
    (Hval : Validate.parseInt10 str = ofZ z)
    (Hrange : 0 <= z < Z.of_nat (length (videos (scopePlaylist st s))))
    (Hpad : Validate.printIndex z <> str) :
  exists st' s',
    playlistJump cfg now sid (JStr str) st = Thrown st'
    /\ resolve cfg true sid st' = Some s'
    /\ currentIndex (scopePlaylist st' s') = JStr str
    /\ element (videos (scopePlaylist st' s')) (currentIndex (scopePlaylist st' s'))
       = None
    /\ scopeVideoState st' s' = scopeVideoState st s.
Proof.
  assert (Hidx : arrayIndex (JStr str) = None).
  { unfold arrayIndex. rewrite Hval. unfold ofZ. rewrite Qfloor_Qc_of_Z.
    destruct (String.eqb_spec (Validate.printIndex z) str); [contradiction |].
    now rewrite andb_false_r. }
  unfold playlistJump. cbn [Validate.isValidInteger]. rewrite Hlit, Hres.
  cbn [negb Validate.parsed]. rewrite Hval, validatePlaylistIndex_int.
  destruct (Z.leb_spec 0 z); [| lia].
  destruct (Z.ltb_spec z (Z.of_nat (length (videos (scopePlaylist st s))))); [| lia].
  cbn [andb negb]. unfold element at 1. rewrite Hidx.
  match goal with |- context [putPlayback st s ?P ?V] =>
    destruct (resolve_putPlayback cfg true sid st s P V Hres)
      as (s' & Hres' & Hp & Hvs & _) end.
  eexists _, s'. split; [reflexivity |]. split; [exact Hres' |].
  rewrite Hp, Hvs. cbn. unfold element. rewrite Hidx. auto.
Qed.

Lemma X11_jump_on_padded_index_throws_witness :
  exists st' s',
    playlistJump Scenario.legacy 9000 "a1" (JStr "01") Scenes.tripleLaunched
    = Thrown st'
    /\ resolve Scenario.legacy true "a1" st' = Some s'
    /\ currentIndex (scopePlaylist st' s') = JStr "01"
    /\ element (videos (scopePlaylist st' s')) (currentIndex (scopePlaylist st' s'))
       = None
    /\ scopeVideoState st' s' = g_videoState Scenes.tripleLaunched.
Proof.
  apply (X11_jump_on_padded_index_throws Scenario.legacy 9000 "a1" "01" 1
           Scenes.tripleLaunched Legacy).
  - reflexivity.
  - reflexivity.
  - reflexivity.
  - simpl. lia.
  - vm_compute. discriminate.
Defined.

(** *** Advancing *)

Lemma indexInDomain_ofZ (z : Z) (len : nat) :
  indexInDomain (JNum (ofZ z)) len = (Z.leb (-1) z && Z.ltb z (Z.of_nat len))%bool.
Proof.
  unfold indexInDomain, ofZ. change (isInteger (Fin (Qc_of_Z z))) with true.
  now rewrite Qfloor_Qc_of_Z.
Qed.

(** X12: [playlist-next] is not an admin event and checks nothing: from
    any socket the listener's target selection accepts, it stores the
    index it is given, in range or not, re-anchors the clock at the
    instant of the event and leaves the position, the playing flag and
    the videos as they are. *)
Theorem X12_next_is_open_and_unchecked
    (cfg : config) (now : Z) (sid : string) (nextIndex : Z) (st : server)
    (s : scope)
    (Hres : resolve cfg false sid st = Some s) :
  let st' := fst (playlistNext cfg now sid nextIndex st) in
  authMiddleware cfg st sid "playlist-next" = Next
  /\ exists s', resolve cfg false sid st' = Some s'
     /\ currentIndex (scopePlaylist st' s') = JNum (ofZ nextIndex)
     /\ videos (scopePlaylist st' s') = videos (scopePlaylist st s)
     /\ currentTime (scopeVideoState st' s') = currentTime (scopeVideoState st s)
     /\ isPlaying (scopeVideoState st' s') = isPlaying (scopeVideoState st s)
     /\ lastUpdate (scopeVideoState st' s') = now
     /\ (indexInDomain (currentIndex (scopePlaylist st' s'))
                       (length (videos (scopePlaylist st' s'))) = true
         <-> -1 <= nextIndex < Z.of_nat (length (videos (scopePlaylist st s)))).
Proof.
  intros st'. split; [reflexivity |].
  unfold st', playlistNext. rewrite Hres. cbn [fst].
  match goal with |- context [putPlayback st s ?P ?V] =>
    destruct (resolve_putPlayback cfg false sid st s P V Hres)
      as (s' & Hres' & Hp & Hvs & _) end.
  exists s'. split; [exact Hres' |]. rewrite Hp, Hvs.
  cbn [playlist_set_currentIndex currentIndex videos].
  split; [reflexivity |]. split; [reflexivity |].
  split; [now destruct (videoAt _ _) |].
  split; [now destruct (videoAt _ _) |].
  split; [reflexivity |].
  rewrite indexInDomain_ofZ, andb_true_iff, Z.leb_le, Z.ltb_lt. reflexivity.
Qed.

Lemma X12_next_is_open_and_unchecked_witness :
  let st := Scenes.tripleLaunched in
  let st' := fst (playlistNext Scenario.legacy 9000 "v9" 7 st) in
  authMiddleware Scenario.legacy st "v9" "playlist-next" = Next
  /\ exists s', resolve Scenario.legacy false "v9" st' = Some s'
     /\ currentIndex (scopePlaylist st' s') = JNum (ofZ 7)
     /\ videos (scopePlaylist st' s') = videos (scopePlaylist st Legacy)
     /\ currentTime (scopeVideoState st' s') = currentTime (scopeVideoState st Legacy)
     /\ isPlaying (scopeVideoState st' s') = isPlaying (scopeVideoState st Legacy)
     /\ lastUpdate (scopeVideoState st' s') = 9000
     /\ (indexInDomain (currentIndex (scopePlaylist st' s'))
                       (length (videos (scopePlaylist st' s'))) = true
         <-> -1 <= 7 < Z.of_nat (length (videos (scopePlaylist st Legacy)))).
Proof.
  apply (X12_next_is_open_and_unchecked Scenario.legacy 9000 "v9" 7
           Scenes.tripleLaunched Legacy).
  reflexivity.
Defined.

(** *** Track selection *)

Lemma filename_selectTrack type t v : filename (selectTrack type t v) = filename v.
Proof.
  unfold selectTrack. destruct (strict_eq type _); [reflexivity |].
  now destruct (strict_eq type _).
Qed.

Lemma applyTrack_clock type t vs :
  currentTime (applyTrack type t vs) = currentTime vs
  /\ isPlaying (applyTrack type t vs) = isPlaying vs
  /\ playbackRate (applyTrack type t vs) = playbackRate vs.
Proof.
  unfold applyTrack. destruct (strict_eq type _); [auto |].
  destruct (strict_eq type _); auto.
Qed.

(** X13: whatever a [track-change] event carries and however the
    listener ends, the playlist keeps its file names in their order, its
    current and main index, and the position, playing flag and rate of
    the playback state; a video other than the addressed one is left
    exactly as it was, and the addressed one changes by the selected
    track only. *)
Theorem X13_track_change_touches_one_video
    (cfg : config) (now : Z) (sid : string) (d : trackChangeData) (st : server)
    (s : scope)
    (Hres : resolve cfg true sid st = Some s) :
  let st' := stateOf (trackChange cfg now sid (Some d) st) in
  exists s', resolve cfg true sid st' = Some s'
    /\ filename <$> videos (scopePlaylist st' s')
       = filename <$> videos (scopePlaylist st s)
    /\ currentIndex (scopePlaylist st' s') = currentIndex (scopePlaylist st s)
    /\ mainVideoIndex (scopePlaylist st' s') = mainVideoIndex (scopePlaylist st s)
    /\ currentTime (scopeVideoState st' s') = currentTime (scopeVideoState st s)
    /\ isPlaying (scopeVideoState st' s') = isPlaying (scopeVideoState st s)
    /\ playbackRate (scopeVideoState st' s') = playbackRate (scopeVideoState st s)
    /\ forall (j : nat) (v : video),
         videos (scopePlaylist st s) !! j = Some v ->
         videos (scopePlaylist st' s') !! j = Some v
         \/ (arrayIndex (tc_videoIndex d) = Some j
             /\ videos (scopePlaylist st' s') !! j
                = Some (selectTrack (tc_type d) (tc_trackIndex d) v)).
Proof.
  intros st'.
  assert (Hsame : exists s', resolve cfg true sid st = Some s'
    /\ filename <$> videos (scopePlaylist st s')
       = filename <$> videos (scopePlaylist st s)
    /\ currentIndex (scopePlaylist st s') = currentIndex (scopePlaylist st s)
    /\ mainVideoIndex (scopePlaylist st s') = mainVideoIndex (scopePlaylist st s)
    /\ currentTime (scopeVideoState st s') = currentTime (scopeVideoState st s)
    /\ isPlaying (scopeVideoState st s') = isPlaying (scopeVideoState st s)
    /\ playbackRate (scopeVideoState st s') = playbackRate (scopeVideoState st s)
    /\ forall (j : nat) (v : video),
         videos (scopePlaylist st s) !! j = Some v ->
         videos (scopePlaylist st s') !! j = Some v
         \/ (arrayIndex (tc_videoIndex d) = Some j
             /\ videos (scopePlaylist st s') !! j
                = Some (selectTrack (tc_type d) (tc_trackIndex d) v))).
  { exists s. repeat (split; [first [assumption | reflexivity] |]). auto. }
  unfold st', trackChange. rewrite Hres.
  destruct (negb _ || indexNegative _)%bool; [exact Hsame |].
  destruct (negb (truthy _) || _)%bool; [exact Hsame |].
  destruct (negb (Validate.validateTrackIndex _)); [exact Hsame |].
  destruct (belowLength _ _); [| exact Hsame].
  destruct (arrayIndex (tc_videoIndex d)) as [i |] eqn:Hi; [| exact Hsame].
  destruct (videos (scopePlaylist st s) !! i) as [v0 |] eqn:Hv0; [| exact Hsame].
  clear Hsame.
  assert (Hnames :
    filename <$> <[i := selectTrack (tc_type d) (tc_trackIndex d) v0]>
                   (videos (scopePlaylist st s))
    = filename <$> videos (scopePlaylist st s)).
  { rewrite list_fmap_insert, filename_selectTrack. apply list_insert_id.
    now rewrite list_lookup_fmap, Hv0. }
  assert (Hlook : forall (j : nat) (v : video),
    videos (scopePlaylist st s) !! j = Some v ->
    <[i := selectTrack (tc_type d) (tc_trackIndex d) v0]>
      (videos (scopePlaylist st s)) !! j = Some v
    \/ (Some i = Some j
        /\ <[i := selectTrack (tc_type d) (tc_trackIndex d) v0]>
             (videos (scopePlaylist st s)) !! j
           = Some (selectTrack (tc_type d) (tc_trackIndex d) v))).
  { intros j v Hj. destruct (Nat.eq_dec i j) as [<- | Hne].
    - right. split; [reflexivity |].
      rewrite list_lookup_insert_eq by (now apply lookup_lt_Some with v0).
      congruence.
    - left. now rewrite list_lookup_insert_ne. }
  destruct (applyTrack_clock (tc_type d) (tc_trackIndex d) (scopeVideoState st s))
    as (Ht & Hplay & Hrate).
  destruct (strict_eq (tc_videoIndex d) _); cbn [stateOf];
    match goal with |- context [putPlayback st s ?P ?V] =>
      destruct (resolve_putPlayback cfg true sid st s P V Hres)
        as (s' & Hres' & Hp & Hvs & _) end;
    exists s'; (split; [exact Hres' |]); rewrite Hp, Hvs;
    cbn [playlist_set_videos videos currentIndex mainVideoIndex stampAt
         currentTime isPlaying playbackRate];
    repeat (split; [first [assumption | reflexivity] |]); exact Hlook.
Qed.

Lemma X13_track_change_touches_one_video_witness :
  let d := mkTrackChangeData (JNum (ofZ 1)) (JStr "subtitle") (JNum (ofZ 2)) in
  let st := Scenes.tripleLaunched in
  let st' := stateOf (trackChange Scenario.legacy 9000 "a1" (Some d) st) in
  exists s', resolve Scenario.legacy true "a1" st' = Some s'
    /\ filename <$> videos (scopePlaylist st' s')
       = filename <$> videos (scopePlaylist st Legacy)
    /\ currentIndex (scopePlaylist st' s') = currentIndex (scopePlaylist st Legacy)
    /\ mainVideoIndex (scopePlaylist st' s') = mainVideoIndex (scopePlaylist st Legacy)
    /\ currentTime (scopeVideoState st' s') = currentTime (scopeVideoState st Legacy)
    /\ isPlaying (scopeVideoState st' s') = isPlaying (scopeVideoState st Legacy)
    /\ playbackRate (scopeVideoState st' s') = playbackRate (scopeVideoState st Legacy)
    /\ forall (j : nat) (v : video),
         videos (scopePlaylist st Legacy) !! j = Some v ->
         videos (scopePlaylist st' s') !! j = Some v
         \/ (arrayIndex (tc_videoIndex d) = Some j
             /\ videos (scopePlaylist st' s') !! j
                = Some (selectTrack (tc_type d) (tc_trackIndex d) v)).
Proof.
  apply (X13_track_change_touches_one_video Scenario.legacy 9000 "a1"
           (mkTrackChangeData (JNum (ofZ 1)) (JStr "subtitle") (JNum (ofZ 2)))
           Scenes.tripleLaunched Legacy).
  reflexivity.
Defined.

(** ** Rooms *)

Lemma upper_lower_ascii (c : ascii) :
  Str.upper_ascii (Str.lower_ascii c) = Str.upper_ascii c.
Proof. destruct c as [[] [] [] [] [] [] [] []]; reflexivity. Qed.

Lemma toUpperCase_toLowerCase (s : string) :
  Str.toUpperCase (Str.toLowerCase s) = Str.toUpperCase s.
Proof.
  induction s as [| c s IH]; [reflexivity |].
  unfold Str.toUpperCase, Str.toLowerCase in *. simpl.
  now rewrite upper_lower_ascii, IH.
Qed.

(** X14: room codes made of ASCII characters are matched without regard
    to letter case: two such codes with the same lower-case form denote
    the same room. *)
Theorem X14_room_codes_ignore_case (st : server) (a b : string)
    (Ha : asciiOnly a = true) (Hb : asciiOnly b = true)
    (Hcase : Str.toLowerCase a = Str.toLowerCase b) :
  getRoom st a = getRoom st b.
Proof.
  clear Ha Hb. unfold getRoom.
  rewrite <- (toUpperCase_toLowerCase a), <- (toUpperCase_toLowerCase b).
  now rewrite Hcase.
Qed.

Lemma X14_room_codes_ignore_case_witness :
  getRoom (memory Scenes.party) "room42" = getRoom (memory Scenes.party) "ROOM42".
Proof.
  apply (X14_room_codes_ignore_case (memory Scenes.party) "room42" "ROOM42");
    reflexivity.
Defined.

(** X15: [getPublicRooms] lists exactly the rooms that are not private,
    each with its code, name, number of clients and creation time. *)
Theorem X15_public_rooms_are_the_non_private_ones (st : server) (pr : publicRoom) :
  pr ∈ getPublicRooms st
  <-> exists k r, rooms st !! k = Some r /\ isPrivate r = false
                  /\ pr = mkPublicRoom (code r) (roomName r)
                                       (length (clients r)) (createdAt r).
Proof.
  unfold getPublicRooms. rewrite list_elem_of_omap. split.
  - intros ([k r] & Hin & Hpr). apply elem_of_map_to_list in Hin.
    simpl in Hpr. destruct (isPrivate r) eqn:Hp; [discriminate |].
    injection Hpr as <-. exists k, r. auto.
  - intros (k & r & Hk & Hp & ->). exists (k, r). split.
    + now apply elem_of_map_to_list.
    + simpl. now rewrite Hp.
Qed.

Lemma roomCodeOf_insert st sid k m :
  k <> ""%string ->
  roomCodeOf (set_socketRoomMap st (<[sid := k]> m)) sid = Some k.
Proof.
  intros Hk. apply roomCodeOf_lookup; [| exact Hk]. simpl. apply lookup_insert_eq.
Qed.

Lemma roomCodeOf_insert_ne st sid other k :
  other <> sid ->
  roomCodeOf (set_socketRoomMap st (<[sid := k]> (socketRoomMap st))) other
  = roomCodeOf st other.
Proof.
  intros Hne. unfold roomCodeOf. simpl. now rewrite lookup_insert_ne.
Qed.

Lemma getRoom_update_room_same st c c' r :
  Str.toUpperCase c' = Str.toUpperCase c ->
  getRoom (update_room st c r) c' = Some r.
Proof.
  intros H. unfold getRoom, update_room. simpl. rewrite H. apply lookup_insert_eq.
Qed.

Lemma map_get_map_delete {V : Type} (k : string) (m : list (string * V)) :
  map_get k (map_delete k m) = None.
Proof.
  induction m as [| [k' v] m IH]; [reflexivity |].
  unfold map_delete in *. simpl.
  destruct (String.eqb k' k) eqn:Hk; simpl; [exact IH |].
  now rewrite Hk.
Qed.

Lemma map_delete_length {V : Type} (k : string) (m : list (string * V)) :
  (length (map_delete k m) <= length m)%nat.
Proof. unfold map_delete. apply List.filter_length_le. Qed.

(** X16: [join-room] with the fingerprint the room was created with makes
    the joining socket the room's admin, whatever socket held that place:
    afterwards [isSocketAdmin] holds of it and of no other socket of the
    room.  The comparison is [===], so a room created without a
    fingerprint hands the place to whoever joins without one. *)
Theorem X16_join_with_the_room_fingerprint_takes_over
    (cfg : config) (now : Z) (sid : string) (data : joinData) (ack : bool)
    (w : world) (c : string) (room : Room)
    (Hmode : SERVER_MODE cfg = true)
    (Hcode : jr_roomCode data = Some c)
    (Hroom : getRoom (memory w) c = Some room)
    (Hfp : strict_eq (adminFingerprint room) (jr_fingerprint data) = true)
    (Hname : code room <> ""%string)
    (Hkey : Str.toUpperCase (code room) = Str.toUpperCase c) :
  exists w' out,
    joinRoom cfg now sid data ack w = Returned w' out
    /\ isSocketAdmin cfg (memory w') sid = true
    /\ forall other c2,
         other <> sid -> roomCodeOf (memory w) other = Some c2 ->
         Str.toUpperCase c2 = Str.toUpperCase c ->
         isSocketAdmin cfg (memory w') other = false.
Proof.
  unfold joinRoom. rewrite Hcode. cbn [mbind option_bind]. rewrite Hroom.
  cbn [fmap option_fmap option_map]. unfold isAdmin. rewrite Hfp.
  eexists _, _. split; [reflexivity |]. cbn [memory].
  unfold isSocketAdmin. rewrite Hmode. split.
  - rewrite roomCodeOf_insert by exact Hname.
    cbn [addClient room_set_clients room_set_adminSocketId code].
    unfold getRoom. cbn [rooms set_socketRoomMap update_room set_rooms].
    rewrite Hkey, lookup_insert_eq. cbn. apply String.eqb_refl.
  - intros other c2 Hne Hc2 Hup.
    rewrite (roomCodeOf_insert_ne (update_room (memory w) c _)) by exact Hne.
    rewrite roomCodeOf_update_room, Hc2.
    unfold getRoom. cbn [rooms set_socketRoomMap update_room set_rooms].
    rewrite Hup, lookup_insert_eq. cbn.
    destruct (String.eqb_spec sid other); congruence.
Qed.

Lemma X16_join_with_the_room_fingerprint_takes_over_witness :
  exists w' out,
    joinRoom Scenario.multi 60000 "a2" (Scenes.joinAs (JStr "F1")) true Scenes.party
    = Returned w' out
    /\ isSocketAdmin Scenario.multi (memory w') "a2" = true
    /\ forall other c2,
         other <> "a2"%string ->
         roomCodeOf (memory Scenes.party) other = Some c2 ->
         Str.toUpperCase c2 = Str.toUpperCase "room42" ->
         isSocketAdmin Scenario.multi (memory w') other = false.
Proof.
  apply (X16_join_with_the_room_fingerprint_takes_over Scenario.multi 60000 "a2"
           (Scenes.joinAs (JStr "F1")) true Scenes.party "room42"
           Scenes.partyRoom).
  - reflexivity.
  - reflexivity.
  - reflexivity.
  - reflexivity.
  - discriminate.
  - reflexivity.
Defined.

(** X17: [join-room] with a fingerprint that matches neither the room's
    nor the persisted one.  A string joins as a plain viewer, in a room
    whose own admin fingerprint is a string or absent: the room's admin
    socket and fingerprint and the persisted fingerprints are untouched,
    and the socket is entered in the room's clients and mapped to the
    room.  Anything but a string makes the listener throw before it has
    changed anything. *)
Theorem X17_join_with_an_unknown_fingerprint
    (cfg : config) (now : Z) (sid : string) (data : joinData) (ack : bool)
    (w : world) (c : string) (room : Room)
    (Hcode : jr_roomCode data = Some c)
    (Hroom : getRoom (memory w) c = Some room)
    (Hram : strict_eq (adminFingerprint room) (jr_fingerprint data) = false)
    (Hdisk : strict_eq (getAdminFingerprint (code room) (roomAdmins w))
                       (jr_fingerprint data) = false) :
  (hasSubstring (jr_fingerprint data) = false ->
   joinRoom cfg now sid data ack w = Thrown w)
  /\ (hasSubstring (jr_fingerprint data) = true ->
      hasOptionalSubstring (adminFingerprint room) = true ->
      exists w' out room',
        joinRoom cfg now sid data ack w = Returned w' out
        /\ getRoom (memory w') c = Some room'
        /\ adminSocketId room' = adminSocketId room
        /\ adminFingerprint room' = adminFingerprint room
        /\ (exists info, map_get sid (clients room') = Some info
                         /\ fingerprint info = jr_fingerprint data)
        /\ socketRoomMap (memory w') !! sid = Some (code room)
        /\ roomAdmins w' = roomAdmins w).
Proof.
  unfold joinRoom. rewrite Hcode. cbn [mbind option_bind]. rewrite Hroom.
  cbn [fmap option_fmap option_map]. unfold isAdmin. rewrite Hram, Hdisk.
  rewrite andb_false_r. split.
  - intros ->. reflexivity.
  - intros -> ->. cbn [andb]. eexists _, _, _. split; [reflexivity |].
    cbn [memory roomAdmins]. split; [apply getRoom_update_room |].
    cbn. split; [reflexivity |]. split; [reflexivity |].
    split; [| split; [apply lookup_insert_eq | reflexivity]].
    eexists. split; [apply map_get_map_set | reflexivity].
Qed.

Lemma X17_join_with_an_unknown_fingerprint_witness :
  joinRoom Scenario.multi 60000 "v1" (Scenes.joinAs JUndefined) true Scenes.party
  = Thrown Scenes.party
  /\ exists w' out room',
       joinRoom Scenario.multi 60000 "v1" (Scenes.joinAs (JStr "F2")) true Scenes.party
       = Returned w' out
       /\ getRoom (memory w') "room42" = Some room'
       /\ adminSocketId room' = Some "a1"%string
       /\ adminFingerprint room' = JStr "F1"
       /\ (exists info, map_get "v1" (clients room') = Some info
                        /\ fingerprint info = JStr "F2")
       /\ socketRoomMap (memory w') !! "v1"%string = Some "ROOM42"%string
       /\ roomAdmins w' = roomAdmins Scenes.party.
Proof.
  split.
  - apply (X17_join_with_an_unknown_fingerprint Scenario.multi 60000 "v1"
             (Scenes.joinAs JUndefined) true Scenes.party "room42"
             Scenes.partyRoom);
      reflexivity.
  - apply (X17_join_with_an_unknown_fingerprint Scenario.multi 60000 "v1"
             (Scenes.joinAs (JStr "F2")) true Scenes.party "room42"
             Scenes.partyRoom);
      reflexivity.
Defined.

(** *** Leaving *)

Lemma roomCodeOf_delete st sid :
  roomCodeOf (set_socketRoomMap st (delete sid (socketRoomMap st))) sid = None.
Proof. unfold roomCodeOf. simpl. now rewrite lookup_delete_eq. Qed.

Lemma leaveRoom_unmaps sid st : roomCodeOf (fst (leaveRoom sid st)) sid = None.
Proof.
  unfold leaveRoom. destruct (roomCodeOf st sid) as [c |] eqn:Hc; [| exact Hc].
  destruct (getRoom st c); apply roomCodeOf_delete.
Qed.

(** X18: after [leave-room] the socket is mapped to no room, so the
    middleware blocks every admin-only event it sends, even if it was the
    room's admin; the room it left no longer lists it as a client or
    holds a BSL status for it, and keeps its admin socket id, playlist
    and playback state as they were. *)
Theorem X18_leaving_revokes_admin_events
    (cfg : config) (sid : string) (st : server) (ev : string)
    (Hmode : SERVER_MODE cfg = true)
    (Hev : In ev adminOnlyListed) :
  let st' := fst (leaveRoom sid st) in
  authMiddleware cfg st' sid ev
  = Block [mkEmission ToSender "admin-error"
             (PAdminError ev "Unauthorized: Admin access required")]
  /\ forall c room,
       roomCodeOf st sid = Some c -> getRoom st c = Some room ->
       exists room',
         getRoom st' c = Some room'
         /\ map_get sid (clients room') = None
         /\ map_get sid (r_clientBslStatus room') = None
         /\ adminSocketId room' = adminSocketId room
         /\ r_playlist room' = r_playlist room
         /\ r_videoState room' = r_videoState room.
Proof.
  intros st'. split.
  - destruct (adminOnlyListed_gated ev Hev) as (Hin & Hcr & Hreg).
    unfold authMiddleware. rewrite Hin, Hcr, Hreg. cbn [orb].
    unfold isSocketAdmin. rewrite Hmode. unfold st'.
    now rewrite leaveRoom_unmaps.
  - intros c room Hc Hroom. unfold st', leaveRoom. rewrite Hc, Hroom.
    exists (removeClient sid room). cbn [fst].
    split; [apply getRoom_update_room |].
    cbn. split; [apply map_get_map_delete |].
    split; [apply map_get_map_delete | auto].
Qed.

Lemma X18_leaving_revokes_admin_events_witness :
  let st' := fst (leaveRoom "a1" (memory Scenes.party)) in
  authMiddleware Scenario.multi st' "a1" "set-playlist"
  = Block [mkEmission ToSender "admin-error"
             (PAdminError "set-playlist" "Unauthorized: Admin access required")]
  /\ forall c room,
       roomCodeOf (memory Scenes.party) "a1" = Some c ->
       getRoom (memory Scenes.party) c = Some room ->
       exists room',
         getRoom st' c = Some room'
         /\ map_get "a1" (clients room') = None
         /\ map_get "a1" (r_clientBslStatus room') = None
         /\ adminSocketId room' = adminSocketId room
         /\ r_playlist room' = r_playlist room
         /\ r_videoState room' = r_videoState room.
Proof.
  apply (X18_leaving_revokes_admin_events Scenario.multi "a1"
           (memory Scenes.party) "set-playlist").
  - reflexivity.
  - simpl. auto.
Defined.

(** *** Deleting *)

Lemma unmap_clients_lookup {V : Type} (cs : list (string * V))
    (m : gmap string string) (k : string) :
  foldr (fun e acc => delete (fst e) acc) m cs !! k
  = if existsb (fun e => String.eqb (fst e) k) cs then None else m !! k.
Proof.
  induction cs as [| [k' v] cs IH]; [reflexivity |].
  cbn [foldr existsb fst].
  destruct (String.eqb_spec k' k) as [-> | Hne]; cbn [orb].
  - apply lookup_delete_eq.
  - rewrite lookup_delete_ne by exact Hne. exact IH.
Qed.

Lemma map_get_existsb {V : Type} (cs : list (string * V)) (k : string) :
  is_Some (map_get k cs) -> existsb (fun e => String.eqb (fst e) k) cs = true.
Proof.
  induction cs as [| [k' v] cs IH]; simpl.
  - intros [? H]. discriminate.
  - destruct (String.eqb k' k); [reflexivity | exact IH].
Qed.

(** X19: [delete-room] by the room's admin fingerprint, with the code
    written exactly as the key under which the room is stored: the room
    and its persisted fingerprint are gone, every client of the room is
    unmapped, the other rooms stay, and the room's own audience is told
    before the acknowledgement. *)
Theorem X19_delete_room_by_its_stored_code
    (sid : string) (data : deleteData) (ack : bool) (w : world)
    (c : string) (room : Room)
    (Hcode : dr_roomCode data = Some c)
    (Hkey : Str.toUpperCase c = c)
    (Hroom : rooms (memory w) !! c = Some room)
    (Hfp : strict_eq (adminFingerprint room) (dr_fingerprint data) = true) :
  exists w',
    deleteRoomListener sid data ack w
    = Returned w' ([mkNotice (To c) "room-deleted" (PRoomDeleted c)]
                   ++ reply ack "delete-room" PSuccess
                   ++ [mkNotice ToAll "rooms-updated"
                         (Plain (PRoomsUpdated (getPublicRooms (memory w'))))])
    /\ getRoom (memory w') c = None
    /\ roomAdmins w' !! c = None
    /\ (forall k, k <> c -> rooms (memory w') !! k = rooms (memory w) !! k)
    /\ (forall viewer, is_Some (map_get viewer (clients room)) ->
                       socketRoomMap (memory w') !! viewer = None).
Proof.
  assert (Hget : getRoom (memory w) c = Some room)
    by (unfold getRoom; now rewrite Hkey).
  unfold deleteRoomListener. rewrite Hcode. cbn [mbind option_bind]. rewrite Hget.
  cbn [fmap option_fmap option_map]. unfold isAdmin. rewrite Hfp.
  assert (Hlk : rooms (update_room (memory w) c room) !! c = Some room)
    by (unfold update_room; cbn [rooms set_rooms]; rewrite Hkey;
        apply lookup_insert_eq).
  unfold deleteRoom. cbn [memory roomAdmins rooms set_socketRoomMap].
  rewrite !Hlk. cbn [snd memory].
  match goal with |- exists w', Returned ?W _ = _ /\ _ => exists W end.
  split; [reflexivity |].
  cbn [memory roomAdmins rooms set_rooms socketRoomMap set_socketRoomMap update_room].
  split; [unfold getRoom; cbn [rooms]; rewrite Hkey; apply lookup_delete_eq |].
  split; [apply lookup_delete_eq |].
  split.
  { intros k Hk. rewrite Hkey.
    rewrite lookup_delete_ne by congruence. now rewrite lookup_insert_ne by congruence. }
  intros viewer Hv. rewrite unmap_clients_lookup.
  now rewrite (map_get_existsb _ _ Hv).
Qed.

Lemma X19_delete_room_by_its_stored_code_witness :
  let data := mkDeleteData (Some "ROOM42"%string) (JStr "F1") in
  exists w',
    deleteRoomListener "a1" data true Scenes.party
    = Returned w' ([mkNotice (To "ROOM42") "room-deleted" (PRoomDeleted "ROOM42")]
                   ++ reply true "delete-room" PSuccess
                   ++ [mkNotice ToAll "rooms-updated"
                         (Plain (PRoomsUpdated (getPublicRooms (memory w'))))])
    /\ getRoom (memory w') "ROOM42" = None
    /\ roomAdmins w' !! "ROOM42"%string = None
    /\ (forall k, k <> "ROOM42"%string ->
                  rooms (memory w') !! k = rooms (memory Scenes.party) !! k)
    /\ (forall viewer, is_Some (map_get viewer (clients Scenes.partyRoom)) ->
                       socketRoomMap (memory w') !! viewer = None).
Proof.
  apply (X19_delete_room_by_its_stored_code "a1"
           (mkDeleteData (Some "ROOM42"%string) (JStr "F1")) true Scenes.party
           "ROOM42" Scenes.partyRoom); reflexivity.
Defined.

(** X20: [delete-room] with a code that finds the room only through the
    upper-casing of [getRoom] (a lower-case spelling): the listener tells
    the audience named by that spelling that the room is deleted, unmaps
    the room's clients and acknowledges success, but the room and its
    persisted fingerprint remain. *)
Theorem X20_delete_room_by_another_spelling_keeps_it
    (sid : string) (data : deleteData) (ack : bool) (w : world)
    (c : string) (room : Room)
    (Hcode : dr_roomCode data = Some c)
    (Hroom : getRoom (memory w) c = Some room)
    (Hraw : rooms (memory w) !! c = None)
    (Hfp : strict_eq (adminFingerprint room) (dr_fingerprint data) = true) :
  exists w',
    deleteRoomListener sid data ack w
    = Returned w' ([mkNotice (To c) "room-deleted" (PRoomDeleted c)]
                   ++ reply ack "delete-room" PSuccess
                   ++ [mkNotice ToAll "rooms-updated"
                         (Plain (PRoomsUpdated (getPublicRooms (memory w'))))])
    /\ rooms (memory w') = rooms (memory w)
    /\ getRoom (memory w') c = Some room
    /\ roomAdmins w' = roomAdmins w
    /\ (forall viewer, is_Some (map_get viewer (clients room)) ->
                       socketRoomMap (memory w') !! viewer = None).
Proof.
  assert (Hsame : rooms (update_room (memory w) c room) = rooms (memory w))
    by (unfold update_room; cbn [rooms set_rooms]; now apply insert_id).
  unfold deleteRoomListener. rewrite Hcode. cbn [mbind option_bind]. rewrite Hroom.
  cbn [fmap option_fmap option_map]. unfold isAdmin. rewrite Hfp.
  unfold deleteRoom. cbn [memory roomAdmins rooms set_socketRoomMap].
  rewrite !Hsame, !Hraw. cbn [snd memory].
  match goal with |- exists w', Returned ?W _ = _ /\ _ => exists W end.
  split; [reflexivity |].
  cbn [memory roomAdmins rooms set_rooms socketRoomMap set_socketRoomMap].
  split; [exact Hsame |].
  split; [unfold getRoom in *; cbn [rooms set_socketRoomMap]; now rewrite Hsame |].
  split; [reflexivity |].
  intros viewer Hv. rewrite unmap_clients_lookup.
  now rewrite (map_get_existsb _ _ Hv).
Qed.

Lemma X20_delete_room_by_another_spelling_keeps_it_witness :
  let data := mkDeleteData (Some "room42"%string) (JStr "F1") in
  exists w',
    deleteRoomListener "a1" data true Scenes.party
    = Returned w' ([mkNotice (To "room42") "room-deleted" (PRoomDeleted "room42")]
                   ++ reply true "delete-room" PSuccess
                   ++ [mkNotice ToAll "rooms-updated"
                         (Plain (PRoomsUpdated (getPublicRooms (memory w'))))])
    /\ rooms (memory w') = rooms (memory Scenes.party)
    /\ getRoom (memory w') "room42" = Some Scenes.partyRoom
    /\ roomAdmins w' = roomAdmins Scenes.party
    /\ (forall viewer, is_Some (map_get viewer (clients Scenes.partyRoom)) ->
                       socketRoomMap (memory w') !! viewer = None).
Proof.
  apply (X20_delete_room_by_another_spelling_keeps_it "a1"
           (mkDeleteData (Some "room42"%string) (JStr "F1")) true Scenes.party
           "room42" Scenes.partyRoom); reflexivity.
Defined.

(** ** Admin registration *)

(** X21: in server mode with the fingerprint lock off,
    [bsl-admin-register] passes the middleware from any socket and, given
    the code of a stored room, makes the sender that room's admin: no
    fingerprint is compared, the room's own included. *)
Theorem X21_register_with_a_room_code_takes_the_room
    (cfg : config) (sid : string) (d : registerData) (st : server)
    (c : string) (room : Room)
    (Hmode : SERVER_MODE cfg = true)
    (Hlock : ADMIN_FINGERPRINT_LOCK cfg = false)
    (Hcode : rg_roomCode d = Some c)
    (Hname : c <> ""%string)
    (Hkey : Str.toUpperCase c = c)
    (Hroom : rooms st !! c = Some room) :
  authMiddleware cfg st sid "bsl-admin-register" = Next
  /\ exists st',
       bslAdminRegister cfg sid (Some d) st
       = Returned st' [mkNotice ToSender "admin-auth-result" (PAuthResult true "")]
       /\ isSocketAdmin cfg st' sid = true
       /\ (adminFingerprint <$> getRoom st' c) = Some (adminFingerprint room).
Proof.
  split; [reflexivity |].
  unfold bslAdminRegister, fingerprintLock. rewrite Hlock, Hcode.
  destruct (String.eqb_spec c ""); [contradiction |].
  cbn [rooms set_socketRoomMap verifyAdmin]. rewrite Hroom.
  eexists. split; [reflexivity |].
  unfold isSocketAdmin. rewrite Hmode.
  assert (Hmap : forall rs,
    roomCodeOf (set_rooms (set_socketRoomMap (verifyAdmin st sid)
                             (<[sid := c]> (socketRoomMap (verifyAdmin st sid)))) rs)
               sid = Some c).
  { intros rs. apply roomCodeOf_lookup; [| exact Hname]. apply lookup_insert_eq. }
  rewrite Hmap. unfold getRoom. cbn [rooms set_rooms]. rewrite Hkey, lookup_insert_eq.
  cbn. split; [apply String.eqb_refl | reflexivity].
Qed.

Lemma X21_register_with_a_room_code_takes_the_room_witness :
  authMiddleware Scenario.multi (memory Scenes.party) "v7" "bsl-admin-register" = Next
  /\ exists st',
       bslAdminRegister Scenario.multi "v7"
         (Some (mkRegisterData None (Some "ROOM42"%string))) (memory Scenes.party)
       = Returned st' [mkNotice ToSender "admin-auth-result" (PAuthResult true "")]
       /\ isSocketAdmin Scenario.multi st' "v7" = true
       /\ (adminFingerprint <$> getRoom st' "ROOM42") = Some (JStr "F1").
Proof.
  apply (X21_register_with_a_room_code_takes_the_room Scenario.multi "v7"
           (mkRegisterData None (Some "ROOM42"%string)) (memory Scenes.party)
           "ROOM42" Scenes.partyRoom); try reflexivity.
  discriminate.
Defined.

(** X22: with the fingerprint lock on, the first fingerprint registered
    is the only one ever accepted: once one is registered it never
    changes, a socket enters the verified set only by presenting it, and
    a refused registration changes nothing. *)
Theorem X22_fingerprint_lock_is_first_come
    (cfg : config) (sid : string) (data : option registerData) (st : server)
    (registered : string)
    (Hlock : ADMIN_FINGERPRINT_LOCK cfg = true)
    (Hreg : registeredAdminFingerprint st = Some registered) :
  let o := bslAdminRegister cfg sid data st in
  registeredAdminFingerprint (stateOf o) = Some registered
  /\ (sid ∈ verifiedAdminSockets (stateOf o) ->
      sid ∈ verifiedAdminSockets st \/ data ≫= rg_fingerprint = Some registered)
  /\ (data ≫= rg_fingerprint <> Some registered ->
      exists reason,
        o = Returned st [mkNotice ToSender "admin-auth-result"
                           (PAuthResult false reason)]).
Proof.
  intros o. unfold o, bslAdminRegister, fingerprintLock. rewrite Hlock, Hreg.
  destruct (data ≫= rg_fingerprint) as [f |] eqn:Hf.
  - destruct (String.eqb f "") eqn:He; cbn [stateOf].
    { split; [exact Hreg |]. split; [auto |]. eauto. }
    destruct (String.eqb_spec registered f) as [<- | Hne]; cbn [stateOf].
    + split; [| split; [auto | congruence]].
      destruct data as [d |]; cbn [stateOf]; [| exact Hreg].
      destruct (rg_roomCode d) as [c |]; [| exact Hreg].
      destruct (String.eqb c ""); [exact Hreg |].
      cbn [rooms set_socketRoomMap verifyAdmin].
      now destruct (rooms st !! c).
    + split; [exact Hreg |]. split; [auto |]. eauto.
  - cbn [stateOf]. split; [exact Hreg |]. split; [auto |]. eauto.
Qed.

Lemma X22_fingerprint_lock_is_first_come_witness :
  let cfg := mkConfig false false true false false 5 "any" true 1 in
  let st := set_registeredAdminFingerprint (bootServer 0) (Some "F1"%string) in
  let data := Some (mkRegisterData (Some "F2"%string) None) in
  let o := bslAdminRegister cfg "x1" data st in
  registeredAdminFingerprint (stateOf o) = Some "F1"%string
  /\ ("x1"%string ∈ verifiedAdminSockets (stateOf o) ->
      "x1"%string ∈ verifiedAdminSockets st
      \/ data ≫= rg_fingerprint = Some "F1"%string)
  /\ (data ≫= rg_fingerprint <> Some "F1"%string ->
      exists reason,
        o = Returned st [mkNotice ToSender "admin-auth-result"
                           (PAuthResult false reason)]).
Proof.
  apply (X22_fingerprint_lock_is_first_come
           (mkConfig false false true false false 5 "any" true 1) "x1"
           (Some (mkRegisterData (Some "F2"%string) None))
           (set_registeredAdminFingerprint (bootServer 0) (Some "F1"%string)) "F1");
    reflexivity.
Defined.

(** ** BSL matching *)

Lemma lower_ascii_dot (c : ascii) :
  Ascii.eqb (Str.lower_ascii c) "."%char = Ascii.eqb c "."%char.
Proof. destruct c as [[] [] [] [] [] [] [] []]; reflexivity. Qed.

Lemma from_last_dot_aux_lower (s : string) :
  Str.from_last_dot_aux (Str.toLowerCase s)
  = Str.toLowerCase <$> Str.from_last_dot_aux s.
Proof.
  induction s as [| c s IH]; [reflexivity |].
  unfold Str.toLowerCase in *. cbn [Str.map_chars Str.from_last_dot_aux].
  rewrite IH. destruct (Str.from_last_dot_aux s); [reflexivity |].
  cbn [fmap option_fmap option_map]. rewrite lower_ascii_dot.
  now destruct (Ascii.eqb c ".").
Qed.

(** Taking the extension commutes with lower-casing. *)
Lemma from_last_dot_lower (s : string) :
  Str.from_last_dot (Str.toLowerCase s) = Str.toLowerCase (Str.from_last_dot s).
Proof.
  unfold Str.from_last_dot. rewrite from_last_dot_aux_lower.
  now destruct (Str.from_last_dot_aux s).
Qed.

Lemma nameCriterion_extCriterion (cf : clientFile) (v : video) :
  nameCriterion cf v = true -> extCriterion cf v = true.
Proof.
  unfold nameCriterion, extCriterion. intros H. apply String.eqb_eq in H.
  apply String.eqb_eq. now rewrite <- !from_last_dot_lower, H.
Qed.

Lemma b2n_le (b : bool) : (b2n b <= 1)%nat.
Proof. destruct b; simpl; lia. Qed.

(** X23: the advanced score.  It never exceeds 4, stays below 4 for a
    file that reports no type and below 3 for one that reports neither
    size nor type; two names made of ASCII characters that agree up to
    case also agree on the extension, so they score at least 2 and are
    matched at thresholds 1 and 2; at threshold 1 a shared extension
    alone is a match; and a score below the threshold is a refusal
    unless the match is persisted, so threshold 4 is out of reach of a
    file without a type, whatever its name. *)
Theorem X23_advanced_score
    (cfg : config) (serverFileSize : string -> option Z)
    (clientMatches : gmap string string) (cf : clientFile) (v : video)
    (score : nat)
    (Hadv : BSL_ADVANCED_MATCH cfg = true)
    (Hscore : matchScore serverFileSize cf v = Some score) :
  (score <= 4)%nat
  /\ (asciiOnly (cf_name cf) = true -> asciiOnly (filename v) = true ->
      nameCriterion cf v = true -> (2 <= score)%nat)
  /\ (cf_type cf = None \/ cf_type cf = Some ""%string -> (score <= 3)%nat)
  /\ (cf_size cf = None ->
      cf_type cf = None \/ cf_type cf = Some ""%string -> (score <= 2)%nat)
  /\ (asciiOnly (cf_name cf) = true -> asciiOnly (filename v) = true ->
      nameCriterion cf v = true -> (BSL_ADVANCED_MATCH_THRESHOLD cfg <= 2)%nat ->
      matches cfg serverFileSize clientMatches cf v = Some true)
  /\ (extCriterion cf v = true -> (BSL_ADVANCED_MATCH_THRESHOLD cfg <= 1)%nat ->
      matches cfg serverFileSize clientMatches cf v = Some true)
  /\ (persistedMatch clientMatches cf v = false ->
      (score < BSL_ADVANCED_MATCH_THRESHOLD cfg)%nat ->
      matches cfg serverFileSize clientMatches cf v = Some false).
Proof.
  unfold matchScore in Hscore.
  destruct (mimeCriterion cf _) as [m |] eqn:Hm; [| discriminate].
  injection Hscore as <-.
  pose proof (b2n_le (nameCriterion cf v)) as Hn.
  pose proof (b2n_le (extCriterion cf v)) as He.
  pose proof (b2n_le (sizeCriterion serverFileSize cf v)) as Hs.
  pose proof (b2n_le m) as Hmi.
  assert (Hname : nameCriterion cf v = true ->
                  (2 <= b2n (nameCriterion cf v) + b2n (extCriterion cf v)
                        + b2n (sizeCriterion serverFileSize cf v) + b2n m)%nat).
  { intros H. rewrite (nameCriterion_extCriterion _ _ H), H. simpl. lia. }
  assert (Hnotype : cf_type cf = None \/ cf_type cf = Some ""%string -> m = false).
  { unfold mimeCriterion in Hm. intros [H | H]; rewrite H in Hm;
      cbn in Hm; congruence. }
  split; [lia |]. split; [intros _ _; exact Hname |].
  split; [intros H; rewrite (Hnotype H); simpl; lia |].
  split.
  { intros Hsz H. rewrite (Hnotype H). unfold sizeCriterion. rewrite Hsz.
    simpl. lia. }
  unfold matches, matchScore. rewrite Hadv, Hm.
  split; [| split].
  - intros _ _ H Ht. destruct (persistedMatch _ _ _); [reflexivity |].
    f_equal. apply Nat.leb_le. specialize (Hname H). lia.
  - intros H Ht. destruct (persistedMatch _ _ _); [reflexivity |].
    f_equal. apply Nat.leb_le. rewrite H. simpl. lia.
  - intros -> Ht. f_equal. apply Nat.leb_gt. exact Ht.
Qed.

Lemma X23_advanced_score_witness :
  let cf := mkClientFile "movie.MKV" None None in
  let v := mkVideo "Movie.mkv" JUndefined noTracks JUndefined JUndefined true in
  let strict := mkConfig false false false false false 5 "any" true 3 in
  (2 <= 4)%nat
  /\ (asciiOnly (cf_name cf) = true -> asciiOnly (filename v) = true ->
      nameCriterion cf v = true -> (2 <= 2)%nat)
  /\ (cf_type cf = None \/ cf_type cf = Some ""%string -> (2 <= 3)%nat)
  /\ (cf_size cf = None ->
      cf_type cf = None \/ cf_type cf = Some ""%string -> (2 <= 2)%nat)
  /\ (asciiOnly (cf_name cf) = true -> asciiOnly (filename v) = true ->
      nameCriterion cf v = true -> (BSL_ADVANCED_MATCH_THRESHOLD strict <= 2)%nat ->
      matches strict Scenario.sizes ∅ cf v = Some true)
  /\ (extCriterion cf v = true -> (BSL_ADVANCED_MATCH_THRESHOLD strict <= 1)%nat ->
      matches strict Scenario.sizes ∅ cf v = Some true)
  /\ (persistedMatch ∅ cf v = false ->
      (2 < BSL_ADVANCED_MATCH_THRESHOLD strict)%nat ->
      matches strict Scenario.sizes ∅ cf v = Some false).
Proof.
  apply (X23_advanced_score (mkConfig false false false false false 5 "any" true 3)
           Scenario.sizes ∅ (mkClientFile "movie.MKV" None None)
           (mkVideo "Movie.mkv" JUndefined noTracks JUndefined JUndefined true) 2);
    reflexivity.
Defined.

(** *** Status rows *)

Lemma filter_length_all {A : Type} (f : A -> bool) (l : list A) :
  length (List.filter f l) = length l <-> forall x, In x l -> f x = true.
Proof.
  induction l as [| a l IH]; simpl.
  - split; [intros _ x [] | reflexivity].
  - pose proof (List.filter_length_le f l) as Hle.
    destruct (f a) eqn:Hfa; simpl.
    + split.
      * intros H x [<- | Hx]; [exact Hfa |]. apply IH; [lia | exact Hx].
      * intros H. f_equal. apply IH. auto.
    + split; [lia |]. intros H. specialize (H a (or_introl eq_refl)). congruence.
Qed.

Lemma filter_length_some {A : Type} (f : A -> bool) (l : list A) :
  (0 < length (List.filter f l))%nat <-> exists x, In x l /\ f x = true.
Proof.
  induction l as [| a l IH]; simpl.
  - split; [lia | intros (x & [] & _)].
  - destruct (f a) eqn:Hfa; simpl.
    + split; [eauto | lia].
    + rewrite IH. split.
      * intros (x & Hx & Hf). eauto.
      * intros (x & [<- | Hx] & Hf); [congruence | eauto].
Qed.

Lemma filter_length_disjoint {A : Type} (f g : A -> bool) (l : list A) :
  (forall x, f x = true -> g x = false) ->
  (length (List.filter f l) + length (List.filter g l) <= length l)%nat.
Proof.
  intros Hfg. induction l as [| a l IH]; simpl; [lia |].
  destruct (f a) eqn:Hfa; simpl.
  - rewrite (Hfg a Hfa). lia.
  - destruct (g a); simpl; lia.
Qed.

(** X24: one entry of [videoBslStatus].  The clients counted with and
    without a match are disjoint, so [totalChecked] is their sum and at
    most the number of clients; in mode [all] the video is BSL-active
    exactly when there is a client and every client has a match for it,
    in any other mode exactly when some client has one. *)
Theorem X24_video_row_counts
    (cfg : config) (statuses : list (string * bslStatus)) (index : Z) :
  let row := videoRow cfg statuses index in
  totalChecked row = (clientsWithMatch row + clientsWithoutMatch row)%nat
  /\ (totalChecked row <= length statuses)%nat
  /\ (BSL_S2_MODE cfg = "all"%string ->
      (bslActive row = true <->
       statuses <> [] /\ forall e, In e statuses -> hasMatch (snd e) index = true))
  /\ (BSL_S2_MODE cfg <> "all"%string ->
      (bslActive row = true <->
       exists e, In e statuses /\ hasMatch (snd e) index = true)).
Proof.
  intros row. unfold row, videoRow. cbn [totalChecked clientsWithMatch
    clientsWithoutMatch bslActive].
  split; [reflexivity |]. split.
  - apply filter_length_disjoint. intros x ->. reflexivity.
  - split.
    + intros ->. change (String.eqb "all" "all") with true. cbv iota.
      rewrite andb_true_iff, Nat.ltb_lt, Nat.eqb_eq, filter_length_all.
      split; intros [H1 H2]; (split; [| exact H2]).
      * intros ->. simpl in H1. lia.
      * destruct statuses; [contradiction | simpl; lia].
    + intros Hmode. destruct (String.eqb_spec (BSL_S2_MODE cfg) "all");
        [contradiction |].
      rewrite Nat.ltb_lt. apply filter_length_some.
Qed.

(** *** Persisted matches *)

Section Remembered.

Variable cfg : config.
Variable serverFileSize : string -> option Z.
Variable clientMatches : gmap string string.

Lemma matchVideos_keeps cf (rest : list video) :
  forall idx acc m i,
    matchVideos cfg serverFileSize clientMatches cf rest idx acc = Some m ->
    is_Some (acc !! i) -> is_Some (m !! i).
Proof.
  induction rest as [| v rest IH]; intros idx acc m i Hrun Hacc; simpl in Hrun.
  - now injection Hrun as <-.
  - destruct (matches cfg serverFileSize clientMatches cf v) as [hit |];
      [| discriminate].
    apply (IH _ _ _ i Hrun). destruct hit; [| exact Hacc].
    destruct (decide (idx = i)) as [-> | Hne].
    + rewrite lookup_insert_eq. eauto.
    + now rewrite lookup_insert_ne.
Qed.

Lemma matchVideos_hits cf (rest : list video) :
  forall idx acc m (k : nat) v,
    matchVideos cfg serverFileSize clientMatches cf rest idx acc = Some m ->
    rest !! k = Some v ->
    matches cfg serverFileSize clientMatches cf v = Some true ->
    is_Some (m !! (idx + Z.of_nat k)).
Proof.
  induction rest as [| v0 rest IH]; intros idx acc m k v Hrun Hk Hhit;
    [discriminate |].
  simpl in Hrun. destruct k as [| k].
  - injection Hk as ->. rewrite Hhit in Hrun.
    replace (idx + Z.of_nat 0) with idx by lia.
    apply (matchVideos_keeps _ _ _ _ _ _ Hrun). rewrite lookup_insert_eq. eauto.
  - destruct (matches cfg serverFileSize clientMatches cf v0) as [hit |];
      [| discriminate].
    replace (idx + Z.of_nat (S k)) with (idx + 1 + Z.of_nat k) by lia.
    exact (IH _ _ _ _ _ Hrun Hk Hhit).
Qed.

Lemma matchFiles_keeps (fs : list clientFile) (vs : list video) :
  forall acc m i,
    matchFiles cfg serverFileSize clientMatches fs vs acc = Some m ->
    is_Some (acc !! i) -> is_Some (m !! i).
Proof.
  induction fs as [| cf fs IH]; intros acc m i Hrun Hacc; simpl in Hrun.
  - now injection Hrun as <-.
  - destruct (matchVideos cfg serverFileSize clientMatches cf vs 0 acc)
      as [acc' |] eqn:Hinner; [| discriminate].
    apply (IH _ _ _ Hrun). exact (matchVideos_keeps _ _ _ _ _ _ Hinner Hacc).
Qed.

Lemma matchFiles_hits (fs : list clientFile) (vs : list video) :
  forall acc m cf (j : nat) v,
    matchFiles cfg serverFileSize clientMatches fs vs acc = Some m ->
    In cf fs -> vs !! j = Some v ->
    matches cfg serverFileSize clientMatches cf v = Some true ->
    is_Some (m !! Z.of_nat j).
Proof.
  induction fs as [| cf0 fs IH]; intros acc m cf j v Hrun Hin Hj Hhit;
    [destruct Hin |].
  simpl in Hrun.
  destruct (matchVideos cfg serverFileSize clientMatches cf0 vs 0 acc)
    as [acc' |] eqn:Hinner; [| discriminate].
  destruct Hin as [-> | Hin].
  - apply (matchFiles_keeps _ _ _ _ _ Hrun).
    exact (matchVideos_hits _ _ _ _ _ _ _ Hinner Hj Hhit).
  - exact (IH _ _ _ _ _ Hrun Hin Hj Hhit).
Qed.

End Remembered.

(** X25: a persisted match is honoured by every later folder report.  If
    the match memory of the reporting client maps the lower-case name of
    a reported file to the lower-case name of a playlist video, then,
    whatever the matching mode and threshold, the status stored for the
    viewer has a match for that video, provided the listener returns. *)
Theorem X25_persisted_match_is_reapplied
    (cfg : config) (serverFileSize : string -> option Z)
    (sid : string) (data : folderData) (st st' : server) (s : scope)
    (out : list emission) (own : gmap string string)
    (cf : clientFile) (v : video) (j : nat)
    (Hres : resolve cfg false sid st = Some s)
    (Hown : persistentBslMatches st !! string_or (fd_clientId data) sid = Some own)
    (Hmem : own !! Str.toLowerCase (cf_name cf) = Some (Str.toLowerCase (filename v)))
    (Hfile : In cf (fd_files data))
    (Hvideo : videos (scopePlaylist st s) !! j = Some v)
    (Hrun : bslFolderSelected cfg serverFileSize sid data st = Some (st', out)) :
  exists status f,
    statusOf cfg false sid sid st' = Some status
    /\ matchedVideos status !! Z.of_nat j = Some f
    /\ In (mkEmission ToSender "bsl-match-result"
             (PMatchResult (matchedVideos status) (size (matchedVideos status))
                           (length (videos (scopePlaylist st s))))) out.
Proof.
  unfold bslFolderSelected in Hrun. rewrite Hres, Hown in Hrun.
  cbn [default from_option id] in Hrun.
  destruct (matchFiles cfg serverFileSize own (fd_files data)
              (videos (scopePlaylist st s)) ∅) as [matched |] eqn:Hmatch;
    [| discriminate].
  injection Hrun as <- <-.
  assert (Hhit : matches cfg serverFileSize own cf v = Some true).
  { unfold matches, persistedMatch. rewrite Hmem. now rewrite String.eqb_refl. }
  destruct (matchFiles_hits cfg serverFileSize own _ _ _ _ cf j v
              Hmatch Hfile Hvideo Hhit) as [f Hf].
  eexists _, f. split; [now apply statusOf_putBslStatus |].
  cbn [matchedVideos]. split; [exact Hf |].
  apply in_or_app. right. left. reflexivity.
Qed.

Lemma X25_persisted_match_is_reapplied_witness :
  let strict := mkConfig false false false false false 5 "any" true 4 in
  let st := set_persistentBslMatches Scenario.movieLaunched
              {[ "V1"%string := {[ "film.avi"%string := "movie.mkv"%string ]} ]} in
  let data := mkFolderData (Some "V1"%string) None
                           [mkClientFile "Film.avi" None None] in
  exists status f,
    statusOf strict false "v1" "v1"
      (match bslFolderSelected strict Scenario.sizes "v1" data st with
       | Some (st', _) => st'
       | None => st
       end) = Some status
    /\ matchedVideos status !! Z.of_nat 0 = Some f
    /\ In (mkEmission ToSender "bsl-match-result"
             (PMatchResult (matchedVideos status) (size (matchedVideos status))
                           (length (videos (scopePlaylist st Legacy)))))
          (match bslFolderSelected strict Scenario.sizes "v1" data st with
           | Some (_, out) => out
           | None => []
           end).
Proof.
  cbv zeta.
  destruct (bslFolderSelected (mkConfig false false false false false 5 "any" true 4)
              Scenario.sizes "v1"
              (mkFolderData (Some "V1"%string) None [mkClientFile "Film.avi" None None])
              (set_persistentBslMatches Scenario.movieLaunched
                 {[ "V1"%string := {[ "film.avi"%string := "movie.mkv"%string ]} ]}))
    as [[st' out] |] eqn:Hrun; [| vm_compute in Hrun; discriminate].
  apply (X25_persisted_match_is_reapplied
           (mkConfig false false false false false 5 "any" true 4)
           Scenario.sizes "v1"
           (mkFolderData (Some "V1"%string) None [mkClientFile "Film.avi" None None])
           (set_persistentBslMatches Scenario.movieLaunched
              {[ "V1"%string := {[ "film.avi"%string := "movie.mkv"%string ]} ]})
           st' Legacy out {[ "film.avi"%string := "movie.mkv"%string ]}
           (mkClientFile "Film.avi" None None)
           (mkVideo "Movie.mkv" JUndefined noTracks JUndefined JUndefined true) 0).
  - reflexivity.
  - reflexivity.
  - reflexivity.
  - left. reflexivity.
  - reflexivity.
  - exact Hrun.
Defined.

(** ** CSRF tokens and FFmpeg jobs *)

(** X26: the token [getOrCreateCsrfToken] hands out is stored with an
    expiry after the instant of issue; until that expiry it validates
    for its session, lets a POST carrying it and the session cookie
    through [csrfProtection], and is what a repeated call hands out
    again, leaving the table alone. *)
Theorem X26_issued_token_validates_until_expiry
    (now later : Z) (fresh sessionId : string)
    (tokens : gmap string Http.csrfEntry)
    (Hclock : later <= now + CSRF_TOKEN_EXPIRY) :
  let issued := getOrCreateCsrfToken now later fresh sessionId tokens in
  exists e,
    snd issued !! sessionId = Some e
    /\ Http.token e = fst issued
    /\ now < Http.expires e
    /\ (forall t, t <= Http.expires e ->
          Http.validateCsrfToken t (snd issued) sessionId (fst issued) = true)
    /\ (forall t req,
          t <= Http.expires e ->
          sessionId <> ""%string -> fst issued <> ""%string ->
          Http.cookie_sync_session req = Some sessionId ->
          Http.header_x_csrf_token req = Some (fst issued) ->
          Http.csrfProtection t (snd issued) req = Http.Continue)
    /\ (forall t t' fresh',
          t < Http.expires e ->
          getOrCreateCsrfToken t t' fresh' sessionId (snd issued) = issued).
Proof.
  intros issued.
  assert (Hgen : forall e0,
    snd issued !! sessionId = Some e0 -> Http.token e0 = fst issued ->
    now < Http.expires e0 ->
    exists e,
      snd issued !! sessionId = Some e
      /\ Http.token e = fst issued
      /\ now < Http.expires e
      /\ (forall t, t <= Http.expires e ->
            Http.validateCsrfToken t (snd issued) sessionId (fst issued) = true)
      /\ (forall t req,
            t <= Http.expires e ->
            sessionId <> ""%string -> fst issued <> ""%string ->
            Http.cookie_sync_session req = Some sessionId ->
            Http.header_x_csrf_token req = Some (fst issued) ->
            Http.csrfProtection t (snd issued) req = Http.Continue)
      /\ (forall t t' fresh',
            t < Http.expires e ->
            getOrCreateCsrfToken t t' fresh' sessionId (snd issued) = issued)).
  { intros e0 He0 Htok Hexp. exists e0.
    assert (Hval : forall t, t <= Http.expires e0 ->
              Http.validateCsrfToken t (snd issued) sessionId (fst issued) = true).
    { intros t Ht. unfold Http.validateCsrfToken. rewrite He0.
      destruct (Z.ltb_spec (Http.expires e0) t); [lia |].
      rewrite Htok. apply String.eqb_refl. }
    repeat (split; [assumption |]). split.
    - intros t req Ht Hsid Htk Hcookie Hheader.
      unfold Http.csrfProtection. rewrite Hcookie, Hheader.
      destruct (includes _ (Http.method req)); [reflexivity |].
      cbn [Http.str_or].
      destruct (String.eqb_spec (fst issued) ""); [contradiction |].
      cbn [Http.str_truthy].
      destruct (String.eqb_spec (fst issued) ""); [contradiction |].
      destruct (String.eqb_spec sessionId ""); [contradiction |].
      cbn [negb andb]. now rewrite (Hval t Ht).
    - intros t t' fresh' Ht. unfold getOrCreateCsrfToken at 1. rewrite He0.
      destruct (Z.ltb_spec t (Http.expires e0)); [| lia].
      rewrite Htok. now destruct issued. }
  unfold issued, getOrCreateCsrfToken in *.
  set (entry := Http.mkCsrfEntry fresh (now + CSRF_TOKEN_EXPIRY)) in *.
  assert (Hcreate :
    (if Nat.ltb 1000 (size (<[sessionId := entry]> tokens))
     then filter (fun e : string * Http.csrfEntry => later <= Http.expires (snd e))
                 (<[sessionId := entry]> tokens)
     else <[sessionId := entry]> tokens) !! sessionId = Some entry).
  { destruct (Nat.ltb 1000 _); [| apply lookup_insert_eq].
    apply map_lookup_filter_Some. split; [apply lookup_insert_eq | exact Hclock]. }
  assert (Hpos : now < Http.expires entry)
    by (unfold entry, CSRF_TOKEN_EXPIRY; simpl; lia).
  destruct (tokens !! sessionId) as [existing |] eqn:Hex.
  - destruct (Z.ltb_spec now (Http.expires existing)).
    + apply (Hgen existing); [exact Hex | reflexivity | assumption].
    + apply (Hgen entry); [exact Hcreate | reflexivity | exact Hpos].
  - apply (Hgen entry); [exact Hcreate | reflexivity | exact Hpos].
Qed.

Lemma X26_issued_token_validates_until_expiry_witness :
  let issued := getOrCreateCsrfToken 1000 1000 "c0ffee" "s1" ∅ in
  exists e,
    snd issued !! "s1"%string = Some e
    /\ Http.token e = fst issued
    /\ 1000 < Http.expires e
    /\ (forall t, t <= Http.expires e ->
          Http.validateCsrfToken t (snd issued) "s1" (fst issued) = true)
    /\ (forall t req,
          t <= Http.expires e ->
          "s1"%string <> ""%string -> fst issued <> ""%string ->
          Http.cookie_sync_session req = Some "s1"%string ->
          Http.header_x_csrf_token req = Some (fst issued) ->
          Http.csrfProtection t (snd issued) req = Http.Continue)
    /\ (forall t t' fresh',
          t < Http.expires e ->
          getOrCreateCsrfToken t t' fresh' "s1" (snd issued) = issued).
Proof.
  apply (X26_issued_token_validates_until_expiry 1000 1000 "c0ffee" "s1" ∅).
  unfold CSRF_TOKEN_EXPIRY. lia.
Defined.

Lemma cancelFirst_frame (n : num) (jobs jobs' : list Http.job) :
  Http.cancelFirst n jobs = Some jobs' ->
  Http.id <$> jobs' = Http.id <$> jobs
  /\ exists before j after,
       jobs = before ++ j :: after
       /\ jobs' = before ++ Http.mkJob (Http.id j) (Http.j_type j) (Http.j_filename j)
                                       "cancelled" (Http.progress j)
                                       (Http.startTime j) (Http.preset j) :: after
       /\ Http.status j = "running"%string
       /\ ofZ (Http.id j) = n
       /\ Forall (fun b => ofZ (Http.id b) <> n) before.
Proof.
  revert jobs'. induction jobs as [| j rest IH]; intros jobs' H; [discriminate |].
  cbn [Http.cancelFirst] in H. destruct (num_eqb (ofZ (Http.id j)) n) eqn:Hid.
  - destruct (String.eqb_spec (Http.status j) "running") as [Hrun |]; [| discriminate].
    injection H as <-. split; [reflexivity |].
    exists [], j, rest. apply num_eqb_eq in Hid. repeat split; auto.
  - destruct (Http.cancelFirst n rest) as [rest' |]; [| discriminate].
    cbn [option_map] in H. injection H as <-.
    destruct (IH rest' eq_refl) as (Hids & before & j0 & after & -> & -> & Hrun & Hn & Hb).
    split; [rewrite !fmap_cons; now rewrite Hids |].
    exists (j :: before), j0, after. repeat split; auto.
    constructor; [| exact Hb]. intros Heq. rewrite Heq in Hid.
    destruct n as [| | | q]; try discriminate.
    unfold num_eqb in Hid. now rewrite (proj2 (Qc_eqb_eq q q) eq_refl) in Hid.
Qed.

(** X27: the job table under the two FFmpeg routes.  Identifiers stay
    pairwise distinct and within the counter; a job that is started gets
    an identifier no earlier job has; a cancellation changes nothing but
    the status of one running job, the first whose identifier is the
    parsed [jobId], from [running] to [cancelled]; and a request that is
    refused leaves the table as it was. *)
Theorem X27_job_identifiers_stay_unique
    (passwordHash : string) (sha256 : string -> string) (now : Z)
    (req : Http.request) (st : Http.state)
    (Hok : jobIdsOk st) :
  let started := Http.postRunPreset passwordHash sha256 now req st in
  let cancelled := Http.postCancel passwordHash sha256 req st in
  jobIdsOk (fst started)
  /\ (forall n, Http.content (snd started) = Http.BJobStarted n ->
        ~ elem_of n (Http.id <$> Http.ffmpegJobs st)
        /\ exists j, Http.ffmpegJobs (fst started) = Http.ffmpegJobs st ++ [j]
                     /\ Http.id j = n)
  /\ (Http.code (snd started) <> 200%nat -> fst started = st)
  /\ jobIdsOk (fst cancelled)
  /\ Http.ffmpegJobCounter (fst cancelled) = Http.ffmpegJobCounter st
  /\ (Http.code (snd cancelled) <> 200%nat -> fst cancelled = st)
  /\ (Http.code (snd cancelled) = 200%nat ->
      exists before j after,
        Http.ffmpegJobs st = before ++ j :: after
        /\ Http.ffmpegJobs (fst cancelled)
           = before ++ Http.mkJob (Http.id j) (Http.j_type j) (Http.j_filename j)
                                  "cancelled" (Http.progress j)
                                  (Http.startTime j) (Http.preset j) :: after
        /\ Http.status j = "running"%string
        /\ ofZ (Http.id j) = Validate.parseIntVal (Http.body_jobId req)).
Proof.
  intros started cancelled. destruct Hok as [Hnd Hall].
  assert (Hfresh : ~ elem_of (Http.ffmpegJobCounter st + 1) (Http.id <$> Http.ffmpegJobs st)).
  { intros Hin. apply list_elem_of_fmap in Hin as (j & Hj & Hin).
    rewrite Forall_forall in Hall. specialize (Hall j Hin). lia. }
  assert (Hstarted :
    jobIdsOk (fst started)
    /\ (forall n, Http.content (snd started) = Http.BJobStarted n ->
          ~ elem_of n (Http.id <$> Http.ffmpegJobs st)
          /\ exists j, Http.ffmpegJobs (fst started) = Http.ffmpegJobs st ++ [j]
                       /\ Http.id j = n)
    /\ (Http.code (snd started) <> 200%nat -> fst started = st)).
  { unfold started, Http.postRunPreset, Http.verifyFfmpegAuth.
    destruct (String.eqb passwordHash "");
      [split; [split; assumption | split; [discriminate | reflexivity]] |].
    destruct (Http.body_password req) as [pw |];
      [| split; [split; assumption | split; [discriminate | reflexivity]]].
    destruct (String.eqb pw "");
      [split; [split; assumption | split; [discriminate | reflexivity]] |].
    destruct (negb (String.eqb (sha256 pw) passwordHash));
      [split; [split; assumption | split; [discriminate | reflexivity]] |].
    unfold Http.runPresetHandler.
    destruct (negb (truthy _));
      [split; [split; assumption | split; [discriminate | reflexivity]] |].
    cbn [fst snd Http.ffmpegJobs Http.ffmpegJobCounter Http.content Http.code].
    split; [split; cbn [Http.ffmpegJobs Http.ffmpegJobCounter] |].
    - rewrite fmap_app. apply NoDup_app. split; [exact Hnd |].
      split; [| apply NoDup_singleton].
      intros x Hx Hx'. apply list_elem_of_singleton in Hx'. subst x.
      exact (Hfresh Hx).
    - apply Forall_app. split.
      + eapply Forall_impl; [exact Hall |]. simpl. intros j Hj. lia.
      + constructor; [simpl; lia | constructor].
    - split; [| intros H; now contradiction H].
      intros n [= <-]. split; [exact Hfresh |]. eexists. split; reflexivity. }
  destruct Hstarted as (H1 & H2 & H3).
  split; [exact H1 |]. split; [exact H2 |]. split; [exact H3 |].
  unfold cancelled, Http.postCancel, Http.verifyFfmpegAuth.
  assert (Hst : jobIdsOk st) by (split; assumption).
  destruct (String.eqb passwordHash "");
    [split; [exact Hst | split; [reflexivity | split; [reflexivity | discriminate]]] |].
  destruct (Http.body_password req) as [pw |];
    [| split; [exact Hst | split; [reflexivity | split; [reflexivity | discriminate]]]].
  destruct (String.eqb pw "");
    [split; [exact Hst | split; [reflexivity | split; [reflexivity | discriminate]]] |].
  destruct (negb (String.eqb (sha256 pw) passwordHash));
    [split; [exact Hst | split; [reflexivity | split; [reflexivity | discriminate]]] |].
  unfold Http.cancelHandler.
  destruct (Http.cancelFirst _ (Http.ffmpegJobs st)) as [jobs' |] eqn:Hc;
    [| split; [exact Hst | split; [reflexivity | split; [reflexivity | discriminate]]]].
  cbn [fst snd Http.ffmpegJobs Http.ffmpegJobCounter Http.code].
  destruct (cancelFirst_frame _ _ _ Hc)
    as (Hids & before & j & after & Hjobs & -> & Hrun & Hn & _).
  split; [split; cbn [Http.ffmpegJobs Http.ffmpegJobCounter] |].
  - now rewrite Hids.
  - rewrite Hjobs in Hall. apply Forall_app in Hall as [Hb Ha].
    apply Forall_app. split; [exact Hb |].
    inversion Ha; subst. constructor; assumption.
  - split; [reflexivity |]. split; [intros H; now contradiction H |].
    intros _. exists before, j, after. auto.
Qed.

Lemma X27_job_identifiers_stay_unique_witness :
  let st := Http.mkState ∅ 0 [] in
  let started := Http.postRunPreset Scenario.toolsHash Scenario.hashOf 1000
                                    Scenario.presetWithoutToken st in
  let cancelled := Http.postCancel Scenario.toolsHash Scenario.hashOf
                                   Scenario.presetWithoutToken st in
  jobIdsOk (fst started)
  /\ (forall n, Http.content (snd started) = Http.BJobStarted n ->
        ~ elem_of n (Http.id <$> Http.ffmpegJobs st)
        /\ exists j, Http.ffmpegJobs (fst started) = Http.ffmpegJobs st ++ [j]
                     /\ Http.id j = n)
  /\ (Http.code (snd started) <> 200%nat -> fst started = st)
  /\ jobIdsOk (fst cancelled)
  /\ Http.ffmpegJobCounter (fst cancelled) = Http.ffmpegJobCounter st
  /\ (Http.code (snd cancelled) <> 200%nat -> fst cancelled = st)
  /\ (Http.code (snd cancelled) = 200%nat ->
      exists before j after,
        Http.ffmpegJobs st = before ++ j :: after
        /\ Http.ffmpegJobs (fst cancelled)
           = before ++ Http.mkJob (Http.id j) (Http.j_type j) (Http.j_filename j)
                                  "cancelled" (Http.progress j)
                                  (Http.startTime j) (Http.preset j) :: after
        /\ Http.status j = "running"%string
        /\ ofZ (Http.id j)
           = Validate.parseIntVal (Http.body_jobId Scenario.presetWithoutToken)).
Proof.
  apply (X27_job_identifiers_stay_unique Scenario.toolsHash Scenario.hashOf 1000
           Scenario.presetWithoutToken (Http.mkState ∅ 0 [])).
  split; [apply NoDup_nil_2 | constructor].
Defined.

(** ** Text helpers *)

Lemma among_In (cs : list N) (c : N) : among cs c = true <-> In c cs.
Proof.
  unfold among. rewrite existsb_exists. split.
  - intros (k & Hk & Heq). apply N.eqb_eq in Heq. now subst.
  - intros H. exists c. split; [exact H | apply N.eqb_refl].
Qed.

Lemma among_false (cs : list N) (c : N) :
  among cs c = false <-> ~ In c cs.
Proof. rewrite <- among_In. now destruct (among cs c). Qed.

(** None of the characters the first two checks look for is allowed. *)
Lemma rejected_not_allowed (c : N) :
  In c [47; 92; 59; 38; 124; 36; 96; 60; 62; 10; 13]%N -> allowedInName c = false.
Proof.
  intros H. repeat (destruct H as [<- | H]; [reflexivity |]). destruct H.
Qed.

Lemma allowed_isSafe (c : N) :
  allowedInName c = true ->
  isSafe c = true /\ N.eqb c 47 = false /\ N.eqb c 92 = false
  /\ isShellMeta c = false.
Proof.
  intros H.
  assert (Hnot : forall k, In k [47; 92; 59; 38; 124; 36; 96; 60; 62; 10; 13]%N ->
                           N.eqb c k = false).
  { intros k Hk. destruct (N.eqb_spec c k) as [-> | ?]; [| reflexivity].
    rewrite (rejected_not_allowed k Hk) in H. discriminate. }
  split.
  - unfold allowedInName in H. unfold isSafe.
    destruct (isWord c); [reflexivity |].
    destruct (isSpace c); [reflexivity |]. exact H.
  - split; [apply Hnot; simpl; auto |]. split; [apply Hnot; simpl; auto |].
    apply among_false. intros Hin.
    assert (Hc : allowedInName c = false)
      by (apply rejected_not_allowed; simpl in *; tauto).
    congruence.
Qed.

Lemma isSafe_allowed (c : N) :
  isSafe c = true -> isShellMeta c = false -> allowedInName c = true.
Proof.
  intros Hsafe Hmeta. unfold isShellMeta in Hmeta.
  rewrite among_false in Hmeta.
  assert (H10 : N.eqb c 10 = false)
    by (destruct (N.eqb_spec c 10); [subst; exfalso; apply Hmeta; simpl; tauto
                                    | reflexivity]).
  assert (H13 : N.eqb c 13 = false)
    by (destruct (N.eqb_spec c 13); [subst; exfalso; apply Hmeta; simpl; tauto
                                    | reflexivity]).
  unfold allowedInName. rewrite H10, H13, !andb_true_r. exact Hsafe.
Qed.

(** X28: [validateFilename] accepts exactly the strings of 1 to 255 code
    units without two dots in a row that are made of word characters,
    white space other than line feed and carriage return, and
    [-.()[]]; the separator and metacharacter checks reject nothing else
    that the whitelist would let through.  The sanitized name is
    [path.basename] of the input. *)
Theorem X28_valid_filenames
    (basename : units -> units) (filename : option units) (s : units) :
  validateFilename basename filename = Valid s
  <-> exists f,
        filename = Some f /\ s = basename f
        /\ (1 <= length f <= 255)%nat
        /\ hasDotDot f = false
        /\ forallb allowedInName f = true.
Proof.
  unfold validateFilename. split.
  - destruct filename as [f |]; [| discriminate].
    destruct (Nat.eqb_spec (length f) 0); [discriminate |].
    destruct (Nat.ltb_spec 255 (length f)); [discriminate |].
    destruct (hasDotDot f) eqn:Hdd; [discriminate |]. cbn [orb].
    destruct (among f 47 || among f 92)%bool; [discriminate |].
    destruct (existsb isShellMeta f) eqn:Hmeta; [discriminate |].
    destruct (forallb isSafe f) eqn:Hsafe; [| discriminate].
    intros [= <-]. exists f. split; [reflexivity |]. split; [reflexivity |].
    split; [lia |]. split; [exact Hdd |].
    apply forallb_forall. intros c Hc.
    rewrite forallb_forall in Hsafe.
    apply isSafe_allowed; [now apply Hsafe |].
    destruct (isShellMeta c) eqn:Hm; [| reflexivity].
    assert (existsb isShellMeta f = true)
      by (apply existsb_exists; eauto). congruence.
  - intros (f & -> & -> & Hlen & Hdd & Hall).
    rewrite forallb_forall in Hall.
    destruct (Nat.eqb_spec (length f) 0); [lia |].
    destruct (Nat.ltb_spec 255 (length f)); [lia |].
    rewrite Hdd. cbn [orb].
    assert (H47 : among f 47 = false).
    { apply among_false. intros Hin.
      destruct (allowed_isSafe 47 (Hall _ Hin)) as (_ & Hx & _). discriminate. }
    assert (H92 : among f 92 = false).
    { apply among_false. intros Hin.
      destruct (allowed_isSafe 92 (Hall _ Hin)) as (_ & _ & Hx & _). discriminate. }
    rewrite H47, H92. cbn [orb].
    assert (Hmeta : existsb isShellMeta f = false).
    { destruct (existsb isShellMeta f) eqn:He; [| reflexivity].
      apply existsb_exists in He as (c & Hc & Hm).
      destruct (allowed_isSafe c (Hall _ Hc)) as (_ & _ & _ & Hx). congruence. }
    rewrite Hmeta.
    assert (Hsafe : forallb isSafe f = true).
    { apply forallb_forall. intros c Hc. now apply allowed_isSafe, Hall. }
    now rewrite Hsafe.
Qed.

(** *** Escaping *)

Lemma append_cons (a : ascii) (x y : string) :
  (String a x ++ y)%string = String a (x ++ y).
Proof. reflexivity. Qed.

Lemma append_assoc (x y z : string) : ((x ++ y) ++ z = x ++ (y ++ z))%string.
Proof.
  induction x as [| a x IH]; [reflexivity |].
  rewrite !append_cons. f_equal. exact IH.
Qed.

Lemma replaceAll_cons c by_ a x :
  replaceAll c by_ (String a x)
  = if Ascii.eqb a c then (by_ ++ replaceAll c by_ x)%string
    else String a (replaceAll c by_ x).
Proof. reflexivity. Qed.

Lemma replaceAll_app c by_ x y :
  replaceAll c by_ (x ++ y) = (replaceAll c by_ x ++ replaceAll c by_ y)%string.
Proof.
  induction x as [| a x IH]; [reflexivity |].
  rewrite append_cons, !replaceAll_cons, IH.
  destruct (Ascii.eqb a c); [now rewrite append_assoc | reflexivity].
Qed.

Lemma escapeHTML_cons (a : ascii) (s : string) :
  escapeHTML (JStr (String a s)) = (entity a ++ escapeHTML (JStr s))%string.
Proof.
  unfold escapeHTML, entity. cbn [replaceAll].
  destruct (Ascii.eqb_spec a "&") as [-> | Hamp].
  { rewrite !replaceAll_app. reflexivity. }
  cbn [replaceAll]. destruct (Ascii.eqb_spec a "<") as [-> | Hlt].
  { rewrite !replaceAll_app. reflexivity. }
  cbn [replaceAll]. destruct (Ascii.eqb_spec a ">") as [-> | Hgt].
  { rewrite !replaceAll_app. reflexivity. }
  cbn [replaceAll]. destruct (Ascii.eqb_spec a dquote) as [-> | Hq].
  { rewrite !replaceAll_app. reflexivity. }
  cbn [replaceAll]. destruct (Ascii.eqb_spec a dquote) as [| _]; [contradiction |].
  cbn [replaceAll]. destruct (Ascii.eqb_spec a "'") as [-> | Hs]; reflexivity.
Qed.

Lemma escapeHTML_rendered (s : string) : escapeHTML (JStr s) = rendered s.
Proof.
  induction s as [| a s IH]; [reflexivity |].
  rewrite escapeHTML_cons, IH. reflexivity.
Qed.

Lemma entity_no_markup (c : ascii) :
  Forall (fun x => x <> "<"%char /\ x <> ">"%char /\ x <> dquote /\ x <> "'"%char)
         (list_ascii_of_string (entity c)).
Proof.
  unfold entity.
  destruct (Ascii.eqb_spec c "&"); [repeat constructor; discriminate |].
  destruct (Ascii.eqb_spec c "<"); [repeat constructor; discriminate |].
  destruct (Ascii.eqb_spec c ">"); [repeat constructor; discriminate |].
  destruct (Ascii.eqb_spec c dquote); [repeat constructor; discriminate |].
  destruct (Ascii.eqb_spec c "'"); [repeat constructor; discriminate |].
  repeat constructor; assumption.
Qed.

Lemma list_ascii_of_string_app (x y : string) :
  list_ascii_of_string (x ++ y)
  = (list_ascii_of_string x ++ list_ascii_of_string y)%list.
Proof. induction x as [| a x IH]; simpl; [reflexivity | now rewrite IH]. Qed.

(** An entity and what follows it determine the character rendered. *)
Lemma entity_inj (a b : ascii) (x y : string) :
  (entity a ++ x)%string = (entity b ++ y)%string -> a = b /\ x = y.
Proof.
  unfold entity.
  destruct (Ascii.eqb_spec a "&") as [-> | Ha1];
    [| destruct (Ascii.eqb_spec a "<") as [-> | Ha2];
       [| destruct (Ascii.eqb_spec a ">") as [-> | Ha3];
          [| destruct (Ascii.eqb_spec a dquote) as [-> | Ha4];
             [| destruct (Ascii.eqb_spec a "'") as [-> | Ha5]]]]];
  (destruct (Ascii.eqb_spec b "&") as [-> | Hb1];
    [| destruct (Ascii.eqb_spec b "<") as [-> | Hb2];
       [| destruct (Ascii.eqb_spec b ">") as [-> | Hb3];
          [| destruct (Ascii.eqb_spec b dquote) as [-> | Hb4];
             [| destruct (Ascii.eqb_spec b "'") as [-> | Hb5]]]]]);
  cbv [String.append]; intros H; try discriminate H;
  try (injection H as H; split; [reflexivity | exact H]);
  try (injection H as H1 H2; congruence).
  injection H as -> ->. auto.
Qed.

(** X29: [escapeHTML] renders each character on its own, the ampersand
    first so that no entity is escaped twice: the result is the
    concatenation of the characters' entities.  Hence it contains none
    of [<], [>], the double quote and the apostrophe, two different
    texts never render alike, and a value that is not a string renders
    as the empty string. *)
Theorem X29_escapeHTML_renders_each_character (v : jsval) :
  (forall s, v = JStr s -> escapeHTML v = rendered s)
  /\ Forall (fun x => x <> "<"%char /\ x <> ">"%char /\ x <> dquote /\ x <> "'"%char)
            (list_ascii_of_string (escapeHTML v))
  /\ (forall s t, v = JStr s -> escapeHTML (JStr t) = escapeHTML v -> t = s)
  /\ ((forall s, v <> JStr s) -> escapeHTML v = ""%string).
Proof.
  split; [intros s ->; apply escapeHTML_rendered |].
  split; [| split].
  - destruct v as [| | b | n | s |]; try constructor.
    rewrite escapeHTML_rendered.
    induction s as [| a s IH]; [constructor |].
    cbn [rendered]. rewrite list_ascii_of_string_app.
    apply Forall_app. split; [apply entity_no_markup | exact IH].
  - intros s t ->. rewrite !escapeHTML_rendered. revert s.
    induction t as [| a t IH]; intros [| b s] H.
    + reflexivity.
    + exfalso. cbn [rendered] in H. unfold entity in H.
      repeat (destruct (Ascii.eqb _ _) in H; [discriminate |]). discriminate.
    + exfalso. cbn [rendered] in H. unfold entity in H.
      repeat (destruct (Ascii.eqb _ _) in H; [discriminate |]). discriminate.
    + cbn [rendered] in H. apply entity_inj in H as [-> H].
      f_equal. now apply IH.
  - intros Hns. destruct v; try reflexivity. now contradiction (Hns s).
Qed.

(** ** Configuration *)

Lemma parseIntAuto_int (s : string) :
  Validate.parseIntAuto s = NaN \/ exists k, Validate.parseIntAuto s = ofZ k.
Proof. exact (parseIntVal_int (JStr s)). Qed.

(** Printing an integer of a small range and parsing it back. *)
Lemma parse_print (lo : Z) (n : nat) (z : Z) :
  forallb (fun k => num_eqb (Validate.parseIntAuto (Validate.printIndex k)) (ofZ k))
          ((fun i => Z.of_nat i + lo) <$> seq 0 n) = true ->
  lo <= z < lo + Z.of_nat n ->
  Validate.parseIntAuto (Validate.printIndex z) = ofZ z.
Proof.
  intros Hall Hz. rewrite forallb_forall in Hall. apply num_eqb_eq, Hall.
  apply in_map_iff. exists (Z.to_nat (z - lo)). split; [lia |].
  apply in_seq. lia.
Qed.

(** What the range validator leaves of the examined value. *)
Lemma getConfigRange_spec (lo hi : Z) (fallback : string)
    (envValue fileValue : option string) :
  let parsed := Validate.parseIntAuto (configValue fallback envValue fileValue) in
  (forall z, parsed = ofZ z -> lo <= z <= hi ->
     getConfigRange lo hi fallback envValue fileValue = Validate.printIndex z)
  /\ ((forall z, parsed = ofZ z -> z < lo \/ hi < z) ->
      getConfigRange lo hi fallback envValue fileValue = fallback).
Proof.
  intros parsed. unfold getConfigRange. fold parsed.
  destruct (parseIntAuto_int (configValue fallback envValue fileValue))
    as [H | [k H]]; fold parsed in H; rewrite H.
  - split; [intros z Hz; discriminate | reflexivity].
  - unfold ofZ. cbv beta iota. fold (ofZ k) (ofZ lo) (ofZ hi).
    rewrite !ltb_ofZ, Qfloor_Qc_of_Z. split.
    + intros z Hz Hr. apply ofZ_inj in Hz. subst z.
      destruct (Z.ltb_spec k lo); [lia |].
      destruct (Z.ltb_spec hi k); [lia | reflexivity].
    + intros Hout. destruct (Hout k eq_refl).
      * destruct (Z.ltb_spec k lo); [reflexivity | lia].
      * destruct (Z.ltb_spec hi k); [now rewrite orb_true_r | lia].
Qed.

(** X30: the two integer settings, from what the environment and
    [config.env] say.  The value examined is the environment's, else the
    file's, else the default.  When its [parseInt] is an integer of the
    range (5 to 60 for [SKIP_SECONDS], 1 to 4 for
    [BSL_ADVANCED_MATCH_THRESHOLD]) the setting is that integer; when
    its [parseInt] is not a number or lies outside the range the setting
    is the default (5 and 1), even when the file holds a valid value
    behind an invalid one of the environment.  So each setting is an
    integer of its range whatever the inputs. *)
Theorem X30_integer_settings_stay_in_range (envValue fileValue : option string) :
  let skip := Validate.parseIntAuto (configValue "5" envValue fileValue) in
  let threshold := Validate.parseIntAuto (configValue "1" envValue fileValue) in
  (forall z, skip = ofZ z -> 5 <= z <= 60 ->
     skipSecondsOf envValue fileValue = ofZ z)
  /\ ((forall z, skip = ofZ z -> z < 5 \/ 60 < z) ->
      skipSecondsOf envValue fileValue = ofZ 5)
  /\ (forall z, threshold = ofZ z -> 1 <= z <= 4 ->
        matchThresholdOf envValue fileValue = ofZ z)
  /\ ((forall z, threshold = ofZ z -> z < 1 \/ 4 < z) ->
      matchThresholdOf envValue fileValue = ofZ 1)
  /\ (exists k, skipSecondsOf envValue fileValue = ofZ k /\ 5 <= k <= 60)
  /\ (exists k, matchThresholdOf envValue fileValue = ofZ k /\ 1 <= k <= 4)
  /\ skipSecondsOf (Some "30"%string) (Some "10"%string) = ofZ 30
  /\ skipSecondsOf None (Some "10 seconds"%string) = ofZ 10
  /\ skipSecondsOf (Some "100"%string) (Some "10"%string) = ofZ 5
  /\ skipSecondsOf (Some "fast"%string) None = ofZ 5
  /\ matchThresholdOf None None = ofZ 1
  /\ matchThresholdOf None (Some "3"%string) = ofZ 3
  /\ matchThresholdOf (Some "0"%string) (Some "3"%string) = ofZ 1.
Proof.
  intros skip threshold.
  assert (Hskip : forall z, 5 <= z <= 60 ->
            getConfigRange 5 60 "5" envValue fileValue = Validate.printIndex z ->
            skipSecondsOf envValue fileValue = ofZ z).
  { intros z Hz Hv. unfold skipSecondsOf. rewrite Hv.
    rewrite (parse_print 5 56 z) by (try lia; vm_compute; reflexivity).
    unfold num_or. rewrite num_truthy_ofZ.
    destruct (Z.eqb_spec z 0); [lia | reflexivity]. }
  assert (Hthr : forall z, 1 <= z <= 4 ->
            getConfigRange 1 4 "1" envValue fileValue = Validate.printIndex z ->
            matchThresholdOf envValue fileValue = ofZ z).
  { intros z Hz Hv. unfold matchThresholdOf. rewrite Hv.
    rewrite (parse_print 1 4 z) by (try lia; vm_compute; reflexivity).
    assert (z = 1 \/ z = 2 \/ z = 3 \/ z = 4) as [-> | [-> | [-> | ->]]] by lia;
      reflexivity. }
  destruct (getConfigRange_spec 5 60 "5" envValue fileValue) as [Sin Sout].
  destruct (getConfigRange_spec 1 4 "1" envValue fileValue) as [Tin Tout].
  cbv zeta in Sin, Sout, Tin, Tout. fold skip in Sin, Sout.
  fold threshold in Tin, Tout.
  assert (S1 : forall z, skip = ofZ z -> 5 <= z <= 60 ->
                 skipSecondsOf envValue fileValue = ofZ z)
    by (intros z Hz Hr; apply Hskip; [exact Hr | now apply Sin]).
  assert (S2 : (forall z, skip = ofZ z -> z < 5 \/ 60 < z) ->
               skipSecondsOf envValue fileValue = ofZ 5)
    by (intros Hout; apply Hskip; [lia | exact (Sout Hout)]).
  assert (T1 : forall z, threshold = ofZ z -> 1 <= z <= 4 ->
                 matchThresholdOf envValue fileValue = ofZ z)
    by (intros z Hz Hr; apply Hthr; [exact Hr | now apply Tin]).
  assert (T2 : (forall z, threshold = ofZ z -> z < 1 \/ 4 < z) ->
               matchThresholdOf envValue fileValue = ofZ 1)
    by (intros Hout; apply Hthr; [lia | exact (Tout Hout)]).
  split; [exact S1 |]. split; [exact S2 |].
  split; [exact T1 |]. split; [exact T2 |].
  split.
  { destruct (parseIntAuto_int (configValue "5" envValue fileValue))
      as [H | [k H]]; fold skip in H.
    - exists 5. split; [| lia]. apply S2. intros z Hz. rewrite H in Hz. discriminate Hz.
    - destruct (Z_le_dec 5 k) as [H5 |]; [destruct (Z_le_dec k 60) as [H60 |] |].
      + exists k. split; [now apply S1 | lia].
      + exists 5. split; [| lia]. apply S2. intros z Hz.
        rewrite H in Hz. apply ofZ_inj in Hz. lia.
      + exists 5. split; [| lia]. apply S2. intros z Hz.
        rewrite H in Hz. apply ofZ_inj in Hz. lia. }
  split.
  { destruct (parseIntAuto_int (configValue "1" envValue fileValue))
      as [H | [k H]]; fold threshold in H.
    - exists 1. split; [| lia]. apply T2. intros z Hz. rewrite H in Hz. discriminate Hz.
    - destruct (Z_le_dec 1 k) as [H1 |]; [destruct (Z_le_dec k 4) as [H4 |] |].
      + exists k. split; [now apply T1 | lia].
      + exists 1. split; [| lia]. apply T2. intros z Hz.
        rewrite H in Hz. apply ofZ_inj in Hz. lia.
      + exists 1. split; [| lia]. apply T2. intros z Hz.
        rewrite H in Hz. apply ofZ_inj in Hz. lia. }
  repeat split; apply num_eqb_eq; vm_compute; reflexivity.
Qed.
